(** * browser-performance-test: the aggregation core of [index.js]

    A shallow embedding of [avg], [calculateMetricsData],
    [calculateCumulativeStats] and [calculateDeltas], and the properties the
    specification states about them.

    Number model.  A JavaScript number is an IEEE-754 binary64 value, the
    primitive [float]: [+], [-] and [/] are the correctly rounded
    operations, and the infinities and NaN are numbers like the others.  The
    other JavaScript values that reach the aggregation code are [null] and
    [undefined] (an absent field); the only test the code applies to a raw
    field is [v != null], which treats both alike, so both are the
    constructor [Null].

    The functions are embedded twice.  First as functions on data: a tree is
    the association list that [Object.entries] enumerates, a loop is a fold
    that passes the loop state along, an exception is the result [Throw].
    Then, in [Module Heap], as computations over a store of arrays and
    objects, where every [push] and property assignment is a write; the
    last part of the file relates the two.

    Around this core the file embeds [generateHtml] as the values that fill
    its template, the loops of [runBenchmark] over a record of what
    Playwright answers, and the [generateHtml] of the earlier script
    [benchmark.js]; their properties come last. *)

From Stdlib Require Import String Ascii.
From Stdlib Require Import ZArith QArith Lia.
From Stdlib Require Import Uint63.
From Stdlib Require Import Floats.
From Stdlib Require Import List Permutation Bool Arith.
From Stdlib Require Import Setoid Morphisms.
Import ListNotations.

Set Warnings "-inexact-float".

Local Open Scope float_scope.

(** ** Values *)

Inductive value : Type :=
| Null
| Num (x : float).

(** The same number, or two numbers that JavaScript's [===] does not tell
    apart: the first makes NaN the same as itself, the second makes one
    number of the two zeros. *)
Definition same_number (a b : float) : Prop :=
  a = b \/ (a =? b)%float = true.

Definition value_eq (v w : value) : Prop :=
  match v, w with
  | Null, Null => True
  | Num a, Num b => same_number a b
  | _, _ => False
  end.

Infix "=v=" := value_eq (at level 70, no associativity).

Definition is_null (v : value) : bool :=
  match v with Null => true | Num _ => false end.

(** ** The mean helper *)

(** The number that an array length, a non-negative integer, is as an
    operand of [/].  An array has fewer than 2^32 elements. *)
Definition number_of_nat (n : nat) : float :=
  PrimFloat.of_uint63 (Uint63.of_Z (Z.of_nat n)).

(** [arr.reduce((a, b) => a + b, 0)] *)
Definition reduce_add (arr : list float) : float :=
  fold_left PrimFloat.add arr 0%float.

Definition array_length (arr : list float) : float :=
  number_of_nat (length arr).

(** [const avg = (arr) => (arr.length ? arr.reduce(...) / arr.length : null)] *)
Definition avg (arr : list float) : value :=
  if negb (Nat.eqb (length arr) 0)
  then Num (reduce_add arr / array_length arr)
  else Null.

(** The words of the specification.  The sum of a sequence in the arithmetic
    of the code: the elements are added one after the other, from the first
    to the last, and every addition is rounded; the mean is this sum divided
    by the count. *)
Fixpoint sum_from (acc : float) (l : list float) : float :=
  match l with
  | [] => acc
  | x :: l' => sum_from (acc + x) l'
  end.

Definition total (l : list float) : float := sum_from 0 l.

Definition count (l : list float) : float :=
  PrimFloat.of_uint63 (Uint63.of_Z (Z.of_nat (length l))).

Definition mean (l : list float) : float := (total l / count l)%float.

(** The mean of a sequence that may be empty: without a member there is no
    mean, which is [null]. *)
Definition mean_value (l : list float) : value :=
  match l with
  | [] => Null
  | _ :: _ => Num (mean l)
  end.

(** The least and the greatest member of a non-empty sequence [x :: l]. *)
Fixpoint seq_min (x : float) (l : list float) : float :=
  match l with
  | [] => x
  | y :: l' => let m := seq_min y l' in if (m <? x)%float then m else x
  end.

Fixpoint seq_max (x : float) (l : list float) : float :=
  match l with
  | [] => x
  | y :: l' => let m := seq_max y l' in if (x <? m)%float then m else x
  end.

(** The same words in exact arithmetic: the rational that a finite number
    is, and the arithmetic mean of a sequence of finite numbers. *)
Definition exact (x : float) : option Q :=
  match Prim2SF x with
  | S754_zero _ => Some 0%Q
  | S754_finite s m e =>
      Some ((if s then -1 else 1) * inject_Z (Zpos m) * Qpower 2 e)%Q
  | _ => None
  end.

Fixpoint exact_total (l : list float) : option Q :=
  match l with
  | [] => Some 0%Q
  | x :: l' =>
      match exact x, exact_total l' with
      | Some q, Some t => Some (q + t)%Q
      | _, _ => None
      end
  end.

Definition exact_mean (l : list float) : option Q :=
  match exact_total l with
  | Some t => Some (t / inject_Z (Z.of_nat (length l)))%Q
  | None => None
  end.

(** ** Exceptions *)

(** The only exception the aggregation code can raise is the [TypeError] of
    reading a property of [undefined]. *)
Inductive error : Type := TypeError.

Inductive result (A : Type) : Type :=
| Ok (a : A)
| Throw (e : error).

Arguments Ok {A} a.
Arguments Throw {A} e.

Definition bind {A B : Type} (c : result A) (k : A -> result B) : result B :=
  match c with
  | Ok a => k a
  | Throw e => Throw e
  end.

Notation "x <- c ;; k" := (bind c (fun x => k))
  (at level 61, c at next level, right associativity).

(** [for (const [key, v] of Object.entries(obj)) body], the loop state passed
    along; an exception leaves the loop. *)
Fixpoint for_entries {V S : Type} (entries : list (string * V))
    (body : string -> V -> S -> result S) (st : S) : result S :=
  match entries with
  | [] => Ok st
  | (key, v) :: rest => st' <- body key v st ;; for_entries rest body st'
  end.

(** ** The data *)

(** One trial.  A field is a number or [null]; an absent field reads as
    [undefined], which [v != null] treats as [null]. *)
Module Sample.
Record t : Type := make {
  browser_start_time : value;
  fcp : value;
  dom_interactive : value;
  dom_content_loaded : value;
  load : value
}.
End Sample.

(** [{ cold: [...], warm: [...] }]; [None] is a missing key, which reads as
    [undefined]. *)
Module Buckets.
Record t : Type := make {
  cold : option (list Sample.t);
  warm : option (list Sample.t)
}.
End Buckets.

(** A JavaScript object with string keys, as the list [Object.entries]
    enumerates. *)
Definition object (V : Type) : Type := list (string * V).

Definition Sites : Type := object Buckets.t.
Definition JsBuckets : Type := object Sites.
Definition ResultTree : Type := object JsBuckets.

Definition keys {V : Type} (o : object V) : list string := map fst o.

(** [o[key]] *)
Fixpoint get {V : Type} (o : object V) (key : string) : option V :=
  match o with
  | [] => None
  | (k, v) :: rest => if String.eqb k key then Some v else get rest key
  end.

(** [o[key] = v]: an existing key keeps its place, a new one goes last.
    This is the assignment for an ordinary property name; an assignment to
    [__proto__] sets the prototype of the object and makes no entry, and a
    key made of digits only is enumerated before the others.  A statement
    about the keys of an object built from keys that the code does not fix
    says so ([ordinary_name] below). *)
Fixpoint set {V : Type} (o : object V) (key : string) (v : V) : object V :=
  match o with
  | [] => [(key, v)]
  | (k, w) :: rest =>
      if String.eqb k key then (k, v) :: rest else (k, w) :: set rest key v
  end.

(** [.filter(v => v != null)] *)
Fixpoint non_null (vs : list value) : list float :=
  match vs with
  | [] => []
  | Null :: vs' => non_null vs'
  | Num q :: vs' => q :: non_null vs'
  end.

(** [arr.map(r => r.f).filter(v => v != null)], where [arr] is
    [cacheBuckets.cold] or [cacheBuckets.warm]; on a missing key this is
    [undefined.map(...)]. *)
Definition column (arr : option (list Sample.t)) (f : Sample.t -> value)
  : result (list float) :=
  match arr with
  | None => Throw TypeError
  | Some rs => Ok (non_null (map f rs))
  end.

(** ** calculateMetricsData *)

(** [s.replace(pat, rep)] for a string pattern: the first occurrence only. *)
Fixpoint replace (pat rep s : string) : string :=
  if String.prefix pat s
  then rep ++ String.substring (String.length pat)
                (String.length s - String.length pat) s
  else match s with
       | EmptyString => EmptyString
       | String c s' => String c (replace pat rep s')
       end.

Definition make_label (browser jsLabel url : string) : string :=
  (browser ++ " " ++ jsLabel ++ " "
     ++ replace "/" "" (replace "https://" "" url))%string.

Module Entry.
Record t : Type := make {
  label : string;
  browser_start_time : value;
  fcp : value;
  dom_interactive : value;
  dom_content_loaded : value;
  load : value
}.
End Entry.

Definition coldMetrics (label : string) (cacheBuckets : Buckets.t)
  : result Entry.t :=
  bst <- column (Buckets.cold cacheBuckets) Sample.browser_start_time ;;
  f <- column (Buckets.cold cacheBuckets) Sample.fcp ;;
  di <- column (Buckets.cold cacheBuckets) Sample.dom_interactive ;;
  dcl <- column (Buckets.cold cacheBuckets) Sample.dom_content_loaded ;;
  l <- column (Buckets.cold cacheBuckets) Sample.load ;;
  Ok (Entry.make label (avg bst) (avg f) (avg di) (avg dcl) (avg l)).

Definition warmMetrics (label : string) (cacheBuckets : Buckets.t)
  : result Entry.t :=
  f <- column (Buckets.warm cacheBuckets) Sample.fcp ;;
  di <- column (Buckets.warm cacheBuckets) Sample.dom_interactive ;;
  dcl <- column (Buckets.warm cacheBuckets) Sample.dom_content_loaded ;;
  l <- column (Buckets.warm cacheBuckets) Sample.load ;;
  Ok (Entry.make label Null (avg f) (avg di) (avg dcl) (avg l)).

(** [{ cold: coldData, warm: warmData }]; during the loops, the two local
    arrays. *)
Module Chart.
Record t : Type := make {
  cold : list Entry.t;
  warm : list Entry.t
}.
End Chart.

(** The body of the innermost loop. *)
Definition metrics_of_site (browser jsLabel url : string)
    (cacheBuckets : Buckets.t) (st : Chart.t) : result Chart.t :=
  let label := make_label browser jsLabel url in
  c <- coldMetrics label cacheBuckets ;;
  let coldData := Chart.cold st ++ [c] in
  w <- warmMetrics label cacheBuckets ;;
  let warmData := Chart.warm st ++ [w] in
  Ok (Chart.make coldData warmData).

Definition calculateMetricsData (data : ResultTree) : result Chart.t :=
  for_entries data (fun browser jsBuckets =>
    for_entries jsBuckets (fun jsLabel sites =>
      for_entries sites (fun url cacheBuckets =>
        metrics_of_site browser jsLabel url cacheBuckets)))
    (Chart.make [] []).

(** ** calculateCumulativeStats *)

Module Pair.
Record t : Type := make {
  fcp : value;
  load : value
}.
End Pair.

Module Stats.
Record t : Type := make {
  overall : Pair.t;
  jsOn : Pair.t;
  jsOff : Pair.t;
  cold : Pair.t;
  warm : Pair.t
}.
End Stats.

Definition CumulativeStats : Type := object Stats.t.

(** The ten local arrays of one browser. *)
Module Pools.
Record t : Type := make {
  allFcps : list float;
  allLoads : list float;
  jsOnFcps : list float;
  jsOnLoads : list float;
  jsOffFcps : list float;
  jsOffLoads : list float;
  coldFcps : list float;
  coldLoads : list float;
  warmFcps : list float;
  warmLoads : list float
}.
Definition empty : t := make [] [] [] [] [] [] [] [] [] [].
End Pools.

(** The body of the inner loop: collect the data points of one site. *)
Definition collect_site (jsLabel : string) (cacheBuckets : Buckets.t)
    (p : Pools.t) : result Pools.t :=
  coldFcpVals <- column (Buckets.cold cacheBuckets) Sample.fcp ;;
  coldLoadVals <- column (Buckets.cold cacheBuckets) Sample.load ;;
  warmFcpVals <- column (Buckets.warm cacheBuckets) Sample.fcp ;;
  warmLoadVals <- column (Buckets.warm cacheBuckets) Sample.load ;;
  let on := String.eqb jsLabel "JS_on" in
  Ok (Pools.make
        (Pools.allFcps p ++ coldFcpVals ++ warmFcpVals)
        (Pools.allLoads p ++ coldLoadVals ++ warmLoadVals)
        (if on then Pools.jsOnFcps p ++ coldFcpVals ++ warmFcpVals
         else Pools.jsOnFcps p)
        (if on then Pools.jsOnLoads p ++ coldLoadVals ++ warmLoadVals
         else Pools.jsOnLoads p)
        (if on then Pools.jsOffFcps p
         else Pools.jsOffFcps p ++ coldFcpVals ++ warmFcpVals)
        (if on then Pools.jsOffLoads p
         else Pools.jsOffLoads p ++ coldLoadVals ++ warmLoadVals)
        (Pools.coldFcps p ++ coldFcpVals)
        (Pools.coldLoads p ++ coldLoadVals)
        (Pools.warmFcps p ++ warmFcpVals)
        (Pools.warmLoads p ++ warmLoadVals)).

Definition collect_browser (jsBuckets : JsBuckets) : result Pools.t :=
  for_entries jsBuckets (fun jsLabel sites =>
    for_entries sites (fun _url cacheBuckets =>
      collect_site jsLabel cacheBuckets))
    Pools.empty.

Definition stats_of_pools (p : Pools.t) : Stats.t :=
  Stats.make
    (Pair.make (avg (Pools.allFcps p)) (avg (Pools.allLoads p)))
    (Pair.make (avg (Pools.jsOnFcps p)) (avg (Pools.jsOnLoads p)))
    (Pair.make (avg (Pools.jsOffFcps p)) (avg (Pools.jsOffLoads p)))
    (Pair.make (avg (Pools.coldFcps p)) (avg (Pools.coldLoads p)))
    (Pair.make (avg (Pools.warmFcps p)) (avg (Pools.warmLoads p))).

Definition calculateCumulativeStats (data : ResultTree)
  : result CumulativeStats :=
  for_entries data (fun browser jsBuckets stats =>
    p <- collect_browser jsBuckets ;;
    Ok (set stats browser (stats_of_pools p)))
    [].

(** ** calculateDeltas *)

(** [ToNumber] on the two kinds of value a mean can be: [null] becomes 0. *)
Definition ToNumber (v : value) : float :=
  match v with
  | Null => 0
  | Num q => q
  end.

(** The binary [-]: both operands go through [ToNumber]. *)
Definition js_sub (a b : value) : value := Num (ToNumber a - ToNumber b).

Module Deltas.
Record perBrowser : Type := make_perBrowser {
  Chrome : Pair.t;
  Firefox : Pair.t
}.
Record t : Type := make {
  jsOff : perBrowser;
  warmCache : perBrowser;
  firefoxVsChrome : Pair.t
}.
End Deltas.

(** [stats.Chrome], [stats.Firefox]: a missing browser reads as [undefined],
    and the property access that follows raises. *)
Definition browser_stats (stats : CumulativeStats) (name : string)
  : result Stats.t :=
  match get stats name with
  | Some s => Ok s
  | None => Throw TypeError
  end.

Definition pair_sub (b a : Pair.t) : Pair.t :=
  Pair.make (js_sub (Pair.fcp b) (Pair.fcp a))
            (js_sub (Pair.load b) (Pair.load a)).

Definition calculateDeltas (stats : CumulativeStats) : result Deltas.t :=
  chrome <- browser_stats stats "Chrome" ;;
  firefox <- browser_stats stats "Firefox" ;;
  Ok (Deltas.make
        (Deltas.make_perBrowser
           (pair_sub (Stats.jsOff chrome) (Stats.jsOn chrome))
           (pair_sub (Stats.jsOff firefox) (Stats.jsOn firefox)))
        (Deltas.make_perBrowser
           (pair_sub (Stats.warm chrome) (Stats.cold chrome))
           (pair_sub (Stats.warm firefox) (Stats.cold firefox)))
        (pair_sub (Stats.overall firefox) (Stats.overall chrome))).

(** The five comparisons and the two metrics of the delta table. *)
Inductive comparison : Type :=
| JsOff_Chrome | JsOff_Firefox | WarmCache_Chrome | WarmCache_Firefox
| FirefoxVsChrome.

Inductive metric2 : Type := FCP | LOAD.

Definition pair_field (m : metric2) (p : Pair.t) : value :=
  match m with FCP => Pair.fcp p | LOAD => Pair.load p end.

(** Where [calculateDeltas] puts the comparison in its result. *)
Definition delta_of (c : comparison) (d : Deltas.t) : Pair.t :=
  match c with
  | JsOff_Chrome => Deltas.Chrome (Deltas.jsOff d)
  | JsOff_Firefox => Deltas.Firefox (Deltas.jsOff d)
  | WarmCache_Chrome => Deltas.Chrome (Deltas.warmCache d)
  | WarmCache_Firefox => Deltas.Firefox (Deltas.warmCache d)
  | FirefoxVsChrome => Deltas.firefoxVsChrome d
  end.

(** The two operands of each comparison as the specification names them:
    JS_off minus JS_on, warm minus cold, Firefox overall minus Chrome
    overall. *)
Definition minuend (c : comparison) (chrome firefox : Stats.t) : Pair.t :=
  match c with
  | JsOff_Chrome => Stats.jsOff chrome
  | JsOff_Firefox => Stats.jsOff firefox
  | WarmCache_Chrome => Stats.warm chrome
  | WarmCache_Firefox => Stats.warm firefox
  | FirefoxVsChrome => Stats.overall firefox
  end.

Definition subtrahend (c : comparison) (chrome firefox : Stats.t) : Pair.t :=
  match c with
  | JsOff_Chrome => Stats.jsOn chrome
  | JsOff_Firefox => Stats.jsOn firefox
  | WarmCache_Chrome => Stats.cold chrome
  | WarmCache_Firefox => Stats.cold firefox
  | FirefoxVsChrome => Stats.overall chrome
  end.

(** ** The same functions over a store

    JavaScript passes arrays and objects by reference.  To speak of what a
    call leaves behind, the three functions are embedded a second time
    over a store of arrays and objects: an argument is a value, possibly a
    reference into the store, and every [push] and property assignment of
    the source is a write to the store. *)

Module Heap.

(** [Other] stands for a value outside the number model: the NaN of
    arithmetic on [undefined] or on an object, a concatenated string. *)
Inductive val : Type :=
| Undefined
| JNull
| JNum (x : float)
| JStr (s : string)
| Ref (l : nat)
| Other.

Inductive cell : Type :=
| Array (elems : list val)
| Object (props : list (string * val)).

Definition heap : Type := list cell.

(** A computation: it ends normally or raises, and leaves a store. *)
Definition M (A : Type) : Type := heap -> result A * heap.

Definition ret {A : Type} (a : A) : M A := fun h => (Ok a, h).

Definition throw {A : Type} (e : error) : M A := fun h => (Throw e, h).

Definition bind {A B : Type} (c : M A) (k : A -> M B) : M B :=
  fun h =>
    match c h with
    | (Ok a, h') => k a h'
    | (Throw e, h') => (Throw e, h')
    end.

Notation "x <~ c ;; k" := (bind c (fun x => k))
  (at level 61, c at next level, right associativity).

Fixpoint update (l : nat) (c : cell) (h : heap) : heap :=
  match h, l with
  | [], _ => []
  | _ :: rest, O => c :: rest
  | c0 :: rest, S l' => c0 :: update l' c rest
  end.

(** An array literal or an object literal: a new cell. *)
Definition new (c : cell) : M val :=
  fun h => (Ok (Ref (length h)), h ++ [c]).

(** [v.key], [v[key]].  Reading a property of [undefined] or [null]
    raises; a property an object does not have reads as [undefined].  The
    code reads no named property of an array or of a primitive; these read
    as [undefined] here. *)
Definition prop (v : val) (key : string) : M val :=
  fun h =>
    match v with
    | Undefined | JNull => (Throw TypeError, h)
    | Ref l =>
        match nth_error h l with
        | Some (Object props) =>
            (Ok (match get props key with Some x => x | None => Undefined end), h)
        | _ => (Ok Undefined, h)
        end
    | _ => (Ok Undefined, h)
    end.

(** [Object.entries(v)].  It raises on [undefined] and [null].  The data
    model has objects only in this place; for another value nothing is
    enumerated here.  The array of pairs that [Object.entries] makes is read
    by the loop alone and is not kept in the store. *)
Definition entries (v : val) : M (list (string * val)) :=
  fun h =>
    match v with
    | Undefined | JNull => (Throw TypeError, h)
    | Ref l =>
        match nth_error h l with
        | Some (Object props) => (Ok props, h)
        | _ => (Ok [], h)
        end
    | _ => (Ok [], h)
    end.

(** The elements of the array [v], for [v.map], [v.filter], [...v] and
    [avg(v)]; on anything but an array these raise. *)
Definition elements (v : val) : M (list val) :=
  fun h =>
    match v with
    | Ref l =>
        match nth_error h l with
        | Some (Array elems) => (Ok elems, h)
        | _ => (Throw TypeError, h)
        end
    | _ => (Throw TypeError, h)
    end.

Fixpoint map_M (f : val -> M val) (es : list val) : M (list val) :=
  match es with
  | [] => ret []
  | e :: rest => x <~ f e ;; xs <~ map_M f rest ;; ret (x :: xs)
  end.

(** [v.map(f)]: a new array. *)
Definition array_map (v : val) (f : val -> M val) : M val :=
  es <~ elements v ;; xs <~ map_M f es ;; new (Array xs).

(** [v != null] *)
Definition not_nullish (v : val) : bool :=
  match v with
  | Undefined | JNull => false
  | _ => true
  end.

(** [v.filter(p)]: a new array. *)
Definition array_filter (v : val) (p : val -> bool) : M val :=
  es <~ elements v ;; new (Array (filter p es)).

(** [v.push(...items)]: a write to the array [v]. *)
Definition push (v : val) (items : list val) : M unit :=
  fun h =>
    match v with
    | Ref l =>
        match nth_error h l with
        | Some (Array elems) => (Ok tt, update l (Array (elems ++ items)) h)
        | _ => (Throw TypeError, h)
        end
    | _ => (Throw TypeError, h)
    end.

(** [v[key] = x], [v.key = x]: a write to the object [v].  It raises on
    [undefined] and [null].  The code assigns to objects only; an assignment
    to another value writes nothing here. *)
Definition assign (v : val) (key : string) (x : val) : M unit :=
  fun h =>
    match v with
    | Undefined | JNull => (Throw TypeError, h)
    | Ref l =>
        match nth_error h l with
        | Some (Object props) => (Ok tt, update l (Object (set props key x)) h)
        | _ => (Ok tt, h)
        end
    | _ => (Ok tt, h)
    end.

Fixpoint for_of {V : Type} (items : list V) (body : V -> M unit) : M unit :=
  match items with
  | [] => ret tt
  | x :: rest => _ <~ body x ;; for_of rest body
  end.

(** The arithmetic of the code on numbers; on another operand the result is
    outside the number model.  [null], as an operand of [-], counts as 0.
    The only divisor is a length that is not 0. *)
Definition js_add (a b : val) : val :=
  match a, b with
  | JNum x, JNum y => JNum (x + y)
  | _, _ => Other
  end.

Definition js_div (a b : val) : val :=
  match a, b with
  | JNum x, JNum y => JNum (x / y)
  | _, _ => Other
  end.

Definition js_sub (a b : val) : val :=
  match a, b with
  | JNum x, JNum y => JNum (x - y)
  | JNull, JNum y => JNum (0 - y)
  | JNum x, JNull => JNum (x - 0)
  | JNull, JNull => JNum (0 - 0)
  | _, _ => Other
  end.

(** [avg(arr)], on an array. *)
Definition avg (arr : val) : M val :=
  es <~ elements arr ;;
  ret (if negb (Nat.eqb (length es) 0)
       then js_div (fold_left js_add es (JNum 0))
                   (JNum (number_of_nat (length es)))
       else JNull).

(** [cacheBuckets.cold.map(r => r.f).filter(v => v != null)] *)
Definition leaf_values (cacheBuckets : val) (cache field : string) : M val :=
  arr <~ prop cacheBuckets cache ;;
  mapped <~ array_map arr (fun r => prop r field) ;;
  array_filter mapped not_nullish.

Definition leaf_avg (cacheBuckets : val) (cache field : string) : M val :=
  vals <~ leaf_values cacheBuckets cache field ;;
  avg vals.

(** The object literal [coldMetrics]. *)
Definition coldMetrics (label : string) (cacheBuckets : val) : M val :=
  bst <~ leaf_avg cacheBuckets "cold" "browser_start_time" ;;
  f <~ leaf_avg cacheBuckets "cold" "fcp" ;;
  di <~ leaf_avg cacheBuckets "cold" "dom_interactive" ;;
  dcl <~ leaf_avg cacheBuckets "cold" "dom_content_loaded" ;;
  ld <~ leaf_avg cacheBuckets "cold" "load" ;;
  new (Object [("label", JStr label);
               ("browser_start_time", bst);
               ("fcp", f);
               ("dom_interactive", di);
               ("dom_content_loaded", dcl);
               ("load", ld)]%string).

(** The object literal [warmMetrics]. *)
Definition warmMetrics (label : string) (cacheBuckets : val) : M val :=
  f <~ leaf_avg cacheBuckets "warm" "fcp" ;;
  di <~ leaf_avg cacheBuckets "warm" "dom_interactive" ;;
  dcl <~ leaf_avg cacheBuckets "warm" "dom_content_loaded" ;;
  ld <~ leaf_avg cacheBuckets "warm" "load" ;;
  new (Object [("label", JStr label);
               ("browser_start_time", JNull);
               ("fcp", f);
               ("dom_interactive", di);
               ("dom_content_loaded", dcl);
               ("load", ld)]%string).

(** The body of the innermost loop of [calculateMetricsData]; [coldData] and
    [warmData] are the two local arrays. *)
Definition metrics_of_site (coldData warmData : val)
    (browser jsLabel url : string) (cacheBuckets : val) : M unit :=
  let label := make_label browser jsLabel url in
  c <~ coldMetrics label cacheBuckets ;;
  _ <~ push coldData [c] ;;
  w <~ warmMetrics label cacheBuckets ;;
  push warmData [w].

(** The three nested loops over a tree, the innermost body given. *)
Definition for_sites (sites : val) (body : string -> val -> M unit) : M unit :=
  urls <~ entries sites ;;
  for_of urls (fun kv => body (fst kv) (snd kv)).

Definition for_labels (jsBuckets : val) (body : string -> string -> val -> M unit)
  : M unit :=
  labels <~ entries jsBuckets ;;
  for_of labels (fun kv => for_sites (snd kv) (body (fst kv))).

Definition calculateMetricsData (data : val) : M val :=
  coldData <~ new (Array []) ;;
  warmData <~ new (Array []) ;;
  browsers <~ entries data ;;
  _ <~ for_of browsers (fun kv =>
         for_labels (snd kv) (metrics_of_site coldData warmData (fst kv))) ;;
  new (Object [("cold", coldData); ("warm", warmData)]%string).

(** [{ fcp: 0, load: 0 }] *)
Definition zero_pair : M val :=
  new (Object [("fcp", JNum 0); ("load", JNum 0)]%string).

(** [target.push(...a, ...b)] *)
Definition push_spread2 (target a b : val) : M unit :=
  xs <~ elements a ;; ys <~ elements b ;; push target (xs ++ ys).

(** [target.push(...a)] *)
Definition push_spread (target a : val) : M unit :=
  xs <~ elements a ;; push target xs.

(** [stats[browser].group.field = avg(pool)] *)
Definition store_avg (stats : val) (browser group field : string) (pool : val)
  : M unit :=
  sb <~ prop stats browser ;;
  g <~ prop sb group ;;
  a <~ avg pool ;;
  assign g field a.

(** The ten local arrays of one browser. *)
Record pools : Type := make_pools {
  allFcps : val;
  allLoads : val;
  jsOnFcps : val;
  jsOnLoads : val;
  jsOffFcps : val;
  jsOffLoads : val;
  coldFcps : val;
  coldLoads : val;
  warmFcps : val;
  warmLoads : val
}.

Definition new_pools : M pools :=
  a1 <~ new (Array []) ;;
  a2 <~ new (Array []) ;;
  a3 <~ new (Array []) ;;
  a4 <~ new (Array []) ;;
  a5 <~ new (Array []) ;;
  a6 <~ new (Array []) ;;
  a7 <~ new (Array []) ;;
  a8 <~ new (Array []) ;;
  a9 <~ new (Array []) ;;
  a10 <~ new (Array []) ;;
  ret (make_pools a1 a2 a3 a4 a5 a6 a7 a8 a9 a10).

(** The body of the inner loop of [calculateCumulativeStats]. *)
Definition collect_site (p : pools) (jsLabel _url : string) (cacheBuckets : val)
  : M unit :=
  coldFcpVals <~ leaf_values cacheBuckets "cold" "fcp" ;;
  coldLoadVals <~ leaf_values cacheBuckets "cold" "load" ;;
  warmFcpVals <~ leaf_values cacheBuckets "warm" "fcp" ;;
  warmLoadVals <~ leaf_values cacheBuckets "warm" "load" ;;
  _ <~ push_spread2 (allFcps p) coldFcpVals warmFcpVals ;;
  _ <~ push_spread2 (allLoads p) coldLoadVals warmLoadVals ;;
  _ <~ push_spread (coldFcps p) coldFcpVals ;;
  _ <~ push_spread (coldLoads p) coldLoadVals ;;
  _ <~ push_spread (warmFcps p) warmFcpVals ;;
  _ <~ push_spread (warmLoads p) warmLoadVals ;;
  if String.eqb jsLabel "JS_on"
  then (_ <~ push_spread2 (jsOnFcps p) coldFcpVals warmFcpVals ;;
        push_spread2 (jsOnLoads p) coldLoadVals warmLoadVals)
  else (_ <~ push_spread2 (jsOffFcps p) coldFcpVals warmFcpVals ;;
        push_spread2 (jsOffLoads p) coldLoadVals warmLoadVals).

(** The ten assignments after the loops. *)
Definition store_averages (stats : val) (browser : string) (p : pools) : M unit :=
  _ <~ store_avg stats browser "overall" "fcp" (allFcps p) ;;
  _ <~ store_avg stats browser "overall" "load" (allLoads p) ;;
  _ <~ store_avg stats browser "jsOn" "fcp" (jsOnFcps p) ;;
  _ <~ store_avg stats browser "jsOn" "load" (jsOnLoads p) ;;
  _ <~ store_avg stats browser "jsOff" "fcp" (jsOffFcps p) ;;
  _ <~ store_avg stats browser "jsOff" "load" (jsOffLoads p) ;;
  _ <~ store_avg stats browser "cold" "fcp" (coldFcps p) ;;
  _ <~ store_avg stats browser "cold" "load" (coldLoads p) ;;
  _ <~ store_avg stats browser "warm" "fcp" (warmFcps p) ;;
  store_avg stats browser "warm" "load" (warmLoads p).

(** [stats[browser] = { overall: { fcp: 0, load: 0 }, ... }] *)
Definition init_browser (stats : val) (browser : string) : M unit :=
  overall <~ zero_pair ;;
  jsOn <~ zero_pair ;;
  jsOff <~ zero_pair ;;
  cold <~ zero_pair ;;
  warm <~ zero_pair ;;
  sb <~ new (Object [("overall", overall); ("jsOn", jsOn); ("jsOff", jsOff);
                     ("cold", cold); ("warm", warm)]%string) ;;
  assign stats browser sb.

(** The body of the outer loop. *)
Definition stats_of_browser (stats : val) (browser : string) (jsBuckets : val)
  : M unit :=
  _ <~ init_browser stats browser ;;
  p <~ new_pools ;;
  _ <~ for_labels jsBuckets (collect_site p) ;;
  store_averages stats browser p.

Definition calculateCumulativeStats (data : val) : M val :=
  stats <~ new (Object []) ;;
  browsers <~ entries data ;;
  _ <~ for_of browsers (fun kv => stats_of_browser stats (fst kv) (snd kv)) ;;
  ret stats.

(** [stats.b.g1.field - stats.b'.g2.field] *)
Definition difference (stats : val) (b g1 b' g2 field : string) : M val :=
  sb <~ prop stats b ;;
  p <~ prop sb g1 ;;
  x <~ prop p field ;;
  sb' <~ prop stats b' ;;
  p' <~ prop sb' g2 ;;
  y <~ prop p' field ;;
  ret (js_sub x y).

(** [{ fcp: stats.b.g1.fcp - stats.b'.g2.fcp, load: ... }] *)
Definition difference_pair (stats : val) (b g1 b' g2 : string) : M val :=
  f <~ difference stats b g1 b' g2 "fcp" ;;
  l <~ difference stats b g1 b' g2 "load" ;;
  new (Object [("fcp", f); ("load", l)]%string).

Definition calculateDeltas (stats : val) : M val :=
  jc <~ difference_pair stats "Chrome" "jsOff" "Chrome" "jsOn" ;;
  jf <~ difference_pair stats "Firefox" "jsOff" "Firefox" "jsOn" ;;
  jsOff <~ new (Object [("Chrome", jc); ("Firefox", jf)]%string) ;;
  wc <~ difference_pair stats "Chrome" "warm" "Chrome" "cold" ;;
  wf <~ difference_pair stats "Firefox" "warm" "Firefox" "cold" ;;
  warmCache <~ new (Object [("Chrome", wc); ("Firefox", wf)]%string) ;;
  fvc <~ difference_pair stats "Firefox" "overall" "Chrome" "overall" ;;
  new (Object [("jsOff", jsOff); ("warmCache", warmCache);
               ("firefoxVsChrome", fvc)]%string).

End Heap.

(** ** The words of the specification about trees *)

(** A leaf: one (browser, JS-state, URL) combination with its two trial
    sequences. *)
Record Leaf : Type := mkLeaf {
  leaf_browser : string;
  leaf_jsLabel : string;
  leaf_url : string;
  leaf_buckets : Buckets.t
}.

Definition site_leaves (browser jsLabel : string) (sites : Sites) : list Leaf :=
  flat_map (fun kv => [mkLeaf browser jsLabel (fst kv) (snd kv)]) sites.

Definition browser_leaves (browser : string) (jsBuckets : JsBuckets) : list Leaf :=
  flat_map (fun kv => site_leaves browser (fst kv) (snd kv)) jsBuckets.

(** The leaves of a tree, in the order the loops visit them. *)
Definition leaves (data : ResultTree) : list Leaf :=
  flat_map (fun kv => browser_leaves (fst kv) (snd kv)) data.

(** A leaf has both its cache-state keys. *)
Definition complete (l : Leaf) : Prop :=
  Buckets.cold (leaf_buckets l) <> None /\ Buckets.warm (leaf_buckets l) <> None.

Definition incomplete (l : Leaf) : Prop :=
  Buckets.cold (leaf_buckets l) = None \/ Buckets.warm (leaf_buckets l) = None.

Definition samples (o : option (list Sample.t)) : list Sample.t :=
  match o with
  | Some rs => rs
  | None => []
  end.

Definition cold_of (l : Leaf) : list Sample.t := samples (Buckets.cold (leaf_buckets l)).
Definition warm_of (l : Leaf) : list Sample.t := samples (Buckets.warm (leaf_buckets l)).

(** The five metric fields. *)
Inductive metric : Type :=
| Browser_start_time | Fcp | Dom_interactive | Dom_content_loaded | Load.

Definition sample_field (m : metric) : Sample.t -> value :=
  match m with
  | Browser_start_time => Sample.browser_start_time
  | Fcp => Sample.fcp
  | Dom_interactive => Sample.dom_interactive
  | Dom_content_loaded => Sample.dom_content_loaded
  | Load => Sample.load
  end.

Definition entry_field (m : metric) : Entry.t -> value :=
  match m with
  | Browser_start_time => Entry.browser_start_time
  | Fcp => Entry.fcp
  | Dom_interactive => Entry.dom_interactive
  | Dom_content_loaded => Entry.dom_content_loaded
  | Load => Entry.load
  end.

(** The mean of a field over the samples that have it: the samples whose
    field is [null] are left out of the sum and of the count, and without any
    sample left the mean is [null]. *)
Definition has_field (f : Sample.t -> value) (r : Sample.t) : bool :=
  negb (is_null (f r)).

(** The numbers of the field, of the samples that have it, in the order of
    the samples. *)
Definition present (f : Sample.t -> value) (rs : list Sample.t) : list float :=
  map (fun r => ToNumber (f r)) (filter (has_field f) rs).

Definition mean_of_present (f : Sample.t -> value) (rs : list Sample.t) : value :=
  mean_value (present f rs).

(** The entries the loop body makes of a leaf whose keys are both there. *)
Definition leaf_label (l : Leaf) : string :=
  make_label (leaf_browser l) (leaf_jsLabel l) (leaf_url l).

Definition values_of (f : Sample.t -> value) (rs : list Sample.t) : list float :=
  non_null (map f rs).

Definition cold_entry (l : Leaf) : Entry.t :=
  Entry.make (leaf_label l)
    (avg (values_of Sample.browser_start_time (cold_of l)))
    (avg (values_of Sample.fcp (cold_of l)))
    (avg (values_of Sample.dom_interactive (cold_of l)))
    (avg (values_of Sample.dom_content_loaded (cold_of l)))
    (avg (values_of Sample.load (cold_of l))).

Definition warm_entry (l : Leaf) : Entry.t :=
  Entry.make (leaf_label l)
    Null
    (avg (values_of Sample.fcp (warm_of l)))
    (avg (values_of Sample.dom_interactive (warm_of l)))
    (avg (values_of Sample.dom_content_loaded (warm_of l)))
    (avg (values_of Sample.load (warm_of l))).

Definition extend_chart (st : Chart.t) (ls : list Leaf) : Chart.t :=
  Chart.make (Chart.cold st ++ map cold_entry ls)
             (Chart.warm st ++ map warm_entry ls).

(** The sample pools of a sequence of leaves. *)
Definition all_samples (ls : list Leaf) : list Sample.t :=
  flat_map (fun l => cold_of l ++ warm_of l) ls.

Definition cold_samples (ls : list Leaf) : list Sample.t := flat_map cold_of ls.

Definition warm_samples (ls : list Leaf) : list Sample.t := flat_map warm_of ls.

Definition is_js_on (l : Leaf) : bool := String.eqb (leaf_jsLabel l) "JS_on".

Definition js_on_samples (ls : list Leaf) : list Sample.t :=
  all_samples (filter is_js_on ls).

Definition js_off_samples (ls : list Leaf) : list Sample.t :=
  all_samples (filter (fun l => negb (is_js_on l)) ls).

Definition extend_pools (p : Pools.t) (ls : list Leaf) : Pools.t :=
  Pools.make
    (Pools.allFcps p ++ values_of Sample.fcp (all_samples ls))
    (Pools.allLoads p ++ values_of Sample.load (all_samples ls))
    (Pools.jsOnFcps p ++ values_of Sample.fcp (js_on_samples ls))
    (Pools.jsOnLoads p ++ values_of Sample.load (js_on_samples ls))
    (Pools.jsOffFcps p ++ values_of Sample.fcp (js_off_samples ls))
    (Pools.jsOffLoads p ++ values_of Sample.load (js_off_samples ls))
    (Pools.coldFcps p ++ values_of Sample.fcp (cold_samples ls))
    (Pools.coldLoads p ++ values_of Sample.load (cold_samples ls))
    (Pools.warmFcps p ++ values_of Sample.fcp (warm_samples ls))
    (Pools.warmLoads p ++ values_of Sample.load (warm_samples ls)).

(** What [calculateCumulativeStats] stores for a browser whose leaves are
    complete. *)
Definition browser_summary (browser : string) (jsBuckets : JsBuckets) : Stats.t :=
  stats_of_pools (extend_pools Pools.empty (browser_leaves browser jsBuckets)).

Definition record_browser (stats : CumulativeStats) (kv : string * JsBuckets)
  : CumulativeStats :=
  set stats (fst kv) (browser_summary (fst kv) (snd kv)).

(** The raw field behind each of the two cumulative metrics. *)
Definition raw (m : metric2) : Sample.t -> value :=
  match m with FCP => Sample.fcp | LOAD => Sample.load end.

(** ** Relations between trees and between results *)










(** ** Writes and the cells they may reach *)

(** A value is fresh above [n] when it is not a reference below [n]. *)
Definition fresh (n : nat) (v : Heap.val) : Prop :=
  match v with
  | Heap.Ref l => (n <= l)%nat
  | _ => True
  end.

(** The objects made above [n] hold no reference below [n]. *)
Definition closed_above (n : nat) (h : Heap.heap) : Prop :=
  forall l props,
    (n <= l)%nat -> nth_error h l = Some (Heap.Object props) ->
    Forall (fun kv => fresh n (snd kv)) props.

(** [frame_safe n c Q]: run in a store of at least [n] cells, [c] leaves the
    first [n] cells as they are, removes no cell, and a value it returns
    satisfies [Q]. *)
Definition frame_safe (n : nat) {A : Type} (c : Heap.M A) (Q : A -> Prop) : Prop :=
  forall h,
    (n <= length h)%nat -> closed_above n h ->
    firstn n (snd (c h)) = firstn n h
    /\ (length h <= length (snd (c h)))%nat
    /\ closed_above n (snd (c h))
    /\ forall a, fst (c h) = Ok a -> Q a.

Definition anything {A : Type} (_ : A) : Prop := True.

Definition fresh_pools (n : nat) (p : Heap.pools) : Prop :=
  fresh n (Heap.allFcps p) /\ fresh n (Heap.allLoads p)
  /\ fresh n (Heap.jsOnFcps p) /\ fresh n (Heap.jsOnLoads p)
  /\ fresh n (Heap.jsOffFcps p) /\ fresh n (Heap.jsOffLoads p)
  /\ fresh n (Heap.coldFcps p) /\ fresh n (Heap.coldLoads p)
  /\ fresh n (Heap.warmFcps p) /\ fresh n (Heap.warmLoads p).

(** ** Values of the data model in the store *)

Definition as_val (x : value) : Heap.val :=
  match x with
  | Null => Heap.JNull
  | Num q => Heap.JNum q
  end.

(** What a property reads as. *)
Definition lookup (props : list (string * Heap.val)) (key : string) : Heap.val :=
  match get props key with
  | Some x => x
  | None => Heap.Undefined
  end.

(** A raw field: a number, or [null] or nothing at all. *)
Definition field_val (x : Heap.val) (y : value) : Prop :=
  match y with
  | Num q => x = Heap.JNum q
  | Null => x = Heap.JNull \/ x = Heap.Undefined
  end.

Definition field_name (m : metric) : string :=
  match m with
  | Browser_start_time => "browser_start_time"
  | Fcp => "fcp"
  | Dom_interactive => "dom_interactive"
  | Dom_content_loaded => "dom_content_loaded"
  | Load => "load"
  end.

(** [repr_x h v x]: in the store [h], the value [v] is the JavaScript value
    that the data [x] stands for. *)
Definition repr_sample (h : Heap.heap) (v : Heap.val) (r : Sample.t) : Prop :=
  exists l props,
    v = Heap.Ref l /\ nth_error h l = Some (Heap.Object props)
    /\ forall m, field_val (lookup props (field_name m)) (sample_field m r).

Definition repr_samples (h : Heap.heap) (v : Heap.val) (rs : list Sample.t) : Prop :=
  exists l elems,
    v = Heap.Ref l /\ nth_error h l = Some (Heap.Array elems)
    /\ Forall2 (repr_sample h) elems rs.

Definition repr_cache (h : Heap.heap) (v : Heap.val) (o : option (list Sample.t))
  : Prop :=
  match o with
  | Some rs => repr_samples h v rs
  | None => v = Heap.Undefined \/ v = Heap.JNull
  end.

Definition repr_buckets (h : Heap.heap) (v : Heap.val) (b : Buckets.t) : Prop :=
  exists l props,
    v = Heap.Ref l /\ nth_error h l = Some (Heap.Object props)
    /\ repr_cache h (lookup props "cold") (Buckets.cold b)
    /\ repr_cache h (lookup props "warm") (Buckets.warm b).

Definition same_entries {V : Type} (R : Heap.val -> V -> Prop)
    (props : list (string * Heap.val)) (o : object V) : Prop :=
  Forall2 (fun kv kv' => fst kv = fst kv' /\ R (snd kv) (snd kv')) props o.

Definition repr_object {V : Type} (R : Heap.val -> V -> Prop) (h : Heap.heap)
    (v : Heap.val) (o : object V) : Prop :=
  exists l props,
    v = Heap.Ref l /\ nth_error h l = Some (Heap.Object props)
    /\ same_entries R props o.

Definition repr_sites (h : Heap.heap) : Heap.val -> Sites -> Prop :=
  repr_object (repr_buckets h) h.

Definition repr_jsBuckets (h : Heap.heap) : Heap.val -> JsBuckets -> Prop :=
  repr_object (repr_sites h) h.

Definition repr_tree (h : Heap.heap) : Heap.val -> ResultTree -> Prop :=
  repr_object (repr_jsBuckets h) h.

Definition entry_cell (e : Entry.t) : Heap.cell :=
  Heap.Object [("label", Heap.JStr (Entry.label e));
               ("browser_start_time", as_val (Entry.browser_start_time e));
               ("fcp", as_val (Entry.fcp e));
               ("dom_interactive", as_val (Entry.dom_interactive e));
               ("dom_content_loaded", as_val (Entry.dom_content_loaded e));
               ("load", as_val (Entry.load e))]%string.

Definition repr_entry (h : Heap.heap) (v : Heap.val) (e : Entry.t) : Prop :=
  exists l, v = Heap.Ref l /\ nth_error h l = Some (entry_cell e).

Definition repr_chart (h : Heap.heap) (v : Heap.val) (c : Chart.t) : Prop :=
  exists l lc lw cs ws,
    v = Heap.Ref l
    /\ nth_error h l = Some (Heap.Object [("cold", Heap.Ref lc);
                                          ("warm", Heap.Ref lw)]%string)
    /\ nth_error h lc = Some (Heap.Array cs)
    /\ nth_error h lw = Some (Heap.Array ws)
    /\ Forall2 (repr_entry h) cs (Chart.cold c)
    /\ Forall2 (repr_entry h) ws (Chart.warm c).

Definition metric2_name (m : metric2) : string :=
  match m with FCP => "fcp" | LOAD => "load" end.

(** The five groups of a browser's statistics. *)
Inductive group : Type := Overall | JsOn | JsOff | Cold | Warm.

Definition group_name (g : group) : string :=
  match g with
  | Overall => "overall"
  | JsOn => "jsOn"
  | JsOff => "jsOff"
  | Cold => "cold"
  | Warm => "warm"
  end.

Definition group_pair (g : group) : Stats.t -> Pair.t :=
  match g with
  | Overall => Stats.overall
  | JsOn => Stats.jsOn
  | JsOff => Stats.jsOff
  | Cold => Stats.cold
  | Warm => Stats.warm
  end.

Definition pair_cell (p : Pair.t) : Heap.cell :=
  Heap.Object [("fcp", as_val (Pair.fcp p)); ("load", as_val (Pair.load p))]%string.

Definition repr_pair (h : Heap.heap) (v : Heap.val) (p : Pair.t) : Prop :=
  exists l props,
    v = Heap.Ref l /\ nth_error h l = Some (Heap.Object props)
    /\ forall m, lookup props (metric2_name m) = as_val (pair_field m p).

Definition repr_stats (h : Heap.heap) (v : Heap.val) (s : Stats.t) : Prop :=
  exists l props,
    v = Heap.Ref l /\ nth_error h l = Some (Heap.Object props)
    /\ forall g, repr_pair h (lookup props (group_name g)) (group_pair g s).

Definition repr_cumulative (h : Heap.heap) : Heap.val -> CumulativeStats -> Prop :=
  repr_object (repr_stats h) h.

Definition repr_perBrowser (h : Heap.heap) (v : Heap.val) (d : Deltas.perBrowser)
  : Prop :=
  exists l props,
    v = Heap.Ref l /\ nth_error h l = Some (Heap.Object props)
    /\ repr_pair h (lookup props "Chrome") (Deltas.Chrome d)
    /\ repr_pair h (lookup props "Firefox") (Deltas.Firefox d).

Definition repr_deltas (h : Heap.heap) (v : Heap.val) (d : Deltas.t) : Prop :=
  exists l props,
    v = Heap.Ref l /\ nth_error h l = Some (Heap.Object props)
    /\ repr_perBrowser h (lookup props "jsOff") (Deltas.jsOff d)
    /\ repr_perBrowser h (lookup props "warmCache") (Deltas.warmCache d)
    /\ repr_pair h (lookup props "firefoxVsChrome") (Deltas.firefoxVsChrome d).

(** The outcome of a run over the store against the outcome of the function
    on the data: both raise, or both return and the returned value stands
    for the returned data in the store the run leaves. *)
Definition outcome_repr {A : Type} (R : Heap.heap -> Heap.val -> A -> Prop)
    (run : result Heap.val * Heap.heap) (r : result A) : Prop :=
  match r with
  | Ok a => exists v, fst run = Ok v /\ R (snd run) v a
  | Throw e => fst run = Throw e
  end.

(** Every cell of [h] is in [h'], as it is. *)
Definition extends (h h' : Heap.heap) : Prop :=
  forall l c, nth_error h l = Some c -> nth_error h' l = Some c.

(** Every cell of [h] outside [W] is in [h'], as it is. *)
Definition keeps (W : list nat) (h h' : Heap.heap) : Prop :=
  (length h <= length h')%nat
  /\ forall l c, ~ In l W -> nth_error h l = Some c -> nth_error h' l = Some c.

(** The entry [e] is in the store at a place after [n]. *)
Definition entry_above (n : nat) (h : Heap.heap) (v : Heap.val) (e : Entry.t)
  : Prop :=
  exists l, v = Heap.Ref l /\ (n < l)%nat /\ nth_error h l = Some (entry_cell e).

(** What holds between the store and the loop state of [calculateMetricsData]
    while the loops run over a tree given in the store [h0]: the two local
    arrays are the two cells made first, and they list the entries made so
    far. *)
Definition chart_inv (h0 h : Heap.heap) (st : Chart.t) : Prop :=
  extends h0 h
  /\ exists cs ws,
       nth_error h (length h0) = Some (Heap.Array cs)
       /\ nth_error h (S (length h0)) = Some (Heap.Array ws)
       /\ Forall2 (entry_above (S (length h0)) h) cs (Chart.cold st)
       /\ Forall2 (entry_above (S (length h0)) h) ws (Chart.warm st).

(** A step of a loop over the store against the step on the loop state:
    both raise, or both go on and [Inv] holds again. *)
Definition run_sim {S : Type} (Inv : Heap.heap -> S -> Prop)
    (run : result unit * Heap.heap) (r : result S) : Prop :=
  match r with
  | Ok st' => fst run = Ok tt /\ Inv (snd run) st'
  | Throw e => fst run = Throw e
  end.

(** The cell at [l] is an array of the numbers [qs]. *)
Definition holds_numbers (h : Heap.heap) (l : nat) (qs : list float) : Prop :=
  nth_error h l = Some (Heap.Array (map Heap.JNum qs)).

(** Ten arrays made one after the other, the first at [m]. *)
Definition pools_at (m : nat) : Heap.pools :=
  Heap.make_pools
    (Heap.Ref m) (Heap.Ref (m + 1)) (Heap.Ref (m + 2)) (Heap.Ref (m + 3))
    (Heap.Ref (m + 4)) (Heap.Ref (m + 5)) (Heap.Ref (m + 6)) (Heap.Ref (m + 7))
    (Heap.Ref (m + 8)) (Heap.Ref (m + 9)).

(** What holds between the store and the ten pools while the inner loops of
    [calculateCumulativeStats] run: the ten local arrays, made at [m], hold
    the pools, and since the loops began (in the store [hs]) nothing else
    that was there has changed. *)
Definition pools_inv (h0 hs : Heap.heap) (m : nat) (h : Heap.heap) (p : Pools.t)
  : Prop :=
  extends h0 h
  /\ keeps (seq m 10) hs h
  /\ (length h0 <= m)%nat
  /\ holds_numbers h m (Pools.allFcps p)
  /\ holds_numbers h (m + 1) (Pools.allLoads p)
  /\ holds_numbers h (m + 2) (Pools.jsOnFcps p)
  /\ holds_numbers h (m + 3) (Pools.jsOnLoads p)
  /\ holds_numbers h (m + 4) (Pools.jsOffFcps p)
  /\ holds_numbers h (m + 5) (Pools.jsOffLoads p)
  /\ holds_numbers h (m + 6) (Pools.coldFcps p)
  /\ holds_numbers h (m + 7) (Pools.coldLoads p)
  /\ holds_numbers h (m + 8) (Pools.warmFcps p)
  /\ holds_numbers h (m + 9) (Pools.warmLoads p).

(** The pair [p], the statistics [s] are in the store at places after [n]. *)
Definition pair_above (n : nat) (h : Heap.heap) (v : Heap.val) (p : Pair.t) : Prop :=
  exists l props,
    v = Heap.Ref l /\ (n < l)%nat /\ nth_error h l = Some (Heap.Object props)
    /\ forall m, lookup props (metric2_name m) = as_val (pair_field m p).

Definition stats_above (n : nat) (h : Heap.heap) (v : Heap.val) (s : Stats.t)
  : Prop :=
  exists l props,
    v = Heap.Ref l /\ (n < l)%nat /\ nth_error h l = Some (Heap.Object props)
    /\ forall g, pair_above n h (lookup props (group_name g)) (group_pair g s).

(** What holds between the store and the loop state of
    [calculateCumulativeStats] between two browsers: the object [stats] is
    the cell made first and has the statistics of the browsers done. *)
Definition stats_inv (h0 h : Heap.heap) (stats : CumulativeStats) : Prop :=
  extends h0 h
  /\ exists props,
       nth_error h (length h0) = Some (Heap.Object props)
       /\ same_entries (stats_above (length h0) h) props stats.

(** [{ fcp: 0, load: 0 }] and the object of the five groups made at [n]. *)
Definition zero_cell : Heap.cell :=
  Heap.Object [("fcp", Heap.JNum 0); ("load", Heap.JNum 0)]%string.

Definition groups_cell (n : nat) : Heap.cell :=
  Heap.Object [("overall", Heap.Ref n); ("jsOn", Heap.Ref (n + 1));
               ("jsOff", Heap.Ref (n + 2)); ("cold", Heap.Ref (n + 3));
               ("warm", Heap.Ref (n + 4))]%string.

(** ** Example data *)

(** The specification's example: Chrome's cold FCP mean is 1000 and no warm
    sample was collected. *)
Definition no_data : Pair.t := Pair.make Null Null.

Definition chrome_without_warm : Stats.t :=
  Stats.make (Pair.make (Num 1000) (Num 2000))
             (Pair.make (Num 1000) (Num 2000))
             no_data
             (Pair.make (Num 1000) (Num 2000))
             no_data.

Definition stats_without_warm : CumulativeStats :=
  [("Chrome"%string, chrome_without_warm);
   ("Firefox"%string, chrome_without_warm)].

Definition chrome_numbers : Stats.t :=
  Stats.make (Pair.make (Num 500) (Num 900))
             (Pair.make (Num 520) (Num 950))
             (Pair.make (Num 480) (Num 850))
             (Pair.make (Num 700) (Num 1200))
             (Pair.make (Num 300) (Num 600)).

Definition firefox_numbers : Stats.t :=
  Stats.make (Pair.make (Num 600) (Num 1000))
             (Pair.make (Num 640) (Num 1100))
             (Pair.make (Num 560) (Num 900))
             (Pair.make (Num 800) (Num 1300))
             (Pair.make (Num 400) (Num 700)).

Definition stats_numbers : CumulativeStats :=
  [("Chrome"%string, chrome_numbers); ("Firefox"%string, firefox_numbers)].

(** A trial with the given FCP and load, started in 40 ms. *)
Definition trial (f l : value) : Sample.t :=
  Sample.make (Num 40) f (Num 10) (Num 20) l.

(** The specification's scenario: cold FCP samples 100, 200, null, 300 and
    warm FCP samples 50, 60. *)
Definition example_buckets : Buckets.t :=
  Buckets.make
    (Some [trial (Num 100) (Num 900); trial (Num 200) (Num 950);
           trial Null Null; trial (Num 300) (Num 1000)])
    (Some [trial (Num 50) (Num 400); trial (Num 60) (Num 420)]).

Definition firefox_buckets : Buckets.t :=
  Buckets.make (Some [trial (Num 150) (Num 800)]) (Some [trial (Num 70) (Num 300)]).

Definition example_tree : ResultTree :=
  [("Chrome"%string,
    [("JS_on"%string, [("https://example.com/"%string, example_buckets)]);
     ("JS_off"%string, [("https://example.com/"%string, firefox_buckets)])]);
   ("Firefox"%string,
    [("JS_on"%string, [("https://example.com/"%string, firefox_buckets)]);
     ("JS_off"%string, [("https://example.com/"%string, firefox_buckets)])])].


Definition fractional_buckets_reordered : Buckets.t :=
  Buckets.make
    (Some [trial (Num 412.3) (Num 900); trial (Num 398.1) (Num 900);
           trial (Num 420.9) (Num 900); trial (Num 405.7) (Num 900)])
    (Some [trial (Num 50) (Num 400)]).


Definition fractional_tree_reordered : ResultTree :=
  [("Chrome"%string,
    [("JS_on"%string,
      [("https://example.com/"%string, fractional_buckets_reordered)])])].

(** Two sites with one cold and one warm trial each. *)
Definition two_sites_tree : ResultTree :=
  [("Chrome"%string,
    [("JS_on"%string,
      [("https://example.com/"%string,
        Buckets.make (Some [trial (Num 372.2) (Num 900)])
                     (Some [trial (Num 182.2) (Num 400)]));
       ("https://example.org/"%string,
        Buckets.make (Some [trial (Num 2523.7) (Num 900)])
                     (Some [trial (Num 1355) (Num 400)]))])])].

(** The same tree without its Firefox key and without Chrome's JS_off key. *)
Definition tree_without_firefox : ResultTree :=
  [("Chrome"%string,
    [("JS_on"%string, [("https://example.com/"%string, example_buckets)])])].

(** A site whose warm key is missing. *)
Definition tree_without_warm : ResultTree :=
  [("Chrome"%string,
    [("JS_on"%string,
      [("https://example.com/"%string,
        Buckets.make (Some [trial (Num 100) (Num 900)]) None)])])].

(** Cold FCP samples 100, 200, 300 and warm FCP samples 400, 500: pools of
    unequal size. *)
Definition unequal_pools_tree : ResultTree :=
  [("Chrome"%string,
    [("JS_on"%string,
      [("https://example.com/"%string,
        Buckets.make
          (Some [trial (Num 100) (Num 1); trial (Num 200) (Num 1);
                 trial (Num 300) (Num 1)])
          (Some [trial (Num 400) (Num 1); trial (Num 500) (Num 1)]))])])].

(** A store with a tree of one leaf: a cold trial, and a warm trial without
    browser_start_time and with a [null] dom_interactive. *)
Definition example_store : Heap.heap :=
  [Heap.Object [("browser_start_time", Heap.JNum 40); ("fcp", Heap.JNum 100);
                ("dom_interactive", Heap.JNum 10);
                ("dom_content_loaded", Heap.JNum 20);
                ("load", Heap.JNum 900)]%string;
   Heap.Object [("fcp", Heap.JNum 50); ("dom_interactive", Heap.JNull);
                ("dom_content_loaded", Heap.JNum 20);
                ("load", Heap.JNum 400)]%string;
   Heap.Array [Heap.Ref 0];
   Heap.Array [Heap.Ref 1];
   Heap.Object [("cold", Heap.Ref 2); ("warm", Heap.Ref 3)]%string;
   Heap.Object [("https://example.com/", Heap.Ref 4)]%string;
   Heap.Object [("JS_on", Heap.Ref 5)]%string;
   Heap.Object [("Chrome", Heap.Ref 6)]%string].

Definition example_store_tree : ResultTree :=
  [("Chrome"%string,
    [("JS_on"%string,
      [("https://example.com/"%string,
        Buckets.make
          (Some [Sample.make (Num 40) (Num 100) (Num 10) (Num 20) (Num 900)])
          (Some [Sample.make Null (Num 50) Null (Num 20) (Num 400)]))])])].

(** A store with the statistics [stats_numbers]. *)
Definition stats_store : Heap.heap :=
  [pair_cell (Stats.overall chrome_numbers); pair_cell (Stats.jsOn chrome_numbers);
   pair_cell (Stats.jsOff chrome_numbers); pair_cell (Stats.cold chrome_numbers);
   pair_cell (Stats.warm chrome_numbers); groups_cell 0;
   pair_cell (Stats.overall firefox_numbers); pair_cell (Stats.jsOn firefox_numbers);
   pair_cell (Stats.jsOff firefox_numbers); pair_cell (Stats.cold firefox_numbers);
   pair_cell (Stats.warm firefox_numbers); groups_cell 6;
   Heap.Object [("Chrome", Heap.Ref 5); ("Firefox", Heap.Ref 11)]%string].

(** ** Further words about the code

    As everywhere in this file an object is the list of its entries: its
    keys are taken to be ordinary property names, which JavaScript
    enumerates in the order of their creation.  The browser names, the two
    JS-state labels and every URL with a scheme are such names; a key that
    is the decimal form of an array index, or [__proto__], is not. *)

(** An ordinary property name: not [__proto__], an assignment to which sets
    the prototype of the object and makes no entry, and not made of digits
    only, as the decimal form of an array index is. *)
Definition is_digit (c : ascii) : bool :=
  ((48 <=? nat_of_ascii c)%nat && (nat_of_ascii c <=? 57)%nat)%bool.

Fixpoint all_digits (s : string) : bool :=
  match s with
  | EmptyString => true
  | String c s' => (is_digit c && all_digits s')%bool
  end.

Definition ordinary_name (k : string) : Prop :=
  k <> "__proto__"%string /\ (k = EmptyString \/ all_digits k = false).

(** The character [c] occurs in [s]. *)
Fixpoint has_char (c : ascii) (s : string) : bool :=
  match s with
  | EmptyString => false
  | String d s' => if Ascii.eqb d c then true else has_char c s'
  end.

(** The pattern [pat] occurs in [s]. *)
Fixpoint occurs (pat s : string) : bool :=
  if String.prefix pat s then true
  else match s with
       | EmptyString => false
       | String _ s' => occurs pat s'
       end.

(** *** generateHtml

    [generateHtml] returns one template literal: fixed text with holes.  The
    page is taken here as what fills the holes, in the order of the
    template; the fixed text, [toFixed]'s digits and [JSON.stringify]'s
    text are not represented. *)

Definition URLS : list string :=
  ["https://youtube.com/"; "https://github.com/"; "https://stackoverflow.com/";
   "https://developer.mozilla.org/"]%string.

Definition ITERATIONS : nat := 5.

(** The relational [<]: both operands go through [ToNumber]. *)
Definition js_lt (a b : value) : bool :=
  (ToNumber a <? ToNumber b)%float.

(** [d < 0 ? 'positive' : 'negative'] *)
Definition delta_class (d : value) : string :=
  if js_lt d (Num 0) then "positive"%string else "negative"%string.

(** One cell of the delta table: its class and the number whose [toFixed(0)]
    is its text. *)
Module Cell.
Record t : Type := make {
  class : string;
  number : float
}.
End Cell.

(** [<td class="${d < 0 ? 'positive' : 'negative'}">${d.toFixed(0)}</td>]:
    the class is evaluated first and raises nothing; [d.toFixed] on [null]
    is a property access on [null]. *)
Definition delta_cell (d : value) : result Cell.t :=
  let class := delta_class d in
  match d with
  | Num q => Ok (Cell.make class q)
  | Null => Throw TypeError
  end.

Module Page.
Record t : Type := make {
  iterations : nat;
  jsOff_row : list Cell.t;
  warmCache_row : list Cell.t;
  firefoxVsChrome_row : list Cell.t;
  metricsData : Chart.t;
  cumulativeStats : CumulativeStats
}.
End Page.

Definition generateHtml (data : ResultTree) : result Page.t :=
  metricsData <- calculateMetricsData data ;;
  cumulativeStats <- calculateCumulativeStats data ;;
  deltas <- calculateDeltas cumulativeStats ;;
  a1 <- delta_cell (Pair.fcp (Deltas.Chrome (Deltas.jsOff deltas))) ;;
  a2 <- delta_cell (Pair.fcp (Deltas.Firefox (Deltas.jsOff deltas))) ;;
  a3 <- delta_cell (Pair.load (Deltas.Chrome (Deltas.jsOff deltas))) ;;
  a4 <- delta_cell (Pair.load (Deltas.Firefox (Deltas.jsOff deltas))) ;;
  b1 <- delta_cell (Pair.fcp (Deltas.Chrome (Deltas.warmCache deltas))) ;;
  b2 <- delta_cell (Pair.fcp (Deltas.Firefox (Deltas.warmCache deltas))) ;;
  b3 <- delta_cell (Pair.load (Deltas.Chrome (Deltas.warmCache deltas))) ;;
  b4 <- delta_cell (Pair.load (Deltas.Firefox (Deltas.warmCache deltas))) ;;
  c1 <- delta_cell (Pair.fcp (Deltas.firefoxVsChrome deltas)) ;;
  c2 <- delta_cell (Pair.load (Deltas.firefoxVsChrome deltas)) ;;
  Ok (Page.make ITERATIONS [a1; a2; a3; a4] [b1; b2; b3; b4] [c1; c2]
        metricsData cumulativeStats).

(** The cells of a page, row after row. *)
Definition cells (page : Page.t) : list Cell.t :=
  Page.jsOff_row page ++ Page.warmCache_row page
  ++ Page.firefoxVsChrome_row page.

(** The cell of each comparison and metric. *)
Definition cell_of (c : comparison) (m : metric2) (page : Page.t)
  : option Cell.t :=
  match c, m with
  | JsOff_Chrome, FCP => nth_error (Page.jsOff_row page) 0
  | JsOff_Firefox, FCP => nth_error (Page.jsOff_row page) 1
  | JsOff_Chrome, LOAD => nth_error (Page.jsOff_row page) 2
  | JsOff_Firefox, LOAD => nth_error (Page.jsOff_row page) 3
  | WarmCache_Chrome, FCP => nth_error (Page.warmCache_row page) 0
  | WarmCache_Firefox, FCP => nth_error (Page.warmCache_row page) 1
  | WarmCache_Chrome, LOAD => nth_error (Page.warmCache_row page) 2
  | WarmCache_Firefox, LOAD => nth_error (Page.warmCache_row page) 3
  | FirefoxVsChrome, FCP => nth_error (Page.firefoxVsChrome_row page) 0
  | FirefoxVsChrome, LOAD => nth_error (Page.firefoxVsChrome_row page) 1
  end.

(** *** runBenchmark

    The loops of [runBenchmark] over what Playwright and the clock give
    them.  The outside world is a record of answers, one for each await of
    the schedule that the loops fix: a launch per browser, JS-state and
    iteration, and then a cold and a warm measurement per position in
    [URLS]. *)

(** What [page.evaluate] returns, the place-holder aside. *)
Module Timing.
Record t : Type := make {
  fcp : value;
  dom_interactive : value;
  dom_content_loaded : value;
  load : value
}.
End Timing.

(** [None], [false]: the promise is rejected. *)
Module World.
Record t : Type := make {
  (** [cfg.type.launch(cfg.launch)], with [Date.now() - launchStart] *)
  launch : string -> bool -> nat -> option float;
  (** [browser.newContext] and [context.newPage] *)
  newPage : string -> bool -> nat -> bool;
  (** [page.goto] and [page.evaluate] *)
  cold : string -> bool -> nat -> nat -> option Timing.t;
  (** [page.reload] and [page.evaluate] *)
  warm : string -> bool -> nat -> nat -> option Timing.t;
  (** [browser.close] *)
  close : string -> bool -> nat -> bool
}.
End World.

Inductive failure : Type :=
| LaunchFailed          (** the launch is rejected: [process.exit(1)] *)
| Rejected              (** another promise is rejected *)
| Raised (e : error).   (** the script's own code raises *)

Inductive outcome (A : Type) : Type :=
| Resolved (a : A)
| Failed (f : failure).

Arguments Resolved {A} a.
Arguments Failed {A} f.

Definition and_then {A B : Type} (c : outcome A) (k : A -> outcome B)
  : outcome B :=
  match c with
  | Resolved a => k a
  | Failed f => Failed f
  end.

Notation "x <== c ;; k" := (and_then c (fun x => k))
  (at level 61, c at next level, right associativity).

Definition await {A : Type} (o : option A) : outcome A :=
  match o with
  | Some a => Resolved a
  | None => Failed Rejected
  end.

Definition await_done (b : bool) : outcome unit :=
  if b then Resolved tt else Failed Rejected.

(** [await cfg.type.launch(cfg.launch).catch(... process.exit(1))] *)
Definition await_launch (o : option float) : outcome float :=
  match o with
  | Some launchTime => Resolved launchTime
  | None => Failed LaunchFailed
  end.

Definition run {A : Type} (r : result A) : outcome A :=
  match r with
  | Ok a => Resolved a
  | Throw e => Failed (Raised e)
  end.

(** [for (const x of xs) body], the loop state passed along. *)
Fixpoint for_each {X S : Type} (xs : list X) (body : X -> S -> outcome S)
    (st : S) : outcome S :=
  match xs with
  | [] => Resolved st
  | x :: rest => st' <== body x st ;; for_each rest body st'
  end.

(** The same loop over [URLS], counting the positions. *)
Fixpoint for_each_from {S : Type} (k : nat) (urls : list string)
    (body : nat -> string -> S -> outcome S) (st : S) : outcome S :=
  match urls with
  | [] => Resolved st
  | url :: rest =>
      st' <== body k url st ;; for_each_from (Datatypes.S k) rest body st'
  end.

(** [o[key]] where a property of it is read next. *)
Definition member {V : Type} (o : object V) (key : string) : result V :=
  match get o key with
  | Some v => Ok v
  | None => Throw TypeError
  end.

(** [results[browserName][jsLabel] = {}] *)
Definition assign_jsLabel (results : ResultTree) (browserName jsLabel : string)
    (sites : Sites) : result ResultTree :=
  jsBuckets <- member results browserName ;;
  Ok (set results browserName (set jsBuckets jsLabel sites)).

(** [results[browserName][jsLabel][url] = { cold: [], warm: [] }] *)
Definition assign_site (results : ResultTree) (browserName jsLabel url : string)
    (cacheBuckets : Buckets.t) : result ResultTree :=
  jsBuckets <- member results browserName ;;
  sites <- member jsBuckets jsLabel ;;
  Ok (set results browserName
        (set jsBuckets jsLabel (set sites url cacheBuckets))).

(** [arr.push(x)] on [cacheBuckets.cold] or [cacheBuckets.warm]. *)
Definition array_push (arr : option (list Sample.t)) (x : Sample.t)
  : result (list Sample.t) :=
  match arr with
  | Some rs => Ok (rs ++ [x])
  | None => Throw TypeError
  end.

(** [results[browserName][jsLabel][url].cold.push(coldMetrics)]: the objects
    on the path are reached through no other, so the write shows in the tree
    at this place and nowhere else. *)
Definition push_cold (results : ResultTree) (browserName jsLabel url : string)
    (coldMetrics : Sample.t) : result ResultTree :=
  jsBuckets <- member results browserName ;;
  sites <- member jsBuckets jsLabel ;;
  cacheBuckets <- member sites url ;;
  rs <- array_push (Buckets.cold cacheBuckets) coldMetrics ;;
  Ok (set results browserName
        (set jsBuckets jsLabel
           (set sites url
              (Buckets.make (Some rs) (Buckets.warm cacheBuckets))))).

Definition push_warm (results : ResultTree) (browserName jsLabel url : string)
    (warmMetrics : Sample.t) : result ResultTree :=
  jsBuckets <- member results browserName ;;
  sites <- member jsBuckets jsLabel ;;
  cacheBuckets <- member sites url ;;
  rs <- array_push (Buckets.warm cacheBuckets) warmMetrics ;;
  Ok (set results browserName
        (set jsBuckets jsLabel
           (set sites url
              (Buckets.make (Buckets.cold cacheBuckets) (Some rs))))).

(** A cold sample carries the launch time; a warm sample has no
    browser_start_time field. *)
Definition cold_sample (launchTime : float) (t : Timing.t) : Sample.t :=
  Sample.make (Num launchTime) (Timing.fcp t) (Timing.dom_interactive t)
    (Timing.dom_content_loaded t) (Timing.load t).

Definition warm_sample (t : Timing.t) : Sample.t :=
  Sample.make Null (Timing.fcp t) (Timing.dom_interactive t)
    (Timing.dom_content_loaded t) (Timing.load t).

Definition js_label (jsOn : bool) : string :=
  if jsOn then "JS_on"%string else "JS_off"%string.

Section Benchmark.

Variable world : World.t.
Variable urls : list string.
Variable iterations : nat.

(** The body of the loop over the URLs: a cold and a warm load. *)
Definition visit (browserName : string) (jsOn : bool) (launchTime : float)
    (iter k : nat) (url : string) (results : ResultTree)
  : outcome ResultTree :=
  let jsLabel := js_label jsOn in
  t <== await (World.cold world browserName jsOn iter k) ;;
  let coldMetrics := cold_sample launchTime t in
  results <== run (push_cold results browserName jsLabel url coldMetrics) ;;
  t' <== await (World.warm world browserName jsOn iter k) ;;
  let warmMetrics := warm_sample t' in
  run (push_warm results browserName jsLabel url warmMetrics).

(** The body of the loop over the iterations: one browser session. *)
Definition iteration (browserName : string) (jsOn : bool) (iter : nat)
    (results : ResultTree) : outcome ResultTree :=
  launchTime <== await_launch (World.launch world browserName jsOn iter) ;;
  _ <== await_done (World.newPage world browserName jsOn iter) ;;
  results <== for_each_from 0 urls (visit browserName jsOn launchTime iter)
                results ;;
  _ <== await_done (World.close world browserName jsOn iter) ;;
  Resolved results.

(** The body of the loop over the two JS-states. *)
Definition js_state (browserName : string) (jsOn : bool)
    (results : ResultTree) : outcome ResultTree :=
  let jsLabel := js_label jsOn in
  results <== run (assign_jsLabel results browserName jsLabel []) ;;
  results <== for_each urls (fun url results =>
                run (assign_site results browserName jsLabel url
                       (Buckets.make (Some []) (Some [])))) results ;;
  for_each (seq 1 iterations) (iteration browserName jsOn) results.

(** The loops: lines 32 to 106. *)
Definition collect : outcome ResultTree :=
  for_each ["Chrome"%string; "Firefox"%string] (fun browserName results =>
    let results := set results browserName [] in
    for_each [true; false] (js_state browserName) results)
    [].

End Benchmark.

(** The two files the script writes, [None] when it has not written them. *)
Module Files.
Record t : Type := make {
  OUTPUT_JSON : option ResultTree;
  OUTPUT_HTML : option Page.t
}.
End Files.

(** The files at the end of a run, and how the run ends: the tree is written
    after the loops, the page after [generateHtml] has returned.  The two
    constants [URLS] and [ITERATIONS] that the loops read are parameters
    here; [runBenchmark] is the run at their configured values. *)
Definition benchmark (world : World.t) (urls : list string) (iterations : nat)
  : Files.t * outcome unit :=
  match collect world urls iterations with
  | Failed f => (Files.make None None, Failed f)
  | Resolved results =>
      match generateHtml results with
      | Throw e => (Files.make (Some results) None, Failed (Raised e))
      | Ok chartHtml =>
          (Files.make (Some results) (Some chartHtml), Resolved tt)
      end
  end.

Definition runBenchmark (world : World.t) : Files.t * outcome unit :=
  benchmark world URLS ITERATIONS.

(** The loops of one browser and JS-state on the object
    [results[browserName][jsLabel]] alone. *)
Definition site_push_cold (sites : Sites) (url : string) (x : Sample.t)
  : result Sites :=
  cacheBuckets <- member sites url ;;
  rs <- array_push (Buckets.cold cacheBuckets) x ;;
  Ok (set sites url (Buckets.make (Some rs) (Buckets.warm cacheBuckets))).

Definition site_push_warm (sites : Sites) (url : string) (x : Sample.t)
  : result Sites :=
  cacheBuckets <- member sites url ;;
  rs <- array_push (Buckets.warm cacheBuckets) x ;;
  Ok (set sites url (Buckets.make (Buckets.cold cacheBuckets) (Some rs))).

Definition site_visit (world : World.t) (browserName : string) (jsOn : bool)
    (launchTime : float) (iter k : nat) (url : string) (sites : Sites)
  : outcome Sites :=
  t <== await (World.cold world browserName jsOn iter k) ;;
  sites <== run (site_push_cold sites url (cold_sample launchTime t)) ;;
  t' <== await (World.warm world browserName jsOn iter k) ;;
  run (site_push_warm sites url (warm_sample t')).

Definition site_iteration (world : World.t) (urls : list string)
    (browserName : string) (jsOn : bool) (iter : nat) (sites : Sites)
  : outcome Sites :=
  launchTime <== await_launch (World.launch world browserName jsOn iter) ;;
  _ <== await_done (World.newPage world browserName jsOn iter) ;;
  sites <== for_each_from 0 urls
              (site_visit world browserName jsOn launchTime iter) sites ;;
  _ <== await_done (World.close world browserName jsOn iter) ;;
  Resolved sites.

Definition seed (sites : Sites) (url : string) : Sites :=
  set sites url (Buckets.make (Some []) (Some [])).

Definition site_runs (world : World.t) (urls : list string) (iterations : nat)
    (browserName : string) (jsOn : bool) : outcome Sites :=
  for_each (seq 1 iterations) (site_iteration world urls browserName jsOn)
    (fold_left seed urls []).

(** [results[browserName][jsLabel]] replaced. *)
Definition put (results : ResultTree) (browserName jsLabel : string)
    (sites : Sites) : ResultTree :=
  match get results browserName with
  | Some jsBuckets => set results browserName (set jsBuckets jsLabel sites)
  | None => results
  end.

Definition outcome_map {A B : Type} (f : A -> B) (c : outcome A) : outcome B :=
  match c with
  | Resolved a => Resolved (f a)
  | Failed e => Failed e
  end.

(** A world in which nothing is rejected: the launch times and the
    measurements it answers with. *)
Definition answers (world : World.t)
    (launchTime : string -> bool -> nat -> float)
    (cold warm : string -> bool -> nat -> nat -> Timing.t) : Prop :=
  (forall b js i, World.launch world b js i = Some (launchTime b js i))
  /\ (forall b js i, World.newPage world b js i = true)
  /\ (forall b js i k, World.cold world b js i k = Some (cold b js i k))
  /\ (forall b js i k, World.warm world b js i k = Some (warm b js i k))
  /\ (forall b js i, World.close world b js i = true).

(** The tree of a run in which nothing is rejected: under each browser and
    JS-state every URL, with the cold and the warm sample of each iteration
    in the order of the iterations. *)
Section Measured.

Variable launchTime : string -> bool -> nat -> float.
Variable cold warm : string -> bool -> nat -> nat -> Timing.t.
Variable iterations : nat.

Definition measured_buckets (b : string) (js : bool) (k : nat) : Buckets.t :=
  Buckets.make
    (Some (map (fun i => cold_sample (launchTime b js i) (cold b js i k))
               (seq 1 iterations)))
    (Some (map (fun i => warm_sample (warm b js i k)) (seq 1 iterations))).

Fixpoint measured_sites_from (b : string) (js : bool) (k : nat)
    (urls : list string) : Sites :=
  match urls with
  | [] => []
  | url :: rest =>
      (url, measured_buckets b js k)
        :: measured_sites_from b js (Datatypes.S k) rest
  end.

Definition measured_tree (urls : list string) : ResultTree :=
  [("Chrome"%string,
    [("JS_on"%string, measured_sites_from "Chrome" true 0 urls);
     ("JS_off"%string, measured_sites_from "Chrome" false 0 urls)]);
   ("Firefox"%string,
    [("JS_on"%string, measured_sites_from "Firefox" true 0 urls);
     ("JS_off"%string, measured_sites_from "Firefox" false 0 urls)])].

End Measured.

(** The site object of a run in progress: it has every URL, and each of its
    values has both arrays. *)
Definition complete_buckets (b : Buckets.t) : Prop :=
  Buckets.cold b <> None /\ Buckets.warm b <> None.

Definition seeded (urls : list string) (sites : Sites) : Prop :=
  (forall url, In url urls -> get sites url <> None)
  /\ Forall (fun kv => complete_buckets (snd kv)) sites.

(** A run that does not end in an error of the script's own, and whose
    result, when it has one, satisfies [P]. *)
Definition safe {A : Type} (P : A -> Prop) (c : outcome A) : Prop :=
  match c with
  | Resolved a => P a
  | Failed (Raised _) => False
  | Failed _ => True
  end.

(** The tree that the loops leave: both browsers, both JS-states, every
    leaf with its two arrays. *)
Definition collected (results : ResultTree) : Prop :=
  keys results = ["Chrome"; "Firefox"]%string
  /\ Forall (fun kv => keys (snd kv) = ["JS_on"; "JS_off"]%string) results
  /\ Forall complete (leaves results).

(** *** benchmark.js

    The earlier script ([unnamed/part_000]).  Its [avg] is the [avg] above;
    its [generateHtml] flattens the tree itself, to the labels and the FCP
    means of two bar charts.  As above, the page is what fills the holes of
    the template: the four arrays. *)
Module BenchmarkJs.

Module Series.
Record t : Type := make {
  coldLabels : list string;
  coldData : list value;
  warmLabels : list string;
  warmData : list value
}.
End Series.

(** The body of the innermost loop. *)
Definition flatten_site (browser jsLabel url : string)
    (cacheBuckets : Buckets.t) (st : Series.t) : result Series.t :=
  coldFCPs <- column (Buckets.cold cacheBuckets) Sample.fcp ;;
  warmFCPs <- column (Buckets.warm cacheBuckets) Sample.fcp ;;
  let coldLabels :=
    Series.coldLabels st ++ [(browser ++ " " ++ jsLabel ++ " " ++ url)%string] in
  let warmLabels :=
    Series.warmLabels st ++ [(browser ++ " " ++ jsLabel ++ " " ++ url)%string] in
  let coldData := Series.coldData st ++ [avg coldFCPs] in
  let warmData := Series.warmData st ++ [avg warmFCPs] in
  Ok (Series.make coldLabels coldData warmLabels warmData).

Definition generateHtml (data : ResultTree) : result Series.t :=
  for_entries data (fun browser jsBuckets =>
    for_entries jsBuckets (fun jsLabel sites =>
      for_entries sites (fun url cacheBuckets =>
        flatten_site browser jsLabel url cacheBuckets)))
    (Series.make [] [] [] []).

End BenchmarkJs.

(** The label of a leaf in the earlier script: the URL as it is. *)
Definition leaf_title (l : Leaf) : string :=
  (leaf_browser l ++ " " ++ leaf_jsLabel l ++ " " ++ leaf_url l)%string.

Definition extend_series (st : BenchmarkJs.Series.t) (ls : list Leaf)
  : BenchmarkJs.Series.t :=
  BenchmarkJs.Series.make
    (BenchmarkJs.Series.coldLabels st ++ map leaf_title ls)
    (BenchmarkJs.Series.coldData st
       ++ map (fun l => avg (values_of Sample.fcp (cold_of l))) ls)
    (BenchmarkJs.Series.warmLabels st ++ map leaf_title ls)
    (BenchmarkJs.Series.warmData st
       ++ map (fun l => avg (values_of Sample.fcp (warm_of l))) ls).

(** Some await of the session of this browser, JS-state and iteration is
    rejected. *)
Definition rejected_at (world : World.t) (urls : list string) (b : string)
    (js : bool) (i : nat) : Prop :=
  World.launch world b js i = None
  \/ World.newPage world b js i = false
  \/ World.close world b js i = false
  \/ exists k, (k < length urls)%nat
               /\ (World.cold world b js i k = None
                   \/ World.warm world b js i k = None).

(** A reference to a cell made above [n]. *)
Definition made (n : nat) (v : Heap.val) : Prop :=
  exists l, v = Heap.Ref l /\ (n <= l)%nat.

(** The measurement behind each of the two cumulative metrics. *)
Definition timing_field (m : metric2) : Timing.t -> value :=
  match m with FCP => Timing.fcp | LOAD => Timing.load end.

(** A leaf with [n] cold and [n] warm values of the metric. *)
Definition full_leaf (m : metric2) (n : nat) (l : Leaf) : Prop :=
  length (values_of (raw m) (cold_of l)) = n
  /\ length (values_of (raw m) (warm_of l)) = n.

(** The cell of a comparison over the statistics of the two browsers, and
    the page over the results of the three aggregation functions. *)
Definition cell_for (chrome firefox : Stats.t) (c : comparison) (m : metric2)
  : Cell.t :=
  let d := js_sub (pair_field m (minuend c chrome firefox))
                  (pair_field m (subtrahend c chrome firefox)) in
  Cell.make (delta_class d) (ToNumber d).

Definition page_of (chart : Chart.t) (stats : CumulativeStats)
    (chrome firefox : Stats.t) : Page.t :=
  let cell := cell_for chrome firefox in
  Page.make ITERATIONS
    [cell JsOff_Chrome FCP; cell JsOff_Firefox FCP;
     cell JsOff_Chrome LOAD; cell JsOff_Firefox LOAD]
    [cell WarmCache_Chrome FCP; cell WarmCache_Firefox FCP;
     cell WarmCache_Chrome LOAD; cell WarmCache_Firefox LOAD]
    [cell FirefoxVsChrome FCP; cell FirefoxVsChrome LOAD]
    chart stats.

(** The comparisons within one browser. *)
Definition own_comparison (browser : string) (c : comparison) : bool :=
  match c with
  | JsOff_Chrome | WarmCache_Chrome => String.eqb browser "Chrome"
  | JsOff_Firefox | WarmCache_Firefox => String.eqb browser "Firefox"
  | FirefoxVsChrome => false
  end.

(** The tree before the first iteration of Chrome: its leaves are seeded and
    hold no sample yet. *)
Definition tree_chrome_seeded : ResultTree :=
  [("Chrome"%string,
    [("JS_on"%string,
      [("https://example.com/"%string, Buckets.make (Some []) (Some []))]);
     ("JS_off"%string,
      [("https://example.com/"%string, Buckets.make (Some []) (Some []))])]);
   ("Firefox"%string,
    [("JS_on"%string, [("https://example.com/"%string, firefox_buckets)]);
     ("JS_off"%string, [("https://example.com/"%string, firefox_buckets)])])].

(** A tree whose second JS-state key is neither [JS_on] nor [JS_off]. *)
Definition tree_other_js_key : ResultTree :=
  [("Chrome"%string,
    [("JS_on"%string, [("https://example.com/"%string, example_buckets)]);
     ("noscript"%string, [("https://example.com/"%string, firefox_buckets)])])].

(** A world in which every launch takes 40 ms and more with each
    iteration, and the pages report no dom_interactive. *)
Definition example_launchTime (b : string) (js : bool) (i : nat) : float :=
  number_of_nat (40 + i).

Definition example_cold (b : string) (js : bool) (i k : nat) : Timing.t :=
  Timing.make (Num (number_of_nat (100 * i + k))) Null (Num 700) (Num 900).

Definition example_warm (b : string) (js : bool) (i k : nat) : Timing.t :=
  Timing.make (Num (number_of_nat (50 + k))) Null (Num 300) (Num 400).

Definition example_world : World.t :=
  World.make (fun b js i => Some (example_launchTime b js i))
             (fun _ _ _ => true)
             (fun b js i k => Some (example_cold b js i k))
             (fun b js i k => Some (example_warm b js i k))
             (fun _ _ _ => true).

(** The same world, where the last launch of all is rejected. *)
Definition world_last_launch_rejected : World.t :=
  World.make
    (fun b js i =>
       if (String.eqb b "Firefox" && negb js && Nat.eqb i 5)%bool then None
       else Some (example_launchTime b js i))
    (fun _ _ _ => true)
    (fun b js i k => Some (example_cold b js i k))
    (fun b js i k => Some (example_warm b js i k))
    (fun _ _ _ => true).

(** * Properties *)

(** ** Facts about [value_eq] *)

Lemma SFeqb_cases (x y : spec_float) :
  SFeqb x y = true ->
  x = y \/ exists s s', x = S754_zero s /\ y = S754_zero s'.
Proof.
  unfold SFeqb, SFcompare.
  destruct x as [sx|sx| |sx mx ex], y as [sy|sy| |sy my ey];
    try discriminate;
    try (destruct sx; discriminate); try (destruct sy; discriminate).
  - intros _. right. eauto.
  - destruct sx, sy; try discriminate; intros _; left; reflexivity.
  - destruct sx, sy; try discriminate.
    + destruct (Z.compare ex ey) eqn:Ee; try discriminate.
      apply Z.compare_eq in Ee. subst ey.
      destruct (Pos.compare_cont Eq mx my) eqn:Em; try discriminate.
      apply Pos.compare_eq in Em. subst my. intros _. left. reflexivity.
    + destruct (Z.compare ex ey) eqn:Ee; try discriminate.
      apply Z.compare_eq in Ee. subst ey.
      destruct (Pos.compare_cont Eq mx my) eqn:Em; try discriminate.
      apply Pos.compare_eq in Em. subst my. intros _. left. reflexivity.
Qed.

(** Two numbers are the same number when they are equal or both a zero. *)
Lemma same_number_cases (a b : float) :
  same_number a b <->
  a = b \/ exists s s', Prim2SF a = S754_zero s /\ Prim2SF b = S754_zero s'.
Proof.
  unfold same_number. split.
  - intros [H|H]; [left; exact H|].
    rewrite FloatAxioms.eqb_spec in H. apply SFeqb_cases in H.
    destruct H as [H|H]; [left; apply Prim2SF_inj; exact H | right; exact H].
  - intros [H|(s & s' & Ha & Hb)]; [left; exact H|].
    right. rewrite FloatAxioms.eqb_spec, Ha, Hb. reflexivity.
Qed.

Lemma same_number_refl (a : float) : same_number a a.
Proof. left. reflexivity. Qed.

Lemma same_number_sym (a b : float) : same_number a b -> same_number b a.
Proof.
  rewrite !same_number_cases. intros [H|(s & s' & Ha & Hb)]; [left; auto|].
  right. eauto.
Qed.

Lemma same_number_trans (a b c : float) :
  same_number a b -> same_number b c -> same_number a c.
Proof.
  rewrite !same_number_cases.
  intros [->|(s & s' & Ha & Hb)] [->|(t & t' & Hb' & Hc)]; eauto 6.
Qed.

Lemma value_eq_refl v : v =v= v.
Proof. destruct v; simpl; [exact I | apply same_number_refl]. Qed.

Lemma value_eq_sym v w : v =v= w -> w =v= v.
Proof. destruct v, w; simpl; auto. apply same_number_sym. Qed.

Lemma value_eq_trans u v w : u =v= v -> v =v= w -> u =v= w.
Proof.
  destruct u, v, w; simpl; auto; try contradiction.
  apply same_number_trans.
Qed.

#[global] Instance value_eq_Equivalence : Equivalence value_eq.
Proof.
  split.
  - exact value_eq_refl.
  - exact value_eq_sym.
  - exact value_eq_trans.
Qed.

(** ** The arithmetic of the code *)

Ltac stdlib_Z :=
  change IntDef.Z.max with Z.max in *;
  change IntDef.Z.min with Z.min in *;
  change IntDef.Z.sub with Z.sub in *;
  change IntDef.Z.add with Z.add in *;
  change IntDef.Z.leb with Z.leb in *;
  change IntDef.Z.eqb with Z.eqb in *.

(** [x - 0] is [x], also for the two zeros, the infinities and NaN. *)
Lemma sub_zero (x : float) : (x - 0)%float = x.
Proof.
  apply Prim2SF_inj. rewrite FloatAxioms.sub_spec.
  change (Prim2SF 0%float) with (S754_zero false).
  destruct (Prim2SF x) as [[|]| | |]; reflexivity.
Qed.

(** [0 - y] is [- y], but for [y = 0], where it is the zero of the other
    sign. *)
Lemma zero_sub (y : float) : same_number (0 - y)%float (- y)%float.
Proof.
  unfold same_number.
  destruct (Prim2SF y) as [s|s| |s m e] eqn:E.
  - right. rewrite FloatAxioms.eqb_spec, FloatAxioms.sub_spec, FloatAxioms.opp_spec, E.
    change (Prim2SF 0%float) with (S754_zero false). destruct s; reflexivity.
  - left. apply Prim2SF_inj. rewrite FloatAxioms.sub_spec, FloatAxioms.opp_spec, E. reflexivity.
  - left. apply Prim2SF_inj. rewrite FloatAxioms.sub_spec, FloatAxioms.opp_spec, E. reflexivity.
  - left. apply Prim2SF_inj. rewrite FloatAxioms.sub_spec, FloatAxioms.opp_spec, E. reflexivity.
Qed.

(** [0 + x] is [x], but for the negative zero, where it is the positive. *)
Lemma zero_add (x : float) : same_number (0 + x)%float x.
Proof.
  unfold same_number.
  destruct (Prim2SF x) as [s|s| |s m e] eqn:E.
  - right. rewrite FloatAxioms.eqb_spec, FloatAxioms.add_spec, E.
    change (Prim2SF 0%float) with (S754_zero false). destruct s; reflexivity.
  - left. apply Prim2SF_inj. rewrite FloatAxioms.add_spec, E. reflexivity.
  - left. apply Prim2SF_inj. rewrite FloatAxioms.add_spec, E. reflexivity.
  - left. apply Prim2SF_inj. rewrite FloatAxioms.add_spec, E. reflexivity.
Qed.

(** Rounding commutes with the change of sign. *)
Lemma SFopp_binary_round_aux (s : bool) (m e : Z) (l : location) :
  SFopp (binary_round_aux prec emax s m e l)
  = binary_round_aux prec emax (negb s) m e l.
Proof.
  unfold binary_round_aux.
  destruct (shr_fexp prec emax m e l) as [mrs' e'].
  destruct (shr_fexp prec emax _ e' loc_Exact) as [mrs'' e''].
  destruct (shr_m mrs''); [reflexivity| |reflexivity].
  destruct (e'' <=? emax - prec)%Z; reflexivity.
Qed.

Lemma SFopp_binary_round (s : bool) (m : positive) (e : Z) :
  SFopp (binary_round prec emax s m e) = binary_round prec emax (negb s) m e.
Proof.
  unfold binary_round.
  destruct (shl_align m e _) as [mz ez]. apply SFopp_binary_round_aux.
Qed.

Lemma SFsub_swap (x y : spec_float) :
  SF64sub y x = SFopp (SF64sub x y)
  \/ SFeqb (SF64sub y x) (SFopp (SF64sub x y)) = true.
Proof.
  destruct x as [sx|sx| |sx mx ex], y as [sy|sy| |sy my ey];
    try (left; reflexivity);
    try (destruct sx, sy; (left; reflexivity) || (right; reflexivity)).
  unfold SF64sub, SFsub.
  rewrite (Z.min_comm ey ex).
  set (ez := Z.min ex ey).
  set (a := cond_Zopp sx (Z.pos (fst (shl_align mx ex ez)))).
  set (b := cond_Zopp sy (Z.pos (fst (shl_align my ey ez)))).
  replace (b - a)%Z with (- (a - b))%Z by lia.
  destruct (a - b)%Z as [|p|p]; simpl.
  - right. reflexivity.
  - left. symmetry. apply (SFopp_binary_round false).
  - left. symmetry. apply (SFopp_binary_round true).
Qed.

(** [b - a] is [- (a - b)], but for [a = b], where both are zeros. *)
Lemma sub_swap (a b : float) : same_number (b - a)%float (- (a - b))%float.
Proof.
  unfold same_number.
  destruct (SFsub_swap (Prim2SF a) (Prim2SF b)) as [H|H].
  - left. apply Prim2SF_inj. rewrite FloatAxioms.opp_spec, !FloatAxioms.sub_spec. exact H.
  - right. rewrite FloatAxioms.eqb_spec, FloatAxioms.opp_spec, !FloatAxioms.sub_spec. exact H.
Qed.

(** Division by 1 is exact. *)
Lemma div_eucl_shift (m : positive) (k : Z) :
  (0 <= k)%Z ->
  Z.div_eucl (Z.shiftl (Z.pos m) (52 + k)) 4503599627370496
  = (Z.shiftl (Z.pos m) k, 0%Z).
Proof.
  intros Hk.
  pose proof (Z_div_mod (Z.shiftl (Z.pos m) (52 + k)) 4503599627370496 eq_refl) as H.
  destruct (Z.div_eucl (Z.shiftl (Z.pos m) (52 + k)) 4503599627370496) as [q r].
  destruct H as [H1 H2].
  rewrite !Z.shiftl_mul_pow2 in * by lia.
  rewrite Z.pow_add_r in H1 by lia.
  change (2 ^ 52)%Z with 4503599627370496%Z in H1.
  assert (Hp : (0 < 2 ^ k)%Z) by (apply Z.pow_pos_nonneg; lia).
  assert (q = Z.pos m * 2 ^ k)%Z by nia.
  subst q. f_equal. lia.
Qed.

Lemma shr_fexp_canonical (m : positive) (e : Z) :
  canonical_mantissa prec emax m e = true ->
  shr_fexp prec emax (Z.pos m) e loc_Exact
  = ({| shr_m := Z.pos m; shr_r := false; shr_s := false |}, e).
Proof.
  unfold canonical_mantissa. intros H. apply Z.eqb_eq in H.
  unfold shr_fexp. change (Zdigits2 (Z.pos m)) with (Z.pos (digits2_pos m)).
  stdlib_Z. rewrite H, Z.sub_diag. reflexivity.
Qed.

Lemma shr_fexp_one_bit (m : positive) (e : Z) :
  canonical_mantissa prec emax m e = true ->
  shr_fexp prec emax (Z.pos m~0) (e - 1) loc_Exact
  = ({| shr_m := Z.pos m; shr_r := false; shr_s := false |}, e).
Proof.
  unfold canonical_mantissa. intros H. apply Z.eqb_eq in H.
  unfold shr_fexp.
  change (Zdigits2 (Z.pos m~0)) with (Z.pos (Pos.succ (digits2_pos m))).
  stdlib_Z.
  replace (Z.pos (Pos.succ (digits2_pos m)) + (e - 1))%Z
    with (Z.pos (digits2_pos m) + e)%Z by lia.
  rewrite H. replace (e - (e - 1))%Z with 1%Z by lia.
  unfold shr. simpl. f_equal. lia.
Qed.

Lemma binary_round_aux_exact (s : bool) (m : positive) (e : Z) (mz : Z) (ez : Z) :
  bounded prec emax m e = true ->
  shr_fexp prec emax mz ez loc_Exact
  = ({| shr_m := Z.pos m; shr_r := false; shr_s := false |}, e) ->
  binary_round_aux prec emax s mz ez loc_Exact = S754_finite s m e.
Proof.
  intros Hb Hs. unfold bounded in Hb. apply andb_prop in Hb.
  destruct Hb as [Hc Hle].
  unfold binary_round_aux. rewrite Hs.
  change (round_nearest_even
            (shr_m {| shr_m := Z.pos m; shr_r := false; shr_s := false |})
            (loc_of_shr_record
               {| shr_m := Z.pos m; shr_r := false; shr_s := false |}))
    with (Z.pos m).
  rewrite (shr_fexp_canonical m e Hc).
  change (shr_m {| shr_m := Z.pos m; shr_r := false; shr_s := false |})
    with (Z.pos m).
  cbv beta iota.
  rewrite Hle. reflexivity.
Qed.

Lemma SFdiv_one (s : bool) (m : positive) (e : Z) :
  bounded prec emax m e = true ->
  SF64div (S754_finite s m e) (S754_finite false 4503599627370496 (-52))
  = S754_finite s m e.
Proof.
  intros Hb. pose proof Hb as Hb'. unfold bounded in Hb'.
  apply andb_prop in Hb'. destruct Hb' as [Hc Hle].
  pose proof Hc as Hc'. unfold canonical_mantissa in Hc'.
  apply Z.eqb_eq in Hc'. apply Z.leb_le in Hle.
  unfold SF64div, SFdiv, SFdiv_core_binary.
  change (Zdigits2 (Z.pos 4503599627370496)) with 53%Z.
  change (Zdigits2 (Z.pos m)) with (Z.pos (digits2_pos m)).
  set (D := Z.pos (digits2_pos m)) in *.
  assert (HD : (0 < D)%Z) by (unfold D; lia).
  unfold fexp, SpecFloat.emin, prec, emax in Hc', Hle |- *. stdlib_Z.
  set (e' := Z.min (Z.max (D + e - (53 + -52) - 53) (3 - 1024 - 53)) (e - -52)).
  assert (He' : e' = e \/ e' = (e - 1)%Z) by (unfold e'; lia).
  replace (xorb s false) with s by (destruct s; reflexivity).
  destruct He' as [He'|He'].
  - replace (e - -52 - e')%Z with 52%Z by lia.
    cbv beta iota.
    change (Z.shiftl (Z.pos m) 52) with (Z.shiftl (Z.pos m) (52 + 0)).
    rewrite (div_eucl_shift m 0) by lia.
    change (Z.shiftl (Z.pos m) 0) with (Z.pos m).
    change (new_location 4503599627370496 0) with loc_Exact.
    rewrite He'.
    apply (binary_round_aux_exact s m e (Z.pos m) e Hb).
    apply shr_fexp_canonical. exact Hc.
  - replace (e - -52 - e')%Z with 53%Z by lia.
    cbv beta iota.
    change (Z.shiftl (Z.pos m) 53) with (Z.shiftl (Z.pos m) (52 + 1)).
    rewrite (div_eucl_shift m 1) by lia.
    change (Z.shiftl (Z.pos m) 1) with (Z.pos m~0).
    change (new_location 4503599627370496 0) with loc_Exact.
    rewrite He'.
    apply (binary_round_aux_exact s m e (Z.pos m~0) (e - 1) Hb).
    apply shr_fexp_one_bit. exact Hc.
Qed.

Lemma div_one (x : float) : (x / 1)%float = x.
Proof.
  apply Prim2SF_inj. rewrite FloatAxioms.div_spec.
  change (Prim2SF 1%float) with (S754_finite false 4503599627370496 (-52)).
  pose proof (Prim2SF_valid x) as Hv.
  destruct (Prim2SF x) as [s|s| |s m e]; try (destruct s; reflexivity);
    [reflexivity|].
  apply SFdiv_one. exact Hv.
Qed.

(** ** Facts about [reduce_add] and [avg] *)

Lemma fold_left_add_sum_from (l : list float) (a : float) :
  fold_left PrimFloat.add l a = sum_from a l.
Proof.
  revert a; induction l as [|x l IH]; intros a; simpl; [reflexivity|apply IH].
Qed.

(** [reduce] adds the members in the order of the specification's sum. *)
Lemma reduce_add_total (l : list float) : reduce_add l = total l.
Proof. apply fold_left_add_sum_from. Qed.

Lemma array_length_count (l : list float) : array_length l = count l.
Proof. reflexivity. Qed.

Lemma avg_nil : avg [] = Null.
Proof. reflexivity. Qed.

Lemma avg_cons (x : float) (l : list float) :
  avg (x :: l) = Num (mean (x :: l)).
Proof.
  unfold avg, mean. simpl negb. cbv iota.
  rewrite reduce_add_total, array_length_count. reflexivity.
Qed.

(** ** The mean helper: empty input, the mean, its bounds *)

(** C4, as stated, fails for the non-empty sequences: the sum and the
    quotient are rounded to the nearest double, so the result of [avg] need
    not be the arithmetic mean.  Of three members 0.1, whose arithmetic mean
    is 0.1, it is the next double above; of two members equal to the largest
    double, whose arithmetic mean is that double, it is Infinity. *)
Lemma avg_not_the_arithmetic_mean_counterexample :
  (exists q r r',
      exact_mean [0.1; 0.1; 0.1] = Some q
      /\ exact 0.1 = Some r /\ (q == r)%Q
      /\ avg [0.1; 0.1; 0.1] = Num 0.10000000000000002
      /\ exact 0.10000000000000002 = Some r' /\ ~ (r' == q)%Q)
  /\ (exists q r,
         exact_mean [1.7976931348623157e308; 1.7976931348623157e308] = Some q
         /\ exact 1.7976931348623157e308 = Some r /\ (q == r)%Q
         /\ avg [1.7976931348623157e308; 1.7976931348623157e308]
            = Num infinity
         /\ exact infinity = None).
Proof.
  split.
  - do 3 eexists.
    split; [vm_compute; reflexivity|].
    split; [vm_compute; reflexivity|].
    split; [vm_compute; reflexivity|].
    split; [reflexivity|].
    split; [vm_compute; reflexivity|].
    intros H. vm_compute in H. discriminate.
  - do 2 eexists.
    split; [vm_compute; reflexivity|].
    split; [vm_compute; reflexivity|].
    split; [vm_compute; reflexivity|].
    split; reflexivity.
Qed.

(** C4, amended.  [avg] of the empty sequence is [null], which is not the
    number 0; [avg] of a non-empty sequence is a number: the sum of the
    sequence divided by its length, in the arithmetic of the code: the
    members are added from the first to the last, starting from 0, the sum
    is divided by the number of members, and every operation is rounded to
    the nearest double.  [avg] is a total function into [value]: it has no
    exceptional outcome. *)
Theorem avg_empty_null_else_mean :
  avg [] = Null /\
  avg [] <> Num 0 /\
  forall arr : list float, arr <> [] -> avg arr = Num (mean arr).
Proof.
  split; [apply avg_nil|]. split; [rewrite avg_nil; discriminate|].
  intros [|x l] H; [contradiction|]. apply avg_cons.
Qed.

Lemma avg_empty_null_else_mean_witness :
  [100; 200; 300] <> [] /\ avg [100; 200; 300] = Num 200.
Proof.
  split; [discriminate|].
  exact (proj2 (proj2 avg_empty_null_else_mean) [100; 200; 300]
           ltac:(discriminate)).
Defined.

(** C7, as stated, fails.  The mean of three members 0.1 is above the
    greatest member, the mean of three members 0.7 is below the least, and
    the mean of two members equal to the largest double is Infinity. *)
Lemma avg_outside_min_max_counterexample :
  avg [0.1; 0.1; 0.1] = Num 0.10000000000000002
  /\ seq_max 0.1 [0.1; 0.1] = 0.1%float
  /\ (0.10000000000000002 <=? 0.1)%float = false
  /\ avg [0.7; 0.7; 0.7] = Num 0.6999999999999998
  /\ seq_min 0.7 [0.7; 0.7] = 0.7%float
  /\ (0.7 <=? 0.6999999999999998)%float = false
  /\ avg [1.7976931348623157e308; 1.7976931348623157e308] = Num infinity
  /\ seq_max 1.7976931348623157e308 [1.7976931348623157e308]
     = 1.7976931348623157e308%float
  /\ (infinity <=? 1.7976931348623157e308)%float = false.
Proof. repeat split; reflexivity. Qed.

Lemma zero_add_exact (x : float) : x <> neg_zero -> (0 + x)%float = x.
Proof.
  intros Hx. apply Prim2SF_inj. rewrite FloatAxioms.add_spec.
  change (Prim2SF 0%float) with (S754_zero false).
  destruct (Prim2SF x) as [s|s| |s m e] eqn:E; try reflexivity.
  destruct s; [|reflexivity].
  contradiction Hx. apply Prim2SF_inj. rewrite E. reflexivity.
Qed.

(** C7, amended.  The mean of the one-member sequence [[x]] is [x], for
    every number [x]: it is the same number, and the same double but for
    the negative zero, whose mean is the positive zero.  The mean of a
    longer sequence is the rounded sum divided by the count, which the
    least and the greatest member do not bound. *)
Theorem avg_singleton (x : float) :
  avg [x] =v= Num x
  /\ (x <> neg_zero -> avg [x] = Num x)
  /\ forall l, avg (x :: l) = Num (mean (x :: l)).
Proof.
  split; [|split; [|intros l; apply avg_cons]];
    rewrite avg_cons; unfold mean, total, count; simpl sum_from;
    change (PrimFloat.of_uint63 (Uint63.of_Z (Z.of_nat (length [x]))))
      with 1%float;
    rewrite div_one.
  - apply zero_add.
  - intros Hx. rewrite (zero_add_exact x Hx). reflexivity.
Qed.

Lemma avg_singleton_witness :
  412.3 <> neg_zero /\ avg [412.3] = Num 412.3.
Proof.
  assert (H : 412.3 <> neg_zero).
  { intros E. apply (f_equal Prim2SF) in E. vm_compute in E. discriminate. }
  split; [exact H|]. exact (proj1 (proj2 (avg_singleton 412.3)) H).
Defined.

(** ** calculateDeltas *)

Lemma calculateDeltas_fields (stats : CumulativeStats) (chrome firefox : Stats.t) :
  get stats "Chrome" = Some chrome ->
  get stats "Firefox" = Some firefox ->
  exists d, calculateDeltas stats = Ok d /\
    forall c m,
      pair_field m (delta_of c d)
      = js_sub (pair_field m (minuend c chrome firefox))
               (pair_field m (subtrahend c chrome firefox)).
Proof.
  intros Hc Hf. unfold calculateDeltas, browser_stats. rewrite Hc, Hf. simpl.
  eexists. split; [reflexivity|].
  intros [] []; reflexivity.
Qed.

(** C1, as stated, fails: with a [null] warm mean and a cold mean of 1000 the
    warmCache delta of Chrome is the number -1000, not [null]. *)
Lemma null_operand_delta_counterexample :
  exists d, calculateDeltas stats_without_warm = Ok d
    /\ pair_field FCP (minuend WarmCache_Chrome chrome_without_warm chrome_without_warm) = Null
    /\ pair_field FCP (delta_of WarmCache_Chrome d) = Num (-1000)
    /\ pair_field FCP (delta_of WarmCache_Chrome d) <> Null.
Proof.
  eexists. split; [reflexivity|]. split; [reflexivity|].
  split; [reflexivity|discriminate].
Qed.

(** C1, amended.  When both browsers are present, [calculateDeltas] raises
    nothing and every delta is a number, never [null]: a [null] operand
    counts as 0, so the delta is the other operand (negated when the [null]
    is the minuend), and 0 when both are [null]. *)
Theorem calculateDeltas_null_operand_counts_as_zero
    (stats : CumulativeStats) (chrome firefox : Stats.t) :
  get stats "Chrome" = Some chrome ->
  get stats "Firefox" = Some firefox ->
  exists d, calculateDeltas stats = Ok d /\
    forall c m,
      let b := pair_field m (minuend c chrome firefox) in
      let a := pair_field m (subtrahend c chrome firefox) in
      let delta := pair_field m (delta_of c d) in
      delta <> Null
      /\ (b = Null -> forall y, a = Num y -> delta =v= Num (- y))
      /\ (a = Null -> forall x, b = Num x -> delta =v= Num x)
      /\ (b = Null -> a = Null -> delta =v= Num 0).
Proof.
  intros Hc Hf.
  destruct (calculateDeltas_fields stats chrome firefox Hc Hf) as [d [Hd Hfld]].
  exists d. split; [exact Hd|].
  intros c m. cbv zeta. rewrite Hfld. unfold js_sub.
  split; [discriminate|]. repeat split.
  - intros -> y ->. simpl. apply zero_sub.
  - intros -> x ->. simpl. left. apply sub_zero.
  - intros -> ->. simpl. left. reflexivity.
Qed.

Lemma calculateDeltas_null_operand_counts_as_zero_witness :
  get stats_without_warm "Chrome" = Some chrome_without_warm /\
  get stats_without_warm "Firefox" = Some chrome_without_warm /\
  exists d, calculateDeltas stats_without_warm = Ok d /\
    pair_field FCP (delta_of WarmCache_Chrome d) <> Null.
Proof.
  split; [reflexivity|]. split; [reflexivity|].
  destruct (calculateDeltas_null_operand_counts_as_zero
              stats_without_warm chrome_without_warm chrome_without_warm
              eq_refl eq_refl) as [d [Hd H]].
  exists d. split; [exact Hd|].
  exact (proj1 (H WarmCache_Chrome FCP)).
Defined.

(** C5.  When both browsers are present and the operands of a comparison are
    numbers, its delta is their signed difference: jsOff is the JS_off mean
    minus the JS_on mean and warmCache the warm mean minus the cold mean, for
    each browser, and firefoxVsChrome is the Firefox overall mean minus the
    Chrome overall mean; for FCP and for load alike.  The result has these
    three comparisons and no other ([Deltas.t]). *)
Theorem calculateDeltas_signed_differences
    (stats : CumulativeStats) (chrome firefox : Stats.t) :
  get stats "Chrome" = Some chrome ->
  get stats "Firefox" = Some firefox ->
  exists d, calculateDeltas stats = Ok d /\
    forall c m x y,
      pair_field m (minuend c chrome firefox) = Num x ->
      pair_field m (subtrahend c chrome firefox) = Num y ->
      pair_field m (delta_of c d) = Num (x - y).
Proof.
  intros Hc Hf.
  destruct (calculateDeltas_fields stats chrome firefox Hc Hf) as [d [Hd Hfld]].
  exists d. split; [exact Hd|].
  intros c m x y Hx Hy. rewrite Hfld, Hx, Hy. reflexivity.
Qed.

Lemma calculateDeltas_signed_differences_witness :
  get stats_numbers "Chrome" = Some chrome_numbers /\
  get stats_numbers "Firefox" = Some firefox_numbers /\
  exists d, calculateDeltas stats_numbers = Ok d /\
    pair_field FCP (delta_of FirefoxVsChrome d) = Num (600 - 500).
Proof.
  split; [reflexivity|]. split; [reflexivity|].
  destruct (calculateDeltas_signed_differences
              stats_numbers chrome_numbers firefox_numbers
              eq_refl eq_refl) as [d [Hd H]].
  exists d. split; [exact Hd|].
  apply (H FirefoxVsChrome FCP); reflexivity.
Defined.

(** ** Loops over the entries of an object *)

Section Loops.
Context {S X : Type}.
Variable extend : S -> list X -> S.
Hypothesis extend_nil : forall s, extend s [] = s.
Hypothesis extend_app : forall s a b, extend (extend s a) b = extend s (a ++ b).
Variables good bad : X -> Prop.

(** A loop whose body adds the items of each entry adds the items of all
    entries, in order. *)
Lemma for_entries_extend {V : Type} (items : string -> V -> list X)
    (body : string -> V -> S -> result S) (entries : list (string * V)) :
  (forall k v s, Forall good (items k v) -> body k v s = Ok (extend s (items k v))) ->
  forall st,
    Forall good (flat_map (fun kv => items (fst kv) (snd kv)) entries) ->
    for_entries entries body st
    = Ok (extend st (flat_map (fun kv => items (fst kv) (snd kv)) entries)).
Proof.
  intros Hbody. induction entries as [|[k v] rest IH]; intros st Hgood; simpl.
  - rewrite extend_nil. reflexivity.
  - simpl in Hgood. apply Forall_app in Hgood. destruct Hgood as [Hkv Hrest].
    rewrite (Hbody k v st Hkv). simpl.
    rewrite (IH _ Hrest), extend_app. reflexivity.
Qed.

(** A loop raises as soon as the body raises at one entry. *)
Lemma for_entries_throw {V : Type} (items : string -> V -> list X)
    (body : string -> V -> S -> result S) (entries : list (string * V)) :
  (forall k v s, Exists bad (items k v) -> body k v s = Throw TypeError) ->
  forall st,
    Exists bad (flat_map (fun kv => items (fst kv) (snd kv)) entries) ->
    for_entries entries body st = Throw TypeError.
Proof.
  intros Hbody. induction entries as [|[k v] rest IH]; intros st Hbad; simpl.
  - simpl in Hbad. inversion Hbad.
  - simpl in Hbad. apply Exists_app in Hbad. destruct Hbad as [Hkv|Hrest].
    + rewrite (Hbody k v st Hkv). reflexivity.
    + destruct (body k v st) as [s'|[]]; simpl.
      * apply IH. exact Hrest.
      * reflexivity.
Qed.
End Loops.

Lemma complete_or_incomplete (l : Leaf) : complete l \/ incomplete l.
Proof.
  unfold complete, incomplete.
  destruct (Buckets.cold (leaf_buckets l)), (Buckets.warm (leaf_buckets l));
    first [left; split; discriminate | right; auto].
Qed.

Lemma all_complete_or_some_incomplete (ls : list Leaf) :
  Forall complete ls \/ Exists incomplete ls.
Proof.
  induction ls as [|l ls [IH|IH]].
  - left. constructor.
  - destruct (complete_or_incomplete l) as [H|H].
    + left. constructor; assumption.
    + right. apply Exists_cons_hd. exact H.
  - right. apply Exists_cons_tl. exact IH.
Qed.

Lemma column_samples (o : option (list Sample.t)) (f : Sample.t -> value) :
  o <> None -> column o f = Ok (values_of f (samples o)).
Proof. destruct o; [reflexivity | intros H; contradiction H; reflexivity]. Qed.

(** ** calculateMetricsData, loop by loop *)

Lemma extend_chart_nil (st : Chart.t) : extend_chart st [] = st.
Proof. destruct st. unfold extend_chart; simpl. rewrite !app_nil_r. reflexivity. Qed.

Lemma extend_chart_app (st : Chart.t) (a b : list Leaf) :
  extend_chart (extend_chart st a) b = extend_chart st (a ++ b).
Proof. unfold extend_chart; simpl. rewrite !map_app, !app_assoc. reflexivity. Qed.

Lemma metrics_of_site_complete (browser jsLabel url : string) (b : Buckets.t)
    (st : Chart.t) :
  Forall complete [mkLeaf browser jsLabel url b] ->
  metrics_of_site browser jsLabel url b st
  = Ok (extend_chart st [mkLeaf browser jsLabel url b]).
Proof.
  intros H. inversion H as [|? ? [Hc Hw] _]; subst. simpl in Hc, Hw.
  unfold metrics_of_site, coldMetrics, warmMetrics.
  rewrite !(column_samples _ _ Hc), !(column_samples _ _ Hw). reflexivity.
Qed.

Lemma metrics_of_site_incomplete (browser jsLabel url : string) (b : Buckets.t)
    (st : Chart.t) :
  Exists incomplete [mkLeaf browser jsLabel url b] ->
  metrics_of_site browser jsLabel url b st = Throw TypeError.
Proof.
  intros H. inversion H as [? ? Hl|? ? Hl]; subst; [|inversion Hl].
  unfold incomplete in Hl; simpl in Hl.
  unfold metrics_of_site, coldMetrics, warmMetrics.
  destruct (Buckets.cold b) as [rc|]; [|reflexivity].
  destruct Hl as [Hl|Hl]; [discriminate|]. rewrite Hl. reflexivity.
Qed.

Lemma calculateMetricsData_complete (data : ResultTree) :
  Forall complete (leaves data) ->
  calculateMetricsData data
  = Ok (Chart.make (map cold_entry (leaves data)) (map warm_entry (leaves data))).
Proof.
  intros H. unfold calculateMetricsData.
  rewrite (for_entries_extend extend_chart extend_chart_nil extend_chart_app
             complete browser_leaves); [reflexivity| |exact H].
  intros browser jsBuckets st Hb.
  apply (for_entries_extend extend_chart extend_chart_nil extend_chart_app
           complete (site_leaves browser)); [|exact Hb].
  intros jsLabel sites st' Hs.
  apply (for_entries_extend extend_chart extend_chart_nil extend_chart_app
           complete (fun url b => [mkLeaf browser jsLabel url b])); [|exact Hs].
  intros url b st''. apply metrics_of_site_complete.
Qed.

Lemma calculateMetricsData_incomplete (data : ResultTree) :
  Exists incomplete (leaves data) ->
  calculateMetricsData data = Throw TypeError.
Proof.
  intros H. unfold calculateMetricsData.
  apply (for_entries_throw incomplete browser_leaves); [|exact H].
  intros browser jsBuckets st Hb.
  apply (for_entries_throw incomplete (site_leaves browser)); [|exact Hb].
  intros jsLabel sites st' Hs.
  apply (for_entries_throw incomplete (fun url b => [mkLeaf browser jsLabel url b]));
    [|exact Hs].
  intros url b st''. apply metrics_of_site_incomplete.
Qed.

(** ** Means of a leaf *)

(** The numbers the code averages are the numbers of the samples that have
    the field. *)
Lemma values_of_present (f : Sample.t -> value) (rs : list Sample.t) :
  values_of f rs = present f rs.
Proof.
  unfold values_of, present, has_field. induction rs as [|r rs IH]; simpl.
  - reflexivity.
  - destruct (f r) eqn:E; simpl; rewrite IH; [reflexivity|].
    rewrite E. reflexivity.
Qed.

Lemma avg_mean_value (l : list float) : avg l = mean_value l.
Proof. destruct l as [|x l]; [reflexivity|apply avg_cons]. Qed.

Lemma avg_values_of (f : Sample.t -> value) (rs : list Sample.t) :
  avg (values_of f rs) = mean_of_present f rs.
Proof. rewrite values_of_present. apply avg_mean_value. Qed.

Lemma present_none (f : Sample.t -> value) (rs : list Sample.t) :
  Forall (fun r => f r = Null) rs -> present f rs = [].
Proof.
  unfold present. induction 1 as [|r rs Hr _ IH]; simpl; [reflexivity|].
  unfold has_field at 1. rewrite Hr. simpl. exact IH.
Qed.

Lemma mean_of_present_none (f : Sample.t -> value) (rs : list Sample.t) :
  Forall (fun r => f r = Null) rs -> mean_of_present f rs = Null.
Proof. intros H. unfold mean_of_present. rewrite (present_none f rs H). reflexivity. Qed.

Lemma Forall2_map_same {A B : Type} (P : A -> B -> Prop) (f : A -> B) (l : list A) :
  (forall a, P a (f a)) -> Forall2 P l (map f l).
Proof. intros H. induction l; simpl; constructor; auto. Qed.

Lemma cold_entry_means (l : Leaf) (m : metric) :
  entry_field m (cold_entry l) = mean_of_present (sample_field m) (cold_of l).
Proof. destruct m; simpl; apply avg_values_of. Qed.

Lemma warm_entry_means (l : Leaf) (m : metric) :
  m <> Browser_start_time ->
  entry_field m (warm_entry l) = mean_of_present (sample_field m) (warm_of l).
Proof.
  destruct m; intros H; simpl; try apply avg_values_of.
  contradiction H. reflexivity.
Qed.

(** C3, as stated, fails for the browser_start_time of a warm entry.  The
    two warm trials of the scenario carry a browser_start_time of 40, whose
    mean is 40, and the warm entry carries [null].  For the other fields the
    mean is the rounded one: the cold FCP values 412.3, 398.1, 420.9, 405.7
    have the arithmetic mean 409.25, and the entry carries
    409.25000000000006. *)
Lemma warm_start_time_mean_counterexample :
  (exists chart l e,
     calculateMetricsData tree_without_firefox = Ok chart
     /\ leaves tree_without_firefox = [l]
     /\ Chart.warm chart = [e]
     /\ map Sample.browser_start_time (warm_of l) = [Num 40; Num 40]
     /\ mean_of_present (sample_field Browser_start_time) (warm_of l) = Num 40
     /\ entry_field Browser_start_time e = Null)
  /\ (exists chart l e q r,
        calculateMetricsData fractional_tree_reordered = Ok chart
        /\ leaves fractional_tree_reordered = [l]
        /\ Chart.cold chart = [e]
        /\ map Sample.fcp (cold_of l)
           = [Num 412.3; Num 398.1; Num 420.9; Num 405.7]
        /\ exact_mean [412.3; 398.1; 420.9; 405.7] = Some q
        /\ exact 409.25 = Some r /\ (q == r)%Q
        /\ entry_field Fcp e = Num 409.25000000000006
        /\ (409.25000000000006 =? 409.25) = false).
Proof.
  split.
  - do 3 eexists. repeat split; reflexivity.
  - do 5 eexists.
    split; [reflexivity|]. split; [reflexivity|]. split; [reflexivity|].
    split; [reflexivity|].
    split; [vm_compute; reflexivity|].
    split; [vm_compute; reflexivity|].
    split; [vm_compute; reflexivity|].
    split; reflexivity.
Qed.

(** C3, amended.  On a tree all of whose leaves have their cold and warm
    sequences, [calculateMetricsData] returns one cold and one warm entry per
    leaf.  Each of the five fields of the cold entry, and each field of the
    warm entry but browser_start_time, is the mean of that field over the
    samples of the leaf that have it: their numbers added in the order of the
    samples and divided by their count; it is [null] when no sample has the
    field.  The browser_start_time of the warm entry is [null], whatever the
    samples carry. *)
Theorem calculateMetricsData_leaf_means (data : ResultTree) :
  Forall complete (leaves data) ->
  exists chart, calculateMetricsData data = Ok chart /\
    Forall2 (fun l e => forall m,
               entry_field m e = mean_of_present (sample_field m) (cold_of l)
               /\ (Forall (fun r => sample_field m r = Null) (cold_of l) ->
                   entry_field m e = Null))
            (leaves data) (Chart.cold chart) /\
    Forall2 (fun l e =>
               entry_field Browser_start_time e = Null
               /\ forall m, m <> Browser_start_time ->
                    entry_field m e
                    = mean_of_present (sample_field m) (warm_of l)
                    /\ (Forall (fun r => sample_field m r = Null) (warm_of l) ->
                        entry_field m e = Null))
            (leaves data) (Chart.warm chart).
Proof.
  intros H. eexists. split; [apply calculateMetricsData_complete; exact H|].
  simpl. split; apply Forall2_map_same.
  - intros l m. split; [apply cold_entry_means|].
    intros Hn. rewrite cold_entry_means. apply mean_of_present_none, Hn.
  - intros l. split; [reflexivity|]. intros m Hm.
    split; [apply warm_entry_means, Hm|].
    intros Hn. rewrite (warm_entry_means l m Hm).
    apply mean_of_present_none, Hn.
Qed.

(** C10.  Every warm entry that [calculateMetricsData] returns has a [null]
    browser_start_time, whatever the warm samples carry. *)
Theorem calculateMetricsData_warm_start_time_null
    (data : ResultTree) (chart : Chart.t) :
  calculateMetricsData data = Ok chart ->
  Forall (fun e => Entry.browser_start_time e = Null) (Chart.warm chart).
Proof.
  intros H. destruct (all_complete_or_some_incomplete (leaves data)) as [Hc|Hi].
  - rewrite (calculateMetricsData_complete data Hc) in H.
    injection H as <-. simpl. apply Forall_map.
    apply Forall_forall. intros l _. reflexivity.
  - rewrite (calculateMetricsData_incomplete data Hi) in H. discriminate.
Qed.

(** ** The order of the trials *)

Lemma non_null_Permutation (vs vs' : list value) :
  Permutation vs vs' -> Permutation (non_null vs) (non_null vs').
Proof.
  induction 1 as [|v l l' _ IH|v w l|l l' l'' _ IH1 _ IH2]; simpl.
  - constructor.
  - destruct v; [exact IH | constructor; exact IH].
  - destruct v, w; try apply Permutation_refl. apply perm_swap.
  - eapply Permutation_trans; eassumption.
Qed.

Lemma values_of_Permutation (f : Sample.t -> value) (rs rs' : list Sample.t) :
  Permutation rs rs' -> Permutation (values_of f rs) (values_of f rs').
Proof.
  intros H. unfold values_of. apply non_null_Permutation, Permutation_map, H.
Qed.





















Lemma example_tree_complete : Forall complete (leaves example_tree).
Proof. repeat (constructor; [split; discriminate|]). constructor. Qed.

Lemma calculateMetricsData_leaf_means_witness :
  Forall complete (leaves example_tree) /\
  exists chart, calculateMetricsData example_tree = Ok chart /\
    Forall2 (fun l e => forall m,
               entry_field m e = mean_of_present (sample_field m) (cold_of l)
               /\ (Forall (fun r => sample_field m r = Null) (cold_of l) ->
                   entry_field m e = Null))
            (leaves example_tree) (Chart.cold chart) /\
    Forall2 (fun l e =>
               entry_field Browser_start_time e = Null
               /\ forall m, m <> Browser_start_time ->
                    entry_field m e
                    = mean_of_present (sample_field m) (warm_of l)
                    /\ (Forall (fun r => sample_field m r = Null) (warm_of l) ->
                        entry_field m e = Null))
            (leaves example_tree) (Chart.warm chart).
Proof.
  split; [exact example_tree_complete|].
  exact (calculateMetricsData_leaf_means example_tree example_tree_complete).
Defined.

(** The specification's scenario: the cold FCP average is 200, the [null]
    sample left out, and the warm FCP average is 55. *)
Example scenario_averages :
  exists chart, calculateMetricsData tree_without_firefox = Ok chart /\
    map Entry.label (Chart.cold chart) = ["Chrome JS_on example.com"%string] /\
    map Entry.fcp (Chart.cold chart) = [Num 200] /\
    map Entry.fcp (Chart.warm chart) = [Num 55].
Proof. eexists. repeat split; reflexivity. Qed.

(** The warm samples of the example carry a browser_start_time of 40, and the
    warm entries carry none. *)
Lemma calculateMetricsData_warm_start_time_null_witness :
  exists chart, calculateMetricsData example_tree = Ok chart /\
    Forall (fun e => Entry.browser_start_time e = Null) (Chart.warm chart).
Proof.
  eexists. split; [reflexivity|].
  apply (calculateMetricsData_warm_start_time_null example_tree). reflexivity.
Defined.


(** ** calculateCumulativeStats, loop by loop *)

Lemma non_null_app (vs ws : list value) :
  non_null (vs ++ ws) = non_null vs ++ non_null ws.
Proof.
  induction vs as [|[|q] vs IH]; simpl; [reflexivity|exact IH|].
  rewrite IH. reflexivity.
Qed.

Lemma values_of_app (f : Sample.t -> value) (rs rs' : list Sample.t) :
  values_of f (rs ++ rs') = values_of f rs ++ values_of f rs'.
Proof. unfold values_of. rewrite map_app. apply non_null_app. Qed.

Lemma all_samples_app (a b : list Leaf) :
  all_samples (a ++ b) = all_samples a ++ all_samples b.
Proof. apply flat_map_app. Qed.

Lemma js_on_samples_app (a b : list Leaf) :
  js_on_samples (a ++ b) = js_on_samples a ++ js_on_samples b.
Proof. unfold js_on_samples. rewrite filter_app. apply all_samples_app. Qed.

Lemma js_off_samples_app (a b : list Leaf) :
  js_off_samples (a ++ b) = js_off_samples a ++ js_off_samples b.
Proof. unfold js_off_samples. rewrite filter_app. apply all_samples_app. Qed.

Lemma extend_pools_nil (p : Pools.t) : extend_pools p [] = p.
Proof. destruct p. unfold extend_pools; simpl. rewrite !app_nil_r. reflexivity. Qed.

Lemma extend_pools_app (p : Pools.t) (a b : list Leaf) :
  extend_pools (extend_pools p a) b = extend_pools p (a ++ b).
Proof.
  unfold extend_pools, cold_samples, warm_samples; simpl.
  rewrite all_samples_app, js_on_samples_app, js_off_samples_app, !flat_map_app.
  rewrite !values_of_app, !app_assoc. reflexivity.
Qed.

Lemma collect_site_complete (browser jsLabel url : string) (b : Buckets.t)
    (p : Pools.t) :
  Forall complete [mkLeaf browser jsLabel url b] ->
  collect_site jsLabel b p = Ok (extend_pools p [mkLeaf browser jsLabel url b]).
Proof.
  intros H. inversion H as [|? ? [Hc Hw] _]; subst. simpl in Hc, Hw.
  unfold collect_site.
  rewrite !(column_samples _ _ Hc), !(column_samples _ _ Hw). simpl.
  unfold extend_pools, js_on_samples, js_off_samples, cold_samples, warm_samples,
    all_samples, is_js_on, cold_of, warm_of; simpl.
  destruct (String.eqb jsLabel "JS_on"); simpl;
    rewrite ?app_nil_r, ?values_of_app; reflexivity.
Qed.

Lemma collect_site_incomplete (browser jsLabel url : string) (b : Buckets.t)
    (p : Pools.t) :
  Exists incomplete [mkLeaf browser jsLabel url b] ->
  collect_site jsLabel b p = Throw TypeError.
Proof.
  intros H. inversion H as [? ? Hl|? ? Hl]; subst; [|inversion Hl].
  unfold incomplete in Hl; simpl in Hl. unfold collect_site.
  destruct (Buckets.cold b) as [rc|]; [|reflexivity].
  destruct Hl as [Hl|Hl]; [discriminate|]. rewrite Hl. reflexivity.
Qed.

Lemma collect_browser_complete (browser : string) (jsBuckets : JsBuckets) :
  Forall complete (browser_leaves browser jsBuckets) ->
  collect_browser jsBuckets
  = Ok (extend_pools Pools.empty (browser_leaves browser jsBuckets)).
Proof.
  intros H. unfold collect_browser.
  apply (for_entries_extend extend_pools extend_pools_nil extend_pools_app
           complete (site_leaves browser)); [|exact H].
  intros jsLabel sites p Hs.
  apply (for_entries_extend extend_pools extend_pools_nil extend_pools_app
           complete (fun url b => [mkLeaf browser jsLabel url b])); [|exact Hs].
  intros url b p'. apply collect_site_complete.
Qed.

Lemma collect_browser_incomplete (browser : string) (jsBuckets : JsBuckets) :
  Exists incomplete (browser_leaves browser jsBuckets) ->
  collect_browser jsBuckets = Throw TypeError.
Proof.
  intros H. unfold collect_browser.
  apply (for_entries_throw incomplete (site_leaves browser)); [|exact H].
  intros jsLabel sites p Hs.
  apply (for_entries_throw incomplete (fun url b => [mkLeaf browser jsLabel url b]));
    [|exact Hs].
  intros url b p'. apply collect_site_incomplete.
Qed.

Lemma calculateCumulativeStats_loop (data : ResultTree) (stats : CumulativeStats) :
  Forall complete (leaves data) ->
  for_entries data
    (fun browser jsBuckets stats =>
       p <- collect_browser jsBuckets ;;
       Ok (set stats browser (stats_of_pools p)))
    stats
  = Ok (fold_left record_browser data stats).
Proof.
  revert stats. induction data as [|[browser jsBuckets] rest IH]; intros stats H.
  - reflexivity.
  - simpl in H. apply Forall_app in H. destruct H as [Hb Hrest]. simpl.
    rewrite (collect_browser_complete browser jsBuckets Hb). simpl.
    apply IH. exact Hrest.
Qed.

Lemma calculateCumulativeStats_complete (data : ResultTree) :
  Forall complete (leaves data) ->
  calculateCumulativeStats data = Ok (fold_left record_browser data []).
Proof. apply calculateCumulativeStats_loop. Qed.

Lemma calculateCumulativeStats_incomplete (data : ResultTree) :
  Exists incomplete (leaves data) ->
  calculateCumulativeStats data = Throw TypeError.
Proof.
  intros H. unfold calculateCumulativeStats.
  apply (for_entries_throw incomplete browser_leaves); [|exact H].
  intros browser jsBuckets stats Hb.
  rewrite (collect_browser_incomplete browser jsBuckets Hb). reflexivity.
Qed.

(** ** Reading the statistics of a browser *)

Lemma get_set_eq {V : Type} (o : object V) (key : string) (v : V) :
  get (set o key v) key = Some v.
Proof.
  induction o as [|[k w] rest IH]; simpl.
  - rewrite String.eqb_refl. reflexivity.
  - destruct (String.eqb k key) eqn:E; simpl; rewrite E; [reflexivity|exact IH].
Qed.

Lemma get_set_ne {V : Type} (o : object V) (key key' : string) (v : V) :
  key <> key' -> get (set o key v) key' = get o key'.
Proof.
  intros Hne. induction o as [|[k w] rest IH]; simpl.
  - destruct (String.eqb_spec key key'); [contradiction|reflexivity].
  - destruct (String.eqb_spec k key) as [->|Hk]; simpl.
    + destruct (String.eqb_spec key key'); [contradiction|reflexivity].
    + rewrite IH. reflexivity.
Qed.

Lemma get_record_other (data : ResultTree) (stats : CumulativeStats) (key : string) :
  ~ In key (keys data) ->
  get (fold_left record_browser data stats) key = get stats key.
Proof.
  revert stats. induction data as [|[b jsb] rest IH]; intros stats Hnot; simpl.
  - reflexivity.
  - rewrite IH.
    + unfold record_browser; simpl. apply get_set_ne.
      intros ->. apply Hnot. left. reflexivity.
    + intros Hin. apply Hnot. right. exact Hin.
Qed.

Lemma get_record_browser (data : ResultTree) (stats : CumulativeStats)
    (browser : string) (jsBuckets : JsBuckets) :
  NoDup (keys data) -> In (browser, jsBuckets) data ->
  get (fold_left record_browser data stats) browser
  = Some (browser_summary browser jsBuckets).
Proof.
  revert stats. induction data as [|[b jsb] rest IH]; intros stats Hnd Hin.
  - destruct Hin.
  - simpl in Hnd. inversion Hnd as [|? ? Hnot Hnd']; subst. simpl.
    destruct Hin as [Heq|Hin].
    + injection Heq as -> ->. rewrite (get_record_other _ _ _ Hnot).
      unfold record_browser; simpl. apply get_set_eq.
    + apply IH; assumption.
Qed.

(** ** Pools *)

Lemma all_samples_cold_warm (ls : list Leaf) :
  Permutation (all_samples ls) (cold_samples ls ++ warm_samples ls).
Proof.
  induction ls as [|l ls IH]; simpl.
  - constructor.
  - rewrite <- !app_assoc. apply Permutation_app_head.
    rewrite IH. apply Permutation_app_swap_app.
Qed.


Lemma present_app (f : Sample.t -> value) (rs rs' : list Sample.t) :
  present f (rs ++ rs') = present f rs ++ present f rs'.
Proof. unfold present. rewrite filter_app, map_app. reflexivity. Qed.

Lemma present_Permutation (f : Sample.t -> value) (rs rs' : list Sample.t) :
  Permutation rs rs' -> Permutation (present f rs) (present f rs').
Proof.
  intros H. rewrite <- !values_of_present. apply values_of_Permutation, H.
Qed.

(** C2, as stated, fails in the last digit.  With two sites the overall
    pool holds the values in the order of their collection, site by site:
    372.2, 182.2, 2523.7, 1355.  Its mean, as stored, differs from the mean
    of the cold pool 372.2, 2523.7 followed by the warm pool 182.2, 1355,
    and the arithmetic mean of the four values lies between the two. *)
Lemma overall_pool_order_counterexample :
  exists stats s,
    calculateCumulativeStats two_sites_tree = Ok stats
    /\ get stats "Chrome" = Some s
    /\ Pair.fcp (Stats.cold s) = avg [372.2; 2523.7]
    /\ Pair.fcp (Stats.warm s) = avg [182.2; 1355]
    /\ Pair.fcp (Stats.overall s) = Num 1108.2750000000001
    /\ avg ([372.2; 2523.7] ++ [182.2; 1355]) = Num 1108.2749999999999
    /\ ~ Num 1108.2750000000001 =v= Num 1108.2749999999999
    /\ exists q lo hi,
         exact_mean [372.2; 2523.7; 182.2; 1355] = Some q
         /\ exact 1108.2749999999999 = Some lo
         /\ exact 1108.2750000000001 = Some hi
         /\ (lo < q)%Q /\ (q < hi)%Q.
Proof.
  do 2 eexists. split; [reflexivity|]. split; [reflexivity|].
  split; [reflexivity|]. split; [reflexivity|]. split; [reflexivity|].
  split; [reflexivity|]. split.
  - intros [E|E].
    + apply (f_equal Prim2SF) in E. vm_compute in E. discriminate.
    + vm_compute in E. discriminate.
  - do 3 eexists.
    split; [vm_compute; reflexivity|].
    split; [vm_compute; reflexivity|].
    split; [vm_compute; reflexivity|].
    split; vm_compute; reflexivity.
Qed.

(** C2, amended.  For every browser of a tree whose leaves are complete, the
    overall FCP (load) that [calculateCumulativeStats] stores is the mean of
    one pool: the FCP (load) values of all the browser's samples that have
    one, of every JS-state and every URL, cold and warm together, in the
    order of their collection; the mean is the sum of the pool, added in
    this order, divided by its count, [null] for an empty pool.  The pool
    holds the values of the cold pool and of the warm pool, those whose
    means are stored as cold and warm, and no other.  The overall mean is
    not the mean of the two means: on cold samples 100, 200, 300 and warm
    samples 400, 500 the overall FCP is 300, the cold and warm means are 200
    and 450, and their mean is 325. *)
Theorem overall_is_mean_of_pooled_samples :
  (forall (data : ResultTree) (browser : string) (jsBuckets : JsBuckets),
     NoDup (keys data) ->
     In (browser, jsBuckets) data ->
     Forall complete (leaves data) ->
     exists stats s,
       calculateCumulativeStats data = Ok stats /\
       get stats browser = Some s /\
       forall m : metric2,
         let ls := browser_leaves browser jsBuckets in
         pair_field m (Stats.overall s)
         = mean_value (present (raw m) (all_samples ls))
         /\ pair_field m (Stats.cold s)
            = mean_value (present (raw m) (cold_samples ls))
         /\ pair_field m (Stats.warm s)
            = mean_value (present (raw m) (warm_samples ls))
         /\ Permutation (present (raw m) (all_samples ls))
                        (present (raw m) (cold_samples ls)
                         ++ present (raw m) (warm_samples ls)))
  /\
  (exists stats s,
     calculateCumulativeStats unequal_pools_tree = Ok stats /\
     get stats "Chrome" = Some s /\
     Pair.fcp (Stats.overall s) = Num 300 /\
     Pair.fcp (Stats.cold s) = Num 200 /\
     Pair.fcp (Stats.warm s) = Num 450 /\
     mean [200; 450] = 325 /\
     (300 =? 325) = false).
Proof.
  split.
  - intros data browser jsBuckets Hnd Hin Hc.
    exists (fold_left record_browser data []), (browser_summary browser jsBuckets).
    split; [apply calculateCumulativeStats_complete; exact Hc|].
    split; [apply get_record_browser; assumption|].
    intros m ls. subst ls.
    rewrite <- !values_of_present, <- !avg_mean_value.
    repeat split; try (destruct m; reflexivity).
    rewrite !values_of_present, <- present_app.
    apply present_Permutation, all_samples_cold_warm.
  - eexists. eexists. repeat split; reflexivity.
Qed.

Lemma overall_is_mean_of_pooled_samples_witness :
  NoDup (keys example_tree) /\
  In ("Chrome"%string, [("JS_on"%string, [("https://example.com/"%string, example_buckets)]);
                        ("JS_off"%string, [("https://example.com/"%string, firefox_buckets)])])
     example_tree /\
  Forall complete (leaves example_tree) /\
  exists stats s,
    calculateCumulativeStats example_tree = Ok stats /\
    get stats "Chrome" = Some s /\
    Pair.fcp (Stats.overall s) = mean_value [100; 200; 300; 50; 60; 150; 70] /\
    Pair.fcp (Stats.cold s) = mean_value [100; 200; 300; 150] /\
    Pair.fcp (Stats.warm s) = mean_value [50; 60; 70].
Proof.
  assert (Hnd : NoDup (keys example_tree)).
  { repeat constructor; simpl; intuition discriminate. }
  split; [exact Hnd|]. split; [left; reflexivity|].
  split; [exact example_tree_complete|].
  destruct (proj1 overall_is_mean_of_pooled_samples example_tree "Chrome"%string _
              Hnd (or_introl eq_refl) example_tree_complete)
    as (stats & s & Hs & Hg & Hm).
  exists stats, s. split; [exact Hs|]. split; [exact Hg|].
  destruct (Hm FCP) as (Ho & Hcold & Hwarm & _).
  split; [exact Ho|]. split; [exact Hcold|exact Hwarm].
Defined.

(** The specification's second scenario: the cold pool of two URLs, 100, 200,
    300 and 400, 500, has the mean 300, not the mean 325 of the two means. *)
Example scenario_cumulative_cold :
  avg ([100; 200; 300] ++ [400; 500]) = Num 300.
Proof. reflexivity. Qed.

(** ** Trees with keys missing *)

(** C6, as stated, fails: the tree has no Firefox key (and Chrome has no
    JS_off key), and both functions return, the output computed from the
    keys that are there. *)
Lemma missing_key_counterexample :
  ~ In "Firefox"%string (keys tree_without_firefox) /\
  (exists chart, calculateMetricsData tree_without_firefox = Ok chart
                 /\ length (Chart.cold chart) = 1%nat) /\
  (exists stats, calculateCumulativeStats tree_without_firefox = Ok stats
                 /\ keys stats = ["Chrome"%string]).
Proof.
  split; [simpl; intuition discriminate|].
  split; eexists; (split; [reflexivity|reflexivity]).
Qed.

(** C6, amended.  [calculateMetricsData] and [calculateCumulativeStats] raise
    (a TypeError) exactly when some leaf of the tree lacks its cold or its
    warm key.  Which browser, JS-state and URL keys are there is not checked:
    when every leaf that is there has both cache-state keys, both functions
    return. *)
Theorem aggregator_raises_iff_cache_key_missing (data : ResultTree) :
  (calculateMetricsData data = Throw TypeError <-> Exists incomplete (leaves data))
  /\ (calculateCumulativeStats data = Throw TypeError
      <-> Exists incomplete (leaves data))
  /\ (Forall complete (leaves data) ->
      exists chart stats,
        calculateMetricsData data = Ok chart
        /\ calculateCumulativeStats data = Ok stats).
Proof.
  repeat split.
  - intros H. destruct (all_complete_or_some_incomplete (leaves data)) as [Hc|Hi];
      [|exact Hi].
    rewrite (calculateMetricsData_complete data Hc) in H. discriminate.
  - apply calculateMetricsData_incomplete.
  - intros H. destruct (all_complete_or_some_incomplete (leaves data)) as [Hc|Hi];
      [|exact Hi].
    rewrite (calculateCumulativeStats_complete data Hc) in H. discriminate.
  - apply calculateCumulativeStats_incomplete.
  - intros Hc. eexists. eexists. split.
    + apply calculateMetricsData_complete. exact Hc.
    + apply calculateCumulativeStats_complete. exact Hc.
Qed.

Lemma aggregator_raises_iff_cache_key_missing_witness :
  Exists incomplete (leaves tree_without_warm) /\
  calculateMetricsData tree_without_warm = Throw TypeError /\
  calculateCumulativeStats tree_without_warm = Throw TypeError.
Proof.
  assert (H : Exists incomplete (leaves tree_without_warm)).
  { apply Exists_cons_hd. right. reflexivity. }
  split; [exact H|]. split.
  - exact (proj2 (proj1 (aggregator_raises_iff_cache_key_missing tree_without_warm)) H).
  - exact (proj2 (proj1 (proj2 (aggregator_raises_iff_cache_key_missing tree_without_warm))) H).
Defined.

(** ** The store: what a call may write *)

Lemma length_update (l : nat) (c : Heap.cell) (h : Heap.heap) :
  length (Heap.update l c h) = length h.
Proof.
  revert l; induction h as [|c0 h IH]; intros [|l]; simpl; auto.
Qed.

Lemma firstn_update (n l : nat) (c : Heap.cell) (h : Heap.heap) :
  (n <= l)%nat -> firstn n (Heap.update l c h) = firstn n h.
Proof.
  revert n l; induction h as [|c0 h IH]; intros n l Hle.
  - destruct l; reflexivity.
  - destruct l as [|l].
    + assert (n = 0%nat) by lia. subst. reflexivity.
    + destruct n as [|n]; [reflexivity|]. simpl. rewrite IH by lia. reflexivity.
Qed.

Lemma nth_error_update_eq (l : nat) (c : Heap.cell) (h : Heap.heap) :
  (l < length h)%nat -> nth_error (Heap.update l c h) l = Some c.
Proof.
  revert l; induction h as [|c0 h IH]; intros l Hlt; simpl in Hlt; [lia|].
  destruct l as [|l]; simpl; [reflexivity|]. apply IH. lia.
Qed.

Lemma nth_error_update_ne (l l' : nat) (c : Heap.cell) (h : Heap.heap) :
  l <> l' -> nth_error (Heap.update l c h) l' = nth_error h l'.
Proof.
  revert l l'; induction h as [|c0 h IH]; intros l l' Hne.
  - destruct l; reflexivity.
  - destruct l as [|l], l' as [|l']; simpl; try reflexivity; try congruence.
    apply IH. congruence.
Qed.

Lemma in_set {V : Type} (o : object V) (key : string) (v : V) (kv : string * V) :
  In kv (set o key v) -> In kv o \/ snd kv = v.
Proof.
  induction o as [|[k w] rest IH]; simpl.
  - intros [<-|[]]. right. reflexivity.
  - destruct (String.eqb k key); simpl.
    + intros [<-|H]; [right; reflexivity | left; right; exact H].
    + intros [<-|H]; [left; left; reflexivity|].
      destruct (IH H) as [H'|H']; [left; right; exact H' | right; exact H'].
Qed.

Lemma frame_safe_ret (n : nat) {A : Type} (a : A) (Q : A -> Prop) :
  Q a -> frame_safe n (Heap.ret a) Q.
Proof.
  intros HQ h Hn HJ. simpl. repeat split; auto.
  intros a' [= <-]. exact HQ.
Qed.



Lemma frame_safe_bind (n : nat) {A B : Type} (c : Heap.M A) (k : A -> Heap.M B)
    (P : A -> Prop) (Q : B -> Prop) :
  frame_safe n c P -> (forall a, P a -> frame_safe n (k a) Q) ->
  frame_safe n (Heap.bind c k) Q.
Proof.
  intros Hc Hk h Hn HJ. unfold Heap.bind.
  destruct (Hc h Hn HJ) as (Hf & Hl & HJ' & HP).
  destruct (c h) as [[a|e] h'] eqn:E; simpl in *.
  - destruct (Hk a (HP a eq_refl) h') as (Hf2 & Hl2 & HJ2 & HQ); [lia|exact HJ'|].
    repeat split; [congruence|lia|exact HJ2|exact HQ].
  - repeat split; auto. intros b [=].
Qed.

Lemma closed_above_app (n : nat) (h : Heap.heap) (c : Heap.cell) :
  closed_above n h ->
  (forall props, c = Heap.Object props -> Forall (fun kv => fresh n (snd kv)) props) ->
  closed_above n (h ++ [c]).
Proof.
  intros HJ Hc l props Hl Hnth.
  destruct (Nat.lt_ge_cases l (length h)) as [Hlt|Hge].
  - rewrite nth_error_app1 in Hnth by exact Hlt. eapply HJ; eassumption.
  - rewrite nth_error_app2 in Hnth by exact Hge.
    destruct (l - length h)%nat as [|m]; simpl in Hnth.
    + injection Hnth as ->. apply Hc. reflexivity.
    + destruct m; discriminate.
Qed.

Lemma frame_safe_new (n : nat) (c : Heap.cell) :
  (forall props, c = Heap.Object props -> Forall (fun kv => fresh n (snd kv)) props) ->
  frame_safe n (Heap.new c) (fresh n).
Proof.
  intros Hc h Hn HJ. unfold Heap.new; simpl. repeat split.
  - rewrite firstn_app. replace (n - length h)%nat with 0%nat by lia.
    simpl. apply app_nil_r.
  - rewrite length_app. simpl. lia.
  - apply closed_above_app; assumption.
  - intros a [= <-]. simpl. exact Hn.
Qed.

Lemma get_In {V : Type} (o : object V) (key : string) (x : V) :
  get o key = Some x -> In (key, x) o.
Proof.
  induction o as [|[k w] rest IH]; simpl; [discriminate|].
  destruct (String.eqb_spec k key) as [->|Hne].
  - intros [= ->]. left. reflexivity.
  - intros H. right. apply IH. exact H.
Qed.

Lemma frame_safe_prop (n : nat) (v : Heap.val) (key : string) :
  fresh n v -> frame_safe n (Heap.prop v key) (fresh n).
Proof.
  intros Hv h Hn HJ.
  assert (Hsnd : snd (Heap.prop v key h) = h).
  { unfold Heap.prop. destruct v as [| | | |l|]; try reflexivity.
    destruct (nth_error h l) as [[|props]|]; reflexivity. }
  rewrite Hsnd. split; [reflexivity|]. split; [lia|]. split; [exact HJ|].
  intros a. unfold Heap.prop.
  destruct v as [| | | |l|]; simpl; try (intros [= <-]; exact I);
    try discriminate.
  destruct (nth_error h l) as [[|props]|] eqn:E; simpl;
    try (intros [= <-]; exact I).
  destruct (get props key) as [x|] eqn:G; intros [= <-]; [|exact I].
  specialize (HJ l props Hv E). rewrite Forall_forall in HJ.
  exact (HJ _ (get_In _ _ _ G)).
Qed.

Lemma frame_safe_read (n : nat) {A : Type} (c : Heap.M A) :
  (forall h, snd (c h) = h) -> frame_safe n c anything.
Proof.
  intros Hc h Hn HJ. rewrite Hc. repeat split; auto.
Qed.

Lemma prop_reads (v : Heap.val) (key : string) (h : Heap.heap) :
  snd (Heap.prop v key h) = h.
Proof.
  unfold Heap.prop. destruct v as [| | | |l|]; try reflexivity.
  destruct (nth_error h l) as [[|props]|]; reflexivity.
Qed.

Lemma entries_reads (v : Heap.val) (h : Heap.heap) : snd (Heap.entries v h) = h.
Proof.
  unfold Heap.entries. destruct v as [| | | |l|]; try reflexivity.
  destruct (nth_error h l) as [[|props]|]; reflexivity.
Qed.

Lemma elements_reads (v : Heap.val) (h : Heap.heap) : snd (Heap.elements v h) = h.
Proof.
  unfold Heap.elements. destruct v as [| | | |l|]; try reflexivity.
  destruct (nth_error h l) as [[|props]|]; reflexivity.
Qed.

Lemma frame_safe_push (n : nat) (v : Heap.val) (items : list Heap.val) :
  fresh n v -> frame_safe n (Heap.push v items) anything.
Proof.
  intros Hv h Hn HJ. unfold Heap.push.
  destruct v as [| | | |l|]; simpl; try (repeat split; auto; fail).
  destruct (nth_error h l) as [[elems|props]|] eqn:E; simpl;
    try (repeat split; auto; fail).
  simpl in Hv. repeat split.
  - apply firstn_update. exact Hv.
  - rewrite length_update. lia.
  - intros l' props Hl' Hnth. destruct (Nat.eq_dec l l') as [<-|Hne].
    + rewrite nth_error_update_eq in Hnth; [discriminate|].
      apply nth_error_Some. congruence.
    + rewrite nth_error_update_ne in Hnth by exact Hne. eapply HJ; eassumption.
Qed.

Lemma frame_safe_assign (n : nat) (v : Heap.val) (key : string) (x : Heap.val) :
  fresh n v -> fresh n x -> frame_safe n (Heap.assign v key x) anything.
Proof.
  intros Hv Hx h Hn HJ. unfold Heap.assign.
  destruct v as [| | | |l|]; simpl; try (repeat split; auto; fail).
  destruct (nth_error h l) as [[elems|props]|] eqn:E; simpl;
    try (repeat split; auto; fail).
  simpl in Hv. repeat split.
  - apply firstn_update. exact Hv.
  - rewrite length_update. lia.
  - intros l' props' Hl' Hnth. destruct (Nat.eq_dec l l') as [<-|Hne].
    + rewrite nth_error_update_eq in Hnth by (apply nth_error_Some; congruence).
      injection Hnth as <-. apply Forall_forall. intros kv Hin.
      destruct (in_set _ _ _ _ Hin) as [Hold| ->]; [|exact Hx].
      specialize (HJ l props Hv E). rewrite Forall_forall in HJ. exact (HJ _ Hold).
    + rewrite nth_error_update_ne in Hnth by exact Hne. eapply HJ; eassumption.
Qed.

Lemma frame_safe_for_of (n : nat) {V : Type} (items : list V)
    (body : V -> Heap.M unit) :
  (forall x, frame_safe n (body x) anything) ->
  frame_safe n (Heap.for_of items body) anything.
Proof.
  intros Hbody. induction items as [|x rest IH]; simpl.
  - apply frame_safe_ret. exact I.
  - eapply frame_safe_bind; [apply Hbody|]. intros _ _. exact IH.
Qed.

Lemma frame_safe_map_M (n : nat) (f : Heap.val -> Heap.M Heap.val)
    (es : list Heap.val) :
  (forall e, frame_safe n (f e) anything) ->
  frame_safe n (Heap.map_M f es) anything.
Proof.
  intros Hf. induction es as [|e rest IH]; simpl.
  - apply frame_safe_ret. exact I.
  - eapply frame_safe_bind; [apply Hf|]. intros x _.
    eapply frame_safe_bind; [exact IH|]. intros xs _.
    apply frame_safe_ret. exact I.
Qed.

Lemma frame_safe_entries (n : nat) (v : Heap.val) :
  frame_safe n (Heap.entries v) anything.
Proof. apply frame_safe_read, entries_reads. Qed.

Lemma frame_safe_elements (n : nat) (v : Heap.val) :
  frame_safe n (Heap.elements v) anything.
Proof. apply frame_safe_read, elements_reads. Qed.

Lemma frame_safe_prop_any (n : nat) (v : Heap.val) (key : string) :
  frame_safe n (Heap.prop v key) anything.
Proof. apply frame_safe_read, prop_reads. Qed.

Lemma frame_safe_new_array (n : nat) (elems : list Heap.val) :
  frame_safe n (Heap.new (Heap.Array elems)) (fresh n).
Proof. apply frame_safe_new. intros props [=]. Qed.

Lemma frame_safe_new_object (n : nat) (props : list (string * Heap.val)) :
  Forall (fun kv => fresh n (snd kv)) props ->
  frame_safe n (Heap.new (Heap.Object props)) (fresh n).
Proof. intros H. apply frame_safe_new. intros props' [= <-]. exact H. Qed.

Lemma frame_safe_array_map (n : nat) (v : Heap.val)
    (f : Heap.val -> Heap.M Heap.val) :
  (forall e, frame_safe n (f e) anything) ->
  frame_safe n (Heap.array_map v f) (fresh n).
Proof.
  intros Hf. unfold Heap.array_map.
  eapply frame_safe_bind; [apply frame_safe_elements|]. intros es _.
  eapply frame_safe_bind; [apply frame_safe_map_M, Hf|]. intros xs _.
  apply frame_safe_new_array.
Qed.

Lemma frame_safe_array_filter (n : nat) (v : Heap.val) (p : Heap.val -> bool) :
  frame_safe n (Heap.array_filter v p) (fresh n).
Proof.
  unfold Heap.array_filter.
  eapply frame_safe_bind; [apply frame_safe_elements|]. intros es _.
  apply frame_safe_new_array.
Qed.

Lemma fresh_js_div (n : nat) (a b : Heap.val) : fresh n (Heap.js_div a b).
Proof. destruct a, b; exact I. Qed.

Lemma fresh_js_sub (n : nat) (a b : Heap.val) : fresh n (Heap.js_sub a b).
Proof. destruct a, b; exact I. Qed.

Lemma frame_safe_avg (n : nat) (v : Heap.val) :
  frame_safe n (Heap.avg v) (fresh n).
Proof.
  unfold Heap.avg.
  eapply frame_safe_bind; [apply frame_safe_elements|]. intros es _.
  apply frame_safe_ret.
  destruct (negb (Nat.eqb (length es) 0)); [apply fresh_js_div | exact I].
Qed.

Lemma frame_safe_leaf_values (n : nat) (b : Heap.val) (cache field : string) :
  frame_safe n (Heap.leaf_values b cache field) (fresh n).
Proof.
  unfold Heap.leaf_values.
  eapply frame_safe_bind; [apply frame_safe_prop_any|]. intros arr _.
  eapply frame_safe_bind;
    [apply frame_safe_array_map; intros e; apply frame_safe_prop_any|].
  intros mapped _. apply frame_safe_array_filter.
Qed.

Lemma frame_safe_leaf_avg (n : nat) (b : Heap.val) (cache field : string) :
  frame_safe n (Heap.leaf_avg b cache field) (fresh n).
Proof.
  unfold Heap.leaf_avg.
  eapply frame_safe_bind; [apply frame_safe_leaf_values|]. intros vals _.
  apply frame_safe_avg.
Qed.

Lemma frame_safe_push_spread (n : nat) (target a : Heap.val) :
  fresh n target -> frame_safe n (Heap.push_spread target a) anything.
Proof.
  intros Ht. unfold Heap.push_spread.
  eapply frame_safe_bind; [apply frame_safe_elements|]. intros xs _.
  apply frame_safe_push, Ht.
Qed.

Lemma frame_safe_push_spread2 (n : nat) (target a b : Heap.val) :
  fresh n target -> frame_safe n (Heap.push_spread2 target a b) anything.
Proof.
  intros Ht. unfold Heap.push_spread2.
  eapply frame_safe_bind; [apply frame_safe_elements|]. intros xs _.
  eapply frame_safe_bind; [apply frame_safe_elements|]. intros ys _.
  apply frame_safe_push, Ht.
Qed.

Lemma frame_safe_store_avg (n : nat) (stats : Heap.val)
    (browser group field : string) (pool : Heap.val) :
  fresh n stats ->
  frame_safe n (Heap.store_avg stats browser group field pool) anything.
Proof.
  intros Hs. unfold Heap.store_avg.
  eapply frame_safe_bind; [apply frame_safe_prop, Hs|]. intros sb Hsb.
  eapply frame_safe_bind; [apply frame_safe_prop, Hsb|]. intros g Hg.
  eapply frame_safe_bind; [apply frame_safe_avg|]. intros a Ha.
  apply frame_safe_assign; assumption.
Qed.

Lemma frame_safe_zero_pair (n : nat) : frame_safe n Heap.zero_pair (fresh n).
Proof. apply frame_safe_new_object. repeat constructor. Qed.

Lemma frame_safe_difference (n : nat) (stats : Heap.val)
    (b g1 b' g2 field : string) :
  frame_safe n (Heap.difference stats b g1 b' g2 field) (fresh n).
Proof.
  unfold Heap.difference.
  do 6 (eapply frame_safe_bind; [apply frame_safe_prop_any|]; intros ? _).
  apply frame_safe_ret, fresh_js_sub.
Qed.

Lemma frame_safe_difference_pair (n : nat) (stats : Heap.val)
    (b g1 b' g2 : string) :
  frame_safe n (Heap.difference_pair stats b g1 b' g2) (fresh n).
Proof.
  unfold Heap.difference_pair.
  eapply frame_safe_bind; [apply frame_safe_difference|]. intros f Hf.
  eapply frame_safe_bind; [apply frame_safe_difference|]. intros l Hl.
  apply frame_safe_new_object. repeat constructor; assumption.
Qed.

(** One step of a sequence: the rule of the first statement, then the
    rest. *)
Ltac frame_step :=
  eapply frame_safe_bind;
  [ first [ apply frame_safe_new_array
          | apply frame_safe_zero_pair
          | apply frame_safe_leaf_avg
          | apply frame_safe_leaf_values
          | apply frame_safe_difference_pair
          | apply frame_safe_entries
          | apply frame_safe_new_object; repeat constructor; simpl; assumption
          | apply frame_safe_push; assumption
          | apply frame_safe_assign; assumption
          | apply frame_safe_push_spread; assumption
          | apply frame_safe_push_spread2; assumption
          | apply frame_safe_store_avg; assumption ]
  | intros ? ? ].

Lemma frame_safe_for_sites (n : nat) (sites : Heap.val)
    (body : string -> Heap.val -> Heap.M unit) :
  (forall url b, frame_safe n (body url b) anything) ->
  frame_safe n (Heap.for_sites sites body) anything.
Proof.
  intros Hbody. unfold Heap.for_sites. frame_step.
  apply frame_safe_for_of. intros [url b]. apply Hbody.
Qed.

Lemma frame_safe_for_labels (n : nat) (jsBuckets : Heap.val)
    (body : string -> string -> Heap.val -> Heap.M unit) :
  (forall jsLabel url b, frame_safe n (body jsLabel url b) anything) ->
  frame_safe n (Heap.for_labels jsBuckets body) anything.
Proof.
  intros Hbody. unfold Heap.for_labels. frame_step.
  apply frame_safe_for_of. intros [jsLabel sites].
  apply frame_safe_for_sites. intros url b. apply Hbody.
Qed.

Lemma frame_safe_metrics_of_site (n : nat) (coldData warmData : Heap.val)
    (browser jsLabel url : string) (b : Heap.val) :
  fresh n coldData -> fresh n warmData ->
  frame_safe n (Heap.metrics_of_site coldData warmData browser jsLabel url b)
    anything.
Proof.
  intros Hc Hw.
  unfold Heap.metrics_of_site, Heap.coldMetrics, Heap.warmMetrics. cbv zeta.
  eapply frame_safe_bind.
  { repeat frame_step. apply frame_safe_new_object.
    repeat constructor; simpl; assumption. }
  intros c Hfc. frame_step.
  eapply frame_safe_bind.
  { repeat frame_step. apply frame_safe_new_object.
    repeat constructor; simpl; assumption. }
  intros w Hfw. apply frame_safe_push. assumption.
Qed.

Lemma frame_safe_calculateMetricsData (n : nat) (data : Heap.val) :
  frame_safe n (Heap.calculateMetricsData data) (fresh n).
Proof.
  unfold Heap.calculateMetricsData.
  repeat frame_step.
  eapply frame_safe_bind.
  - apply frame_safe_for_of. intros [browser jsBuckets].
    apply frame_safe_for_labels. intros jsLabel url b.
    apply frame_safe_metrics_of_site; assumption.
  - intros _ _. apply frame_safe_new_object. repeat constructor; assumption.
Qed.

Lemma frame_safe_new_pools (n : nat) : frame_safe n Heap.new_pools (fresh_pools n).
Proof.
  unfold Heap.new_pools. repeat frame_step.
  apply frame_safe_ret. repeat split; assumption.
Qed.

Lemma frame_safe_collect_site (n : nat) (p : Heap.pools) (jsLabel url : string)
    (b : Heap.val) :
  fresh_pools n p -> frame_safe n (Heap.collect_site p jsLabel url b) anything.
Proof.
  intros (H1 & H2 & H3 & H4 & H5 & H6 & H7 & H8 & H9 & H10).
  unfold Heap.collect_site. repeat frame_step.
  destruct (String.eqb jsLabel "JS_on");
    (frame_step; apply frame_safe_push_spread2; assumption).
Qed.

Lemma frame_safe_store_averages (n : nat) (stats : Heap.val) (browser : string)
    (p : Heap.pools) :
  fresh n stats -> frame_safe n (Heap.store_averages stats browser p) anything.
Proof.
  intros Hs. unfold Heap.store_averages. repeat frame_step.
  apply frame_safe_store_avg. assumption.
Qed.

Lemma frame_safe_init_browser (n : nat) (stats : Heap.val) (browser : string) :
  fresh n stats -> frame_safe n (Heap.init_browser stats browser) anything.
Proof.
  intros Hs. unfold Heap.init_browser. repeat frame_step.
  apply frame_safe_assign; assumption.
Qed.

Lemma frame_safe_stats_of_browser (n : nat) (stats : Heap.val) (browser : string)
    (jsBuckets : Heap.val) :
  fresh n stats ->
  frame_safe n (Heap.stats_of_browser stats browser jsBuckets) anything.
Proof.
  intros Hs. unfold Heap.stats_of_browser.
  eapply frame_safe_bind; [apply frame_safe_init_browser, Hs|]. intros _ _.
  eapply frame_safe_bind; [apply frame_safe_new_pools|]. intros p Hp.
  eapply frame_safe_bind.
  - apply frame_safe_for_labels. intros jsLabel url b.
    apply frame_safe_collect_site, Hp.
  - intros _ _. apply frame_safe_store_averages, Hs.
Qed.

Lemma frame_safe_calculateCumulativeStats (n : nat) (data : Heap.val) :
  frame_safe n (Heap.calculateCumulativeStats data) (fresh n).
Proof.
  unfold Heap.calculateCumulativeStats.
  eapply frame_safe_bind; [apply frame_safe_new_object; constructor|].
  intros stats Hstats. frame_step.
  eapply frame_safe_bind.
  - apply frame_safe_for_of. intros [browser jsBuckets].
    apply frame_safe_stats_of_browser, Hstats.
  - intros _ _. apply frame_safe_ret. assumption.
Qed.

Lemma frame_safe_calculateDeltas (n : nat) (stats : Heap.val) :
  frame_safe n (Heap.calculateDeltas stats) (fresh n).
Proof.
  unfold Heap.calculateDeltas.
  repeat frame_step.
  apply frame_safe_new_object. repeat constructor; assumption.
Qed.

Lemma closed_above_length (h : Heap.heap) : closed_above (length h) h.
Proof.
  intros l props Hl Hnth.
  assert (l < length h)%nat by (apply nth_error_Some; congruence). lia.
Qed.

Lemma frame_safe_extends {A : Type} (c : Heap.M A) (Q : A -> Prop) (h : Heap.heap) :
  frame_safe (length h) c Q -> exists ext, snd (c h) = h ++ ext.
Proof.
  intros H. destruct (H h (le_n _) (closed_above_length h)) as (Hf & _).
  exists (skipn (length h) (snd (c h))).
  rewrite <- (firstn_skipn (length h) (snd (c h))) at 1.
  rewrite Hf, firstn_all. reflexivity.
Qed.

(** ** Runs over the store against the functions on the data *)

Lemma extends_refl (h : Heap.heap) : extends h h.
Proof. intros l c H. exact H. Qed.

Lemma extends_trans (h1 h2 h3 : Heap.heap) :
  extends h1 h2 -> extends h2 h3 -> extends h1 h3.
Proof. intros H12 H23 l c H. apply H23, H12, H. Qed.

Lemma extends_app (h g : Heap.heap) : extends h (h ++ g).
Proof.
  intros l c H. rewrite nth_error_app1; [exact H|].
  apply nth_error_Some. congruence.
Qed.

Lemma extends_update (h : Heap.heap) (n : nat) (c : Heap.cell) (h' : Heap.heap) :
  extends h h' -> (length h <= n)%nat -> extends h (Heap.update n c h').
Proof.
  intros He Hn l c' H. rewrite nth_error_update_ne; [apply He, H|].
  assert (l < length h)%nat by (apply nth_error_Some; congruence). lia.
Qed.

Lemma nth_error_app_plus {A : Type} (h g : list A) (k : nat) :
  nth_error (h ++ g) (length h + k) = nth_error g k.
Proof.
  rewrite nth_error_app2 by lia. f_equal. lia.
Qed.

Lemma prop_object (h : Heap.heap) (l : nat) (props : list (string * Heap.val))
    (key : string) :
  nth_error h l = Some (Heap.Object props) ->
  Heap.prop (Heap.Ref l) key h = (Ok (lookup props key), h).
Proof. intros H. unfold Heap.prop, lookup. rewrite H. reflexivity. Qed.

Lemma same_entries_get {V : Type} (R : Heap.val -> V -> Prop)
    (props : list (string * Heap.val)) (o : object V) (key : string) :
  same_entries R props o ->
  match get o key with
  | Some x => exists v, get props key = Some v /\ R v x
  | None => get props key = None
  end.
Proof.
  induction 1 as [|[k v] [k' x] props o [Hk HR] _ IH]; simpl in *.
  - reflexivity.
  - subst k'. destruct (String.eqb k key); [|exact IH].
    exists v. split; [reflexivity|exact HR].
Qed.

Lemma repr_pair_extends (h h' : Heap.heap) (v : Heap.val) (p : Pair.t) :
  extends h h' -> repr_pair h v p -> repr_pair h' v p.
Proof.
  intros He (l & props & -> & Hl & Hm). exists l, props. auto.
Qed.

Lemma js_sub_as_val (x y : value) :
  Heap.js_sub (as_val x) (as_val y) = as_val (js_sub x y).
Proof. destruct x, y; reflexivity. Qed.

(** ** calculateDeltas over the store *)

Section DeltasRun.
Variable h0 : Heap.heap.
Variable stats_v : Heap.val.
Variable stats : CumulativeStats.
Hypothesis stats_repr : repr_cumulative h0 stats_v stats.

Lemma read_mean (H : Heap.heap) (b : string) (s : Stats.t) (g : group)
    (m : metric2) :
  extends h0 H -> get stats b = Some s ->
  exists sb p,
    Heap.prop stats_v b H = (Ok sb, H)
    /\ Heap.prop sb (group_name g) H = (Ok p, H)
    /\ Heap.prop p (metric2_name m) H
       = (Ok (as_val (pair_field m (group_pair g s))), H).
Proof.
  intros He Hb. destruct stats_repr as (l & props & -> & Hl & Hsame).
  pose proof (same_entries_get _ _ _ b Hsame) as Hget. rewrite Hb in Hget.
  destruct Hget as (sb & Hsb & (ls & sprops & -> & Hls & Hg)).
  destruct (Hg g) as (lp & pprops & Hpv & Hlp & Hm).
  exists (Heap.Ref ls), (Heap.Ref lp). repeat split.
  - rewrite (prop_object _ _ _ _ (He _ _ Hl)). unfold lookup. rewrite Hsb.
    reflexivity.
  - rewrite (prop_object _ _ _ _ (He _ _ Hls)). rewrite Hpv. reflexivity.
  - rewrite (prop_object _ _ _ _ (He _ _ Hlp)). rewrite Hm. reflexivity.
Qed.

Lemma read_missing (H : Heap.heap) (b : string) :
  extends h0 H -> get stats b = None ->
  Heap.prop stats_v b H = (Ok Heap.Undefined, H).
Proof.
  intros He Hb. destruct stats_repr as (l & props & -> & Hl & Hsame).
  pose proof (same_entries_get _ _ _ b Hsame) as Hget. rewrite Hb in Hget.
  rewrite (prop_object _ _ _ _ (He _ _ Hl)). unfold lookup. rewrite Hget.
  reflexivity.
Qed.

Lemma difference_run (H : Heap.heap) (b b' : string) (s s' : Stats.t)
    (g g' : group) (m : metric2) :
  extends h0 H -> get stats b = Some s -> get stats b' = Some s' ->
  Heap.difference stats_v b (group_name g) b' (group_name g') (metric2_name m) H
  = (Ok (as_val (js_sub (pair_field m (group_pair g s))
                        (pair_field m (group_pair g' s')))), H).
Proof.
  intros He Hb Hb'.
  destruct (read_mean H b s g m He Hb) as (sb & p & E1 & E2 & E3).
  destruct (read_mean H b' s' g' m He Hb') as (sb' & p' & E1' & E2' & E3').
  unfold Heap.difference, Heap.bind.
  rewrite E1, E2, E3, E1', E2', E3'. unfold Heap.ret.
  rewrite js_sub_as_val. reflexivity.
Qed.

Lemma difference_pair_run (H : Heap.heap) (b b' : string) (s s' : Stats.t)
    (g g' : group) :
  extends h0 H -> get stats b = Some s -> get stats b' = Some s' ->
  Heap.difference_pair stats_v b (group_name g) b' (group_name g') H
  = (Ok (Heap.Ref (length H)),
     H ++ [pair_cell (pair_sub (group_pair g s) (group_pair g' s'))]).
Proof.
  intros He Hb Hb'. unfold Heap.difference_pair, Heap.bind.
  pose proof (difference_run H b b' s s' g g' FCP He Hb Hb') as E1.
  pose proof (difference_run H b b' s s' g g' LOAD He Hb Hb') as E2.
  change (metric2_name FCP) with "fcp"%string in E1.
  change (metric2_name LOAD) with "load"%string in E2.
  rewrite E1, E2. reflexivity.
Qed.

Lemma difference_pair_missing_left (H : Heap.heap) (b b' g g' : string) :
  extends h0 H -> get stats b = None ->
  Heap.difference_pair stats_v b g b' g' H = (Throw TypeError, H).
Proof.
  intros He Hb. unfold Heap.difference_pair, Heap.difference, Heap.bind.
  rewrite (read_missing H b He Hb). reflexivity.
Qed.
End DeltasRun.

Lemma repr_pair_cell (h : Heap.heap) (l : nat) (p : Pair.t) :
  nth_error h l = Some (pair_cell p) -> repr_pair h (Heap.Ref l) p.
Proof.
  intros H. exists l, [("fcp", as_val (Pair.fcp p)); ("load", as_val (Pair.load p))]%string.
  repeat split; [exact H|]. intros []; reflexivity.
Qed.

Lemma length_snoc {A : Type} (h : list A) (c : A) :
  length (h ++ [c]) = (length h + 1)%nat.
Proof. rewrite length_app. reflexivity. Qed.

(** Reading a cell that a run has appended to the store [h]. *)
Ltac heap_at :=
  first [ rewrite nth_error_app_plus; reflexivity
        | rewrite nth_error_app2 by lia; rewrite Nat.sub_diag; reflexivity ].

Lemma calculateDeltas_run (h : Heap.heap) (v : Heap.val) (stats : CumulativeStats) :
  repr_cumulative h v stats ->
  outcome_repr repr_deltas (Heap.calculateDeltas v h) (calculateDeltas stats).
Proof.
  intros Hrepr. unfold calculateDeltas, browser_stats.
  destruct (get stats "Chrome") as [c|] eqn:Hc; simpl.
  2:{ unfold Heap.calculateDeltas, Heap.bind.
      rewrite (difference_pair_missing_left h v stats Hrepr h "Chrome" "Chrome"
                 "jsOff" "jsOn" (extends_refl h) Hc).
      reflexivity. }
  pose proof (fun H He => difference_pair_run h v stats Hrepr H
                "Chrome" "Chrome" c c JsOff JsOn He Hc Hc) as E1.
  simpl group_name in E1.
  destruct (get stats "Firefox") as [f|] eqn:Hf; simpl.
  2:{ unfold Heap.calculateDeltas, Heap.bind.
      rewrite (E1 h (extends_refl h)).
      rewrite (difference_pair_missing_left h v stats Hrepr _ "Firefox" "Firefox"
                 "jsOff" "jsOn" (extends_app h _) Hf).
      reflexivity. }
  pose proof (fun H He => difference_pair_run h v stats Hrepr H
                "Firefox" "Firefox" f f JsOff JsOn He Hf Hf) as E2.
  pose proof (fun H He => difference_pair_run h v stats Hrepr H
                "Chrome" "Chrome" c c Warm Cold He Hc Hc) as E3.
  pose proof (fun H He => difference_pair_run h v stats Hrepr H
                "Firefox" "Firefox" f f Warm Cold He Hf Hf) as E4.
  pose proof (fun H He => difference_pair_run h v stats Hrepr H
                "Firefox" "Chrome" f c Overall Overall He Hf Hc) as E5.
  simpl group_name in E2, E3, E4, E5.
  unfold Heap.calculateDeltas, Heap.bind, Heap.new.
  rewrite (E1 h (extends_refl h)).
  rewrite E2 by apply extends_app.
  rewrite E3 by (rewrite <- !app_assoc; apply extends_app).
  rewrite E4 by (rewrite <- !app_assoc; apply extends_app).
  rewrite E5 by (rewrite <- !app_assoc; apply extends_app).
  rewrite !length_snoc, <- !app_assoc. simpl app. simpl fst. simpl snd.
  rewrite <- !Nat.add_assoc. simpl Nat.add.
  eexists. split; [reflexivity|].
  exists (length h + 7)%nat. eexists.
  split; [reflexivity|]. split; [heap_at|].
  repeat split.
  - eexists (length h + 2)%nat, _.
    split; [reflexivity|]. split; [heap_at|].
    split; apply repr_pair_cell.
    + heap_at.
    + heap_at.
  - eexists (length h + 5)%nat, _.
    split; [reflexivity|]. split; [heap_at|].
    split; apply repr_pair_cell.
    + heap_at.
    + heap_at.
  - apply repr_pair_cell. heap_at.
Qed.

(** ** Cells that a run keeps *)

Lemma keeps_refl (W : list nat) (h : Heap.heap) : keeps W h h.
Proof. split; [lia|]. intros l c _ H. exact H. Qed.

Lemma keeps_trans (W : list nat) (h1 h2 h3 : Heap.heap) :
  keeps W h1 h2 -> keeps W h2 h3 -> keeps W h1 h3.
Proof.
  intros [L12 H12] [L23 H23]. split; [lia|].
  intros l c Hl H. apply H23, H12; assumption.
Qed.

Lemma keeps_weaken (W W' : list nat) (h h' : Heap.heap) :
  incl W W' -> keeps W h h' -> keeps W' h h'.
Proof.
  intros Hi [L Hk]. split; [exact L|].
  intros l c Hl H. apply Hk; [|exact H]. intros Hin. apply Hl, Hi, Hin.
Qed.

Lemma keeps_app (W : list nat) (h g : Heap.heap) : keeps W h (h ++ g).
Proof.
  split; [rewrite length_app; lia|]. intros l c _ H. apply extends_app, H.
Qed.

Lemma keeps_update (l : nat) (c : Heap.cell) (h : Heap.heap) :
  keeps [l] h (Heap.update l c h).
Proof.
  split; [rewrite length_update; lia|].
  intros l' c' Hl H. rewrite nth_error_update_ne; [exact H|].
  intros ->. apply Hl. left. reflexivity.
Qed.

Lemma keeps_get (W : list nat) (h h' : Heap.heap) (l : nat) (c : Heap.cell) :
  keeps W h h' -> ~ In l W -> nth_error h l = Some c -> nth_error h' l = Some c.
Proof. intros [_ Hk]. apply Hk. Qed.

Lemma keeps_length (W : list nat) (h h' : Heap.heap) :
  keeps W h h' -> (length h <= length h')%nat.
Proof. intros [L _]. exact L. Qed.

Lemma extends_keeps (W : list nat) (h0 h h' : Heap.heap) :
  extends h0 h -> keeps W h h' -> (forall l, In l W -> (length h0 <= l)%nat) ->
  extends h0 h'.
Proof.
  intros He [_ Hk] HW l c H. apply Hk; [|apply He, H].
  intros Hin. apply HW in Hin.
  assert (l < length h0)%nat by (apply nth_error_Some; congruence). lia.
Qed.

Lemma nth_error_snoc {A : Type} (h : list A) (c : A) :
  nth_error (h ++ [c]) (length h) = Some c.
Proof. rewrite nth_error_app2 by lia. rewrite Nat.sub_diag. reflexivity. Qed.

(** ** Reading a leaf *)

Section LeafRun.
Variable h0 : Heap.heap.

Lemma prop_field (H : Heap.heap) (v : Heap.val) (r : Sample.t) (m : metric) :
  extends h0 H -> repr_sample h0 v r ->
  exists x, Heap.prop v (field_name m) H = (Ok x, H)
            /\ field_val x (sample_field m r).
Proof.
  intros He (l & props & -> & Hl & Hf).
  exists (lookup props (field_name m)). split; [|apply Hf].
  apply prop_object, He, Hl.
Qed.

Lemma map_M_fields (H : Heap.heap) (elems : list Heap.val) (rs : list Sample.t)
    (m : metric) :
  extends h0 H -> Forall2 (repr_sample h0) elems rs ->
  exists vs,
    Heap.map_M (fun r => Heap.prop r (field_name m)) elems H = (Ok vs, H)
    /\ Forall2 field_val vs (map (sample_field m) rs).
Proof.
  intros He. induction 1 as [|v r elems rs Hv _ IH]; simpl.
  - exists []. split; [reflexivity|constructor].
  - destruct (prop_field H v r m He Hv) as (x & Ex & Hx).
    destruct IH as (vs & Evs & Hvs).
    exists (x :: vs). split; [|constructor; assumption].
    unfold Heap.bind. rewrite Ex, Evs. reflexivity.
Qed.

Lemma filter_not_nullish (vs : list Heap.val) (ys : list value) :
  Forall2 field_val vs ys ->
  filter Heap.not_nullish vs = map Heap.JNum (non_null ys).
Proof.
  induction 1 as [|v y vs ys Hv _ IH]; simpl; [reflexivity|].
  destruct y as [|q]; simpl in Hv.
  - destruct Hv as [-> | ->]; simpl; exact IH.
  - subst v. simpl. rewrite IH. reflexivity.
Qed.

Lemma leaf_values_run (H : Heap.heap) (lb : nat)
    (props : list (string * Heap.val)) (key : string)
    (o : option (list Sample.t)) (m : metric) :
  extends h0 H ->
  nth_error h0 lb = Some (Heap.Object props) ->
  repr_cache h0 (lookup props key) o ->
  match o with
  | Some rs =>
      exists mapped,
        Heap.leaf_values (Heap.Ref lb) key (field_name m) H
        = (Ok (Heap.Ref (S (length H))),
           H ++ [Heap.Array mapped;
                 Heap.Array (map Heap.JNum (values_of (sample_field m) rs))])
  | None =>
      Heap.leaf_values (Heap.Ref lb) key (field_name m) H = (Throw TypeError, H)
  end.
Proof.
  intros He Hlb Hc. unfold Heap.leaf_values, Heap.bind.
  rewrite (prop_object _ _ _ _ (He _ _ Hlb)).
  destruct o as [rs|]; simpl in Hc.
  - destruct Hc as (la & elems & -> & Hla & Hel).
    destruct (map_M_fields H elems rs m He Hel) as (vs & Evs & Hvs).
    exists vs. unfold Heap.array_map, Heap.array_filter, Heap.bind, Heap.elements.
    rewrite (He _ _ Hla), Evs. unfold Heap.new.
    rewrite nth_error_snoc, length_snoc, (filter_not_nullish _ _ Hvs).
    rewrite <- app_assoc, Nat.add_1_r. reflexivity.
  - destruct Hc as [-> | ->]; reflexivity.
Qed.

Lemma fold_left_js_add (qs : list float) (a : float) :
  fold_left Heap.js_add (map Heap.JNum qs) (Heap.JNum a)
  = Heap.JNum (fold_left PrimFloat.add qs a).
Proof.
  revert a; induction qs as [|q qs IH]; intros a; simpl; [reflexivity|].
  apply IH.
Qed.

Lemma avg_run (H : Heap.heap) (l : nat) (qs : list float) :
  nth_error H l = Some (Heap.Array (map Heap.JNum qs)) ->
  Heap.avg (Heap.Ref l) H = (Ok (as_val (avg qs)), H).
Proof.
  intros Hl. unfold Heap.avg, Heap.bind, Heap.elements. rewrite Hl.
  unfold Heap.ret, avg, reduce_add, array_length.
  rewrite length_map, fold_left_js_add.
  destruct (negb (Nat.eqb (length qs) 0)); reflexivity.
Qed.

Lemma leaf_avg_run (H : Heap.heap) (lb : nat)
    (props : list (string * Heap.val)) (key : string)
    (o : option (list Sample.t)) (m : metric) :
  extends h0 H ->
  nth_error h0 lb = Some (Heap.Object props) ->
  repr_cache h0 (lookup props key) o ->
  match o with
  | Some rs =>
      exists H',
        Heap.leaf_avg (Heap.Ref lb) key (field_name m) H
        = (Ok (as_val (avg (values_of (sample_field m) rs))), H')
        /\ keeps [] H H'
  | None =>
      Heap.leaf_avg (Heap.Ref lb) key (field_name m) H = (Throw TypeError, H)
  end.
Proof.
  intros He Hlb Hc.
  pose proof (leaf_values_run H lb props key o m He Hlb Hc) as Hrun.
  unfold Heap.leaf_avg, Heap.bind. destruct o as [rs|].
  - destruct Hrun as (mapped & ->). eexists. split; [|apply keeps_app].
    apply avg_run.
    change (S (length H)) with (1 + length H)%nat.
    rewrite Nat.add_comm, nth_error_app_plus. reflexivity.
  - rewrite Hrun. reflexivity.
Qed.
End LeafRun.

(** ** calculateMetricsData over the store *)

Lemma push_run (H : Heap.heap) (l : nat) (es items : list Heap.val) :
  nth_error H l = Some (Heap.Array es) ->
  Heap.push (Heap.Ref l) items H
  = (Ok tt, Heap.update l (Heap.Array (es ++ items)) H).
Proof. intros E. unfold Heap.push. rewrite E. reflexivity. Qed.

Lemma nth_error_lt {A : Type} (h : list A) (l : nat) (c : A) :
  nth_error h l = Some c -> (l < length h)%nat.
Proof. intros E. apply nth_error_Some. congruence. Qed.

Section MetricsRun.
Variable h0 : Heap.heap.

(** One [leaf_avg] of a sequence: its run, the store it leaves, and that the
    tree is still there. *)
Ltac leaf_step Hcur He Hlb Hc m Hn En Kn Hen :=
  destruct (leaf_avg_run h0 Hcur _ _ _ _ m He Hlb Hc) as (Hn & En & Kn);
  simpl field_name in En;
  assert (Hen : extends h0 Hn)
    by (apply (extends_keeps [] h0 Hcur Hn He Kn); intros ? []).

Lemma coldMetrics_run (H : Heap.heap) (lb : nat)
    (props : list (string * Heap.val)) (label : string)
    (o : option (list Sample.t)) :
  extends h0 H ->
  nth_error h0 lb = Some (Heap.Object props) ->
  repr_cache h0 (lookup props "cold") o ->
  match o with
  | Some rc =>
      exists H',
        Heap.coldMetrics label (Heap.Ref lb) H
        = (Ok (Heap.Ref (length H')),
           H' ++ [entry_cell
                    (Entry.make label
                       (avg (values_of Sample.browser_start_time rc))
                       (avg (values_of Sample.fcp rc))
                       (avg (values_of Sample.dom_interactive rc))
                       (avg (values_of Sample.dom_content_loaded rc))
                       (avg (values_of Sample.load rc)))])
        /\ keeps [] H H'
  | None => Heap.coldMetrics label (Heap.Ref lb) H = (Throw TypeError, H)
  end.
Proof.
  intros He Hlb Hc. destruct o as [rc|].
  - leaf_step H He Hlb Hc Browser_start_time H1 E1 K1 He1.
    leaf_step H1 He1 Hlb Hc Fcp H2 E2 K2 He2.
    leaf_step H2 He2 Hlb Hc Dom_interactive H3 E3 K3 He3.
    leaf_step H3 He3 Hlb Hc Dom_content_loaded H4 E4 K4 He4.
    leaf_step H4 He4 Hlb Hc Load H5 E5 K5 He5.
    exists H5. split.
    + unfold Heap.coldMetrics, Heap.bind.
      rewrite E1; cbv beta iota. rewrite E2; cbv beta iota.
      rewrite E3; cbv beta iota. rewrite E4; cbv beta iota.
      rewrite E5; cbv beta iota. reflexivity.
    + repeat (eapply keeps_trans; [eassumption|]). apply keeps_refl.
  - pose proof (leaf_avg_run h0 H _ _ _ _ Browser_start_time He Hlb Hc) as E.
    simpl field_name in E. unfold Heap.coldMetrics, Heap.bind. rewrite E.
    reflexivity.
Qed.

Lemma warmMetrics_run (H : Heap.heap) (lb : nat)
    (props : list (string * Heap.val)) (label : string)
    (o : option (list Sample.t)) :
  extends h0 H ->
  nth_error h0 lb = Some (Heap.Object props) ->
  repr_cache h0 (lookup props "warm") o ->
  match o with
  | Some rw =>
      exists H',
        Heap.warmMetrics label (Heap.Ref lb) H
        = (Ok (Heap.Ref (length H')),
           H' ++ [entry_cell
                    (Entry.make label
                       Null
                       (avg (values_of Sample.fcp rw))
                       (avg (values_of Sample.dom_interactive rw))
                       (avg (values_of Sample.dom_content_loaded rw))
                       (avg (values_of Sample.load rw)))])
        /\ keeps [] H H'
  | None => Heap.warmMetrics label (Heap.Ref lb) H = (Throw TypeError, H)
  end.
Proof.
  intros He Hlb Hc. destruct o as [rw|].
  - leaf_step H He Hlb Hc Fcp H2 E2 K2 He2.
    leaf_step H2 He2 Hlb Hc Dom_interactive H3 E3 K3 He3.
    leaf_step H3 He3 Hlb Hc Dom_content_loaded H4 E4 K4 He4.
    leaf_step H4 He4 Hlb Hc Load H5 E5 K5 He5.
    exists H5. split.
    + unfold Heap.warmMetrics, Heap.bind.
      rewrite E2; cbv beta iota. rewrite E3; cbv beta iota.
      rewrite E4; cbv beta iota. rewrite E5; cbv beta iota. reflexivity.
    + repeat (eapply keeps_trans; [eassumption|]). apply keeps_refl.
  - pose proof (leaf_avg_run h0 H _ _ _ _ Fcp He Hlb Hc) as E.
    simpl field_name in E. unfold Heap.warmMetrics, Heap.bind. rewrite E.
    reflexivity.
Qed.

Lemma entry_above_keeps (n : nat) (W : list nat) (H H' : Heap.heap)
    (v : Heap.val) (e : Entry.t) :
  keeps W H H' -> (forall l, In l W -> (l <= n)%nat) ->
  entry_above n H v e -> entry_above n H' v e.
Proof.
  intros K HW (l & -> & Hl & Hc). exists l. repeat split; [exact Hl|].
  apply (keeps_get _ _ _ _ _ K); [|exact Hc].
  intros Hin. apply HW in Hin. lia.
Qed.

Lemma metrics_of_site_run (H : Heap.heap) (st : Chart.t)
    (browser jsLabel url : string) (bv : Heap.val) (b : Buckets.t) :
  chart_inv h0 H st -> repr_buckets h0 bv b ->
  run_sim (chart_inv h0)
    (Heap.metrics_of_site (Heap.Ref (length h0)) (Heap.Ref (S (length h0)))
       browser jsLabel url bv H)
    (metrics_of_site browser jsLabel url b st).
Proof.
  intros (He & cs & ws & Hcs & Hws & Fc & Fw) (lb & props & -> & Hlb & Hcold & Hwarm).
  set (n0 := length h0) in *.
  set (label := make_label browser jsLabel url).
  pose proof (coldMetrics_run H lb props label (Buckets.cold b) He Hlb Hcold) as Hc.
  destruct (Buckets.cold b) as [rc|] eqn:Ec.
  2:{ assert (Ep : metrics_of_site browser jsLabel url b st = Throw TypeError)
        by (unfold metrics_of_site, coldMetrics; rewrite Ec; reflexivity).
      rewrite Ep.
      unfold run_sim, Heap.metrics_of_site, Heap.bind; cbv zeta beta. fold label.
      rewrite Hc. reflexivity. }
  destruct Hc as (H5 & E5 & K05).
  set (cc := entry_cell _) in *.
  assert (K06 : keeps [] H (H5 ++ [cc]))
    by (eapply keeps_trans; [exact K05 | apply keeps_app]).
  assert (Hcs6 : nth_error (H5 ++ [cc]) n0 = Some (Heap.Array cs))
    by (apply (keeps_get _ _ _ _ _ K06); [intros [] | exact Hcs]).
  pose proof (push_run _ _ _ [Heap.Ref (length H5)] Hcs6) as E6.
  set (H7 := Heap.update n0 _ (H5 ++ [cc])) in *.
  assert (K67 : keeps [n0] (H5 ++ [cc]) H7) by apply keeps_update.
  assert (He7 : extends h0 H7).
  { apply (extends_keeps [n0] h0 (H5 ++ [cc]) H7); [|exact K67|].
    - apply (extends_keeps [] h0 H _ He K06). intros ? [].
    - intros l [<-|[]]. apply le_n. }
  pose proof (warmMetrics_run H7 lb props label (Buckets.warm b) He7 Hlb Hwarm)
    as Hw.
  destruct (Buckets.warm b) as [rw|] eqn:Ew.
  2:{ assert (Ep : metrics_of_site browser jsLabel url b st = Throw TypeError)
        by (unfold metrics_of_site, coldMetrics, warmMetrics; rewrite Ec, Ew;
            reflexivity).
      rewrite Ep.
      unfold run_sim, Heap.metrics_of_site, Heap.bind; cbv zeta beta. fold label.
      rewrite E5; cbv beta iota. rewrite E6; cbv beta iota.
      rewrite Hw. reflexivity. }
  assert (Ep : metrics_of_site browser jsLabel url b st
               = Ok (extend_chart st [mkLeaf browser jsLabel url b])).
  { apply metrics_of_site_complete. constructor; [|constructor].
    split; simpl; congruence. }
  rewrite Ep. unfold extend_chart, cold_entry, warm_entry, cold_of, warm_of,
    leaf_label. simpl map. simpl leaf_buckets. rewrite Ec, Ew. simpl samples.
  simpl leaf_browser. simpl leaf_jsLabel. simpl leaf_url. fold label.
  destruct Hw as (H11 & E11 & K7_11).
  set (wc := entry_cell (Entry.make label Null _ _ _ _)) in *.
  assert (K7_12 : keeps [] H7 (H11 ++ [wc]))
    by (eapply keeps_trans; [exact K7_11 | apply keeps_app]).
  assert (Hn0 : (S n0 < length H)%nat) by (apply (nth_error_lt _ _ _ Hws)).
  assert (L5 : (length H <= length H5)%nat) by apply (keeps_length _ _ _ K05).
  assert (L11 : (length H7 <= length H11)%nat) by apply (keeps_length _ _ _ K7_11).
  assert (L7 : length H7 = (length H5 + 1)%nat)
    by (unfold H7; rewrite length_update; apply length_snoc).
  assert (Hws12 : nth_error (H11 ++ [wc]) (S n0) = Some (Heap.Array ws)).
  { apply (keeps_get _ _ _ _ _ K7_12); [intros []|].
    apply (keeps_get _ _ _ _ _ K67); [simpl; intuition lia|].
    apply (keeps_get _ _ _ _ _ K06); [intros [] | exact Hws]. }
  pose proof (push_run _ _ _ [Heap.Ref (length H11)] Hws12) as E12.
  set (H13 := Heap.update (S n0) _ (H11 ++ [wc])) in *.
  assert (K12_13 : keeps [S n0] (H11 ++ [wc]) H13) by apply keeps_update.
  assert (K7_13 : keeps [S n0] H7 H13).
  { eapply keeps_trans; [|exact K12_13].
    eapply keeps_weaken; [|exact K7_12]. intros ? []. }
  assert (K_all : keeps [n0; S n0] H H13).
  { eapply keeps_trans; [eapply keeps_weaken; [|exact K06]; intros ? []|].
    eapply keeps_trans; [eapply keeps_weaken; [|exact K67]|].
    - intros ? [<-|[]]. left. reflexivity.
    - eapply keeps_weaken; [|exact K7_13]. intros ? [<-|[]]. right. left. reflexivity. }
  assert (Erun : Heap.metrics_of_site (Heap.Ref n0) (Heap.Ref (S n0))
                   browser jsLabel url (Heap.Ref lb) H = (Ok tt, H13)).
  { unfold Heap.metrics_of_site, Heap.bind; cbv zeta beta. fold label.
    rewrite E5; cbv beta iota. rewrite E6; cbv beta iota.
    rewrite E11; cbv beta iota. exact E12. }
  unfold run_sim. rewrite Erun. split; [reflexivity|]. simpl snd. split.
  - apply (extends_keeps [S n0] h0 H7 H13 He7 K7_13).
    intros l [<-|[]]. unfold n0. lia.
  - exists (cs ++ [Heap.Ref (length H5)]), (ws ++ [Heap.Ref (length H11)]).
    simpl Chart.cold. simpl Chart.warm. repeat split.
    + apply (keeps_get _ _ _ _ _ K7_13); [simpl; intuition lia|].
      unfold H7. apply nth_error_update_eq. rewrite length_snoc. lia.
    + unfold H13. apply nth_error_update_eq. rewrite length_snoc. lia.
    + apply Forall2_app.
      * eapply Forall2_impl; [|exact Fc]. intros v e.
        apply (entry_above_keeps _ _ _ _ _ _ K_all). simpl. intuition lia.
      * constructor; [|constructor]. exists (length H5).
        repeat split; [lia|].
        apply (keeps_get _ _ _ _ _ K7_13); [simpl; intuition lia|].
        apply (keeps_get _ _ _ _ _ K67); [simpl; intuition lia|].
        apply nth_error_snoc.
    + apply Forall2_app.
      * eapply Forall2_impl; [|exact Fw]. intros v e.
        apply (entry_above_keeps _ _ _ _ _ _ K_all). simpl. intuition lia.
      * constructor; [|constructor]. exists (length H11).
        repeat split; [lia|].
        apply (keeps_get _ _ _ _ _ K12_13); [simpl; intuition lia|].
        apply nth_error_snoc.
Qed.
End MetricsRun.

(** ** Loops over the store against loops over the data *)

Section LoopSim.
Context {S : Type}.
Variable h0 : Heap.heap.
Variable Inv : Heap.heap -> S -> Prop.
Hypothesis Inv_extends : forall H st, Inv H st -> extends h0 H.

Lemma for_of_sim {VP : Type} (R : Heap.val -> VP -> Prop)
    (body_h : string -> Heap.val -> Heap.M unit)
    (body_p : string -> VP -> S -> result S) :
  (forall k vh vp H st,
     R vh vp -> Inv H st -> run_sim Inv (body_h k vh H) (body_p k vp st)) ->
  forall items entries, same_entries R items entries ->
  forall H st, Inv H st ->
    run_sim Inv (Heap.for_of items (fun kv => body_h (fst kv) (snd kv)) H)
                (for_entries entries body_p st).
Proof.
  intros Hstep items entries Hsame.
  induction Hsame as [|[k vh] [k' vp] items entries [Hk HR] _ IH];
    intros H st HI; simpl in *.
  - split; [reflexivity|exact HI].
  - subst k'. specialize (Hstep k vh vp H st HR HI).
    unfold Heap.bind. destruct (body_p k vp st) as [st'|e]; simpl in *.
    + destruct (body_h k vh H) as [r H'] eqn:E. simpl in Hstep.
      destruct Hstep as [-> HI']. apply IH. exact HI'.
    + destruct (body_h k vh H) as [r H'] eqn:E. simpl in Hstep. subst r.
      reflexivity.
Qed.

Lemma entries_object (H : Heap.heap) {VP : Type} (R : Heap.val -> VP -> Prop)
    (v : Heap.val) (o : object VP) :
  extends h0 H -> repr_object R h0 v o ->
  exists props, Heap.entries v H = (Ok props, H) /\ same_entries R props o.
Proof.
  intros He (l & props & -> & Hl & Hsame). exists props. split; [|exact Hsame].
  unfold Heap.entries. rewrite (He _ _ Hl). reflexivity.
Qed.

Lemma for_sites_sim {VP : Type} (R : Heap.val -> VP -> Prop)
    (body_h : string -> Heap.val -> Heap.M unit)
    (body_p : string -> VP -> S -> result S) :
  (forall k vh vp H st,
     R vh vp -> Inv H st -> run_sim Inv (body_h k vh H) (body_p k vp st)) ->
  forall v o H st, repr_object R h0 v o -> Inv H st ->
    run_sim Inv (Heap.for_sites v body_h H) (for_entries o body_p st).
Proof.
  intros Hstep v o H st Hrepr HI.
  destruct (entries_object H R v o (Inv_extends H st HI) Hrepr)
    as (props & E & Hsame).
  unfold Heap.for_sites, Heap.bind. rewrite E.
  apply (for_of_sim R body_h body_p Hstep props o Hsame H st HI).
Qed.

Lemma for_labels_sim {VP : Type} (R : Heap.val -> VP -> Prop)
    (body_h : string -> string -> Heap.val -> Heap.M unit)
    (body_p : string -> string -> VP -> S -> result S) :
  (forall j k vh vp H st,
     R vh vp -> Inv H st -> run_sim Inv (body_h j k vh H) (body_p j k vp st)) ->
  forall v (o : object (object VP)) H st,
    repr_object (repr_object R h0) h0 v o -> Inv H st ->
    run_sim Inv (Heap.for_labels v body_h H)
      (for_entries o (fun j sites => for_entries sites (body_p j)) st).
Proof.
  intros Hstep v o H st Hrepr HI.
  destruct (entries_object H _ v o (Inv_extends H st HI) Hrepr)
    as (props & E & Hsame).
  unfold Heap.for_labels, Heap.bind. rewrite E.
  apply (for_of_sim (repr_object R h0)
           (fun j sv => Heap.for_sites sv (body_h j))
           (fun j sites => for_entries sites (body_p j))); [|exact Hsame|exact HI].
  intros j sv sites H' st' Hs HI'.
  apply (for_sites_sim R (body_h j) (body_p j) (Hstep j) sv sites H' st' Hs HI').
Qed.
End LoopSim.

Lemma entry_above_repr (n : nat) (H : Heap.heap) (g : Heap.heap)
    (v : Heap.val) (e : Entry.t) :
  entry_above n H v e -> repr_entry (H ++ g) v e.
Proof.
  intros (l & -> & _ & Hc). exists l. split; [reflexivity|].
  apply extends_app, Hc.
Qed.

Lemma calculateMetricsData_run (h : Heap.heap) (v : Heap.val) (data : ResultTree) :
  repr_tree h v data ->
  outcome_repr repr_chart (Heap.calculateMetricsData v h) (calculateMetricsData data).
Proof.
  intros Hrepr.
  set (H2 := (h ++ [Heap.Array []]) ++ [Heap.Array []]).
  assert (He2 : extends h H2)
    by (unfold H2; rewrite <- app_assoc; apply extends_app).
  assert (HI : chart_inv h H2 (Chart.make [] [])).
  { split; [exact He2|]. exists [], []. unfold H2. rewrite <- app_assoc.
    simpl app. simpl Chart.cold. simpl Chart.warm.
    split; [heap_at|]. split; [|split; constructor].
    rewrite <- Nat.add_1_r. heap_at. }
  destruct (entries_object h H2 _ v data He2 Hrepr) as (props & E & Hsame).
  pose proof (for_of_sim (chart_inv h)
                (repr_jsBuckets h)
                (fun browser jv =>
                   Heap.for_labels jv
                     (Heap.metrics_of_site (Heap.Ref (length h))
                        (Heap.Ref (S (length h))) browser))
                (fun browser jsBuckets =>
                   for_entries jsBuckets (fun jsLabel sites =>
                     for_entries sites (fun url cacheBuckets =>
                       metrics_of_site browser jsLabel url cacheBuckets))))
    as Hloop.
  specialize (Hloop
    (fun browser jv jsB H st Hj HI' =>
       for_labels_sim h (chart_inv h) (fun H st HI => proj1 HI)
         (repr_buckets h)
         (Heap.metrics_of_site (Heap.Ref (length h)) (Heap.Ref (S (length h))) browser)
         (fun jsLabel url b => metrics_of_site browser jsLabel url b)
         (fun j k bv b H st Hb HI'' =>
            metrics_of_site_run h H st browser j k bv b HI'' Hb)
         jv jsB H st Hj HI')
    props data Hsame H2 _ HI).
  unfold Heap.calculateMetricsData, Heap.bind, Heap.new.
  rewrite length_snoc, Nat.add_1_r. fold H2. rewrite E.
  unfold calculateMetricsData.
  destruct (for_entries data _ (Chart.make [] [])) as [chart|e];
    destruct (Heap.for_of props _ H2) as [r H'] eqn:Eloop; simpl in Hloop.
  - destruct Hloop as [-> (He' & cs & ws & Hcs & Hws & Fc & Fw)]. simpl.
    eexists. split; [reflexivity|].
    exists (length H'), (length h), (S (length h)), cs, ws.
    split; [reflexivity|]. split; [apply nth_error_snoc|].
    split; [apply extends_app, Hcs|]. split; [apply extends_app, Hws|].
    split; (eapply Forall2_impl; [|eassumption]); intros a b;
      apply entry_above_repr.
  - subst r. reflexivity.
Qed.

(** ** calculateCumulativeStats over the store: the inner loops *)

Lemma elements_run (H : Heap.heap) (l : nat) (es : list Heap.val) :
  nth_error H l = Some (Heap.Array es) ->
  Heap.elements (Heap.Ref l) H = (Ok es, H).
Proof. intros E. unfold Heap.elements. rewrite E. reflexivity. Qed.

Lemma push_spread_run (H : Heap.heap) (t a : nat) (old xs : list float) :
  holds_numbers H t old -> holds_numbers H a xs ->
  Heap.push_spread (Heap.Ref t) (Heap.Ref a) H
  = (Ok tt, Heap.update t (Heap.Array (map Heap.JNum (old ++ xs))) H).
Proof.
  intros Ht Ha. unfold Heap.push_spread, Heap.bind.
  rewrite (elements_run _ _ _ Ha), (push_run _ _ _ _ Ht), map_app. reflexivity.
Qed.

Lemma push_spread2_run (H : Heap.heap) (t a b : nat) (old xs ys : list float) :
  holds_numbers H t old -> holds_numbers H a xs -> holds_numbers H b ys ->
  Heap.push_spread2 (Heap.Ref t) (Heap.Ref a) (Heap.Ref b) H
  = (Ok tt, Heap.update t (Heap.Array (map Heap.JNum (old ++ xs ++ ys))) H).
Proof.
  intros Ht Ha Hb. unfold Heap.push_spread2, Heap.bind.
  rewrite (elements_run _ _ _ Ha), (elements_run _ _ _ Hb), (push_run _ _ _ _ Ht).
  rewrite !map_app. reflexivity.
Qed.

Lemma holds_numbers_update_eq (H : Heap.heap) (l : nat) (qs : list float) :
  (l < length H)%nat ->
  holds_numbers (Heap.update l (Heap.Array (map Heap.JNum qs)) H) l qs.
Proof. intros Hl. apply nth_error_update_eq, Hl. Qed.

Lemma holds_numbers_update_ne (H : Heap.heap) (l l' : nat) (c : Heap.cell)
    (qs : list float) :
  l <> l' -> holds_numbers H l' qs -> holds_numbers (Heap.update l c H) l' qs.
Proof. intros Hne Hh. unfold holds_numbers. rewrite nth_error_update_ne; assumption. Qed.

Lemma keeps_update_in (W : list nat) (h h' : Heap.heap) (l : nat) (c : Heap.cell) :
  In l W -> keeps W h h' -> keeps W h (Heap.update l c h').
Proof.
  intros Hin K. eapply keeps_trans; [exact K|].
  eapply keeps_weaken; [|apply keeps_update].
  intros x [<-|[]]. exact Hin.
Qed.

Lemma nth_error_app_second {A : Type} (h : list A) (a b : A) :
  nth_error (h ++ [a; b]) (S (length h)) = Some b.
Proof.
  rewrite nth_error_app2 by lia.
  replace (S (length h) - length h)%nat with 1%nat by lia. reflexivity.
Qed.

Lemma new_pools_run (H : Heap.heap) :
  Heap.new_pools H
  = (Ok (pools_at (length H)), H ++ repeat (Heap.Array []) 10).
Proof.
  unfold Heap.new_pools, Heap.bind, Heap.new, Heap.ret, pools_at.
  rewrite !length_snoc, <- !app_assoc, <- !Nat.add_assoc. reflexivity.
Qed.

Section PoolsRun.
Variable h0 hs : Heap.heap.
Variable m : nat.

(** A cell under nested updates: at the updated place or elsewhere. *)
Ltac hn :=
  repeat (apply holds_numbers_update_ne; [lia|]); eassumption.

Ltac hn_final :=
  repeat first
    [ apply holds_numbers_update_eq; rewrite ?length_update; lia
    | apply holds_numbers_update_ne; [lia|] ];
  assumption.

Lemma collect_site_run (H : Heap.heap) (p : Pools.t) (jsLabel url : string)
    (bv : Heap.val) (b : Buckets.t) :
  pools_inv h0 hs m H p -> repr_buckets h0 bv b ->
  run_sim (pools_inv h0 hs m)
    (Heap.collect_site (pools_at m) jsLabel url bv H)
    (collect_site jsLabel b p).
Proof.
  intros (He & Ks & Lm & P0 & P1 & P2 & P3 & P4 & P5 & P6 & P7 & P8 & P9)
         (lb & props & -> & Hlb & Hcold & Hwarm).
  pose proof (leaf_values_run h0 H lb props "cold" _ Fcp He Hlb Hcold) as R1.
  simpl field_name in R1. simpl sample_field in R1.
  destruct (Buckets.cold b) as [rc|] eqn:Ec.
  2:{ assert (Ep : collect_site jsLabel b p = Throw TypeError)
        by (unfold collect_site; rewrite Ec; reflexivity).
      rewrite Ep. unfold run_sim, Heap.collect_site, Heap.bind. rewrite R1.
      reflexivity. }
  destruct R1 as (g1 & E1).
  set (cF := values_of Sample.fcp rc) in *.
  set (H1 := H ++ [Heap.Array g1; Heap.Array (map Heap.JNum cF)]) in *.
  assert (He1 : extends h0 H1) by (eapply extends_trans; [exact He|apply extends_app]).
  pose proof (leaf_values_run h0 H1 lb props "cold" _ Load He1 Hlb Hcold)
    as (g2 & E2).
  simpl field_name in E2. simpl sample_field in E2.
  set (cL := values_of Sample.load rc) in *.
  set (H2 := H1 ++ [Heap.Array g2; Heap.Array (map Heap.JNum cL)]) in *.
  assert (He2 : extends h0 H2) by (eapply extends_trans; [exact He1|apply extends_app]).
  pose proof (leaf_values_run h0 H2 lb props "warm" _ Fcp He2 Hlb Hwarm) as R3.
  simpl field_name in R3. simpl sample_field in R3.
  destruct (Buckets.warm b) as [rw|] eqn:Ew.
  2:{ assert (Ep : collect_site jsLabel b p = Throw TypeError)
        by (unfold collect_site; rewrite Ec, Ew; reflexivity).
      rewrite Ep. unfold run_sim, Heap.collect_site, Heap.bind.
      rewrite E1; cbv beta iota. rewrite E2; cbv beta iota. rewrite R3.
      reflexivity. }
  destruct R3 as (g3 & E3).
  set (wF := values_of Sample.fcp rw) in *.
  set (H3 := H2 ++ [Heap.Array g3; Heap.Array (map Heap.JNum wF)]) in *.
  assert (He3 : extends h0 H3) by (eapply extends_trans; [exact He2|apply extends_app]).
  pose proof (leaf_values_run h0 H3 lb props "warm" _ Load He3 Hlb Hwarm)
    as (g4 & E4).
  simpl field_name in E4. simpl sample_field in E4.
  set (wL := values_of Sample.load rw) in *.
  set (H4 := H3 ++ [Heap.Array g4; Heap.Array (map Heap.JNum wL)]) in *.
  assert (He4 : extends h0 H4) by (eapply extends_trans; [exact He3|apply extends_app]).
  assert (L1 : length H1 = (length H + 2)%nat) by (unfold H1; rewrite length_app; reflexivity).
  assert (L2 : length H2 = (length H1 + 2)%nat) by (unfold H2; rewrite length_app; reflexivity).
  assert (L3 : length H3 = (length H2 + 2)%nat) by (unfold H3; rewrite length_app; reflexivity).
  assert (L4 : length H4 = (length H3 + 2)%nat) by (unfold H4; rewrite length_app; reflexivity).
  assert (V1 : holds_numbers H4 (S (length H)) cF).
  { unfold H4, H3, H2. do 3 apply extends_app. apply nth_error_app_second. }
  assert (V2 : holds_numbers H4 (S (length H1)) cL).
  { unfold H4, H3. do 2 apply extends_app. apply nth_error_app_second. }
  assert (V3 : holds_numbers H4 (S (length H2)) wF).
  { unfold H4. apply extends_app. apply nth_error_app_second. }
  assert (V4 : holds_numbers H4 (S (length H3)) wL) by apply nth_error_app_second.
  assert (X04 : extends H H4).
  { unfold H4, H3, H2, H1. do 4 (eapply extends_trans; [|apply extends_app]).
    apply extends_refl. }
  pose proof (nth_error_lt _ _ _ P9) as B9.
  apply X04 in P0, P1, P2, P3, P4, P5, P6, P7, P8, P9.
  fold (holds_numbers H4 m (Pools.allFcps p)) in P0.
  fold (holds_numbers H4 (m + 1) (Pools.allLoads p)) in P1.
  fold (holds_numbers H4 (m + 2) (Pools.jsOnFcps p)) in P2.
  fold (holds_numbers H4 (m + 3) (Pools.jsOnLoads p)) in P3.
  fold (holds_numbers H4 (m + 4) (Pools.jsOffFcps p)) in P4.
  fold (holds_numbers H4 (m + 5) (Pools.jsOffLoads p)) in P5.
  fold (holds_numbers H4 (m + 6) (Pools.coldFcps p)) in P6.
  fold (holds_numbers H4 (m + 7) (Pools.coldLoads p)) in P7.
  fold (holds_numbers H4 (m + 8) (Pools.warmFcps p)) in P8.
  fold (holds_numbers H4 (m + 9) (Pools.warmLoads p)) in P9.
  assert (K04 : keeps (seq m 10) hs H4).
  { eapply keeps_trans; [exact Ks|]. unfold H4, H3, H2, H1.
    do 4 (eapply keeps_trans; [|apply keeps_app]). apply keeps_refl. }
  assert (Ep : collect_site jsLabel b p
               = Ok (Pools.make
                       (Pools.allFcps p ++ cF ++ wF)
                       (Pools.allLoads p ++ cL ++ wL)
                       (if String.eqb jsLabel "JS_on"
                        then Pools.jsOnFcps p ++ cF ++ wF else Pools.jsOnFcps p)
                       (if String.eqb jsLabel "JS_on"
                        then Pools.jsOnLoads p ++ cL ++ wL else Pools.jsOnLoads p)
                       (if String.eqb jsLabel "JS_on"
                        then Pools.jsOffFcps p else Pools.jsOffFcps p ++ cF ++ wF)
                       (if String.eqb jsLabel "JS_on"
                        then Pools.jsOffLoads p else Pools.jsOffLoads p ++ cL ++ wL)
                       (Pools.coldFcps p ++ cF)
                       (Pools.coldLoads p ++ cL)
                       (Pools.warmFcps p ++ wF)
                       (Pools.warmLoads p ++ wL)))
    by (unfold collect_site; rewrite Ec, Ew; reflexivity).
  rewrite Ep. clear Ep.
  unfold run_sim, Heap.collect_site, Heap.bind, pools_at.
  cbv beta iota delta [Heap.allFcps Heap.allLoads Heap.jsOnFcps Heap.jsOnLoads
                       Heap.jsOffFcps Heap.jsOffLoads Heap.coldFcps
                       Heap.coldLoads Heap.warmFcps Heap.warmLoads].
  rewrite E1; cbv beta iota. rewrite E2; cbv beta iota.
  rewrite E3; cbv beta iota. rewrite E4; cbv beta iota.
  erewrite push_spread2_run by hn; cbv beta iota.
  erewrite push_spread2_run by hn; cbv beta iota.
  erewrite push_spread_run by hn; cbv beta iota.
  erewrite push_spread_run by hn; cbv beta iota.
  erewrite push_spread_run by hn; cbv beta iota.
  erewrite push_spread_run by hn; cbv beta iota.
  destruct (String.eqb jsLabel "JS_on").
  - erewrite push_spread2_run by hn; cbv beta iota.
    erewrite push_spread2_run by hn.
    split; [reflexivity|]. simpl snd.
    split; [repeat (apply extends_update; [|lia]); exact He4|].
    split; [repeat (apply keeps_update_in; [apply in_seq; lia|]); exact K04|].
    split; [exact Lm|].
    repeat split; simpl; hn_final.
  - erewrite push_spread2_run by hn; cbv beta iota.
    erewrite push_spread2_run by hn.
    split; [reflexivity|]. simpl snd.
    split; [repeat (apply extends_update; [|lia]); exact He4|].
    split; [repeat (apply keeps_update_in; [apply in_seq; lia|]); exact K04|].
    split; [exact Lm|].
    repeat split; simpl; hn_final.
Qed.
End PoolsRun.

(** ** calculateCumulativeStats over the store: one browser *)

Lemma lookup_set_eq (props : list (string * Heap.val)) (key : string)
    (v : Heap.val) :
  lookup (set props key v) key = v.
Proof. unfold lookup. rewrite get_set_eq. reflexivity. Qed.

Lemma same_entries_set {V : Type} (R : Heap.val -> V -> Prop)
    (props : list (string * Heap.val)) (o : object V) (key : string)
    (v : Heap.val) (x : V) :
  same_entries R props o -> R v x ->
  same_entries R (set props key v) (set o key x).
Proof.
  intros Hsame HR.
  induction Hsame as [|[k w] [k' y] props o [Hk Hw] Htl IH]; simpl in *.
  - constructor; [|constructor]. split; [reflexivity|exact HR].
  - subst k'. destruct (String.eqb k key).
    + constructor; [|exact Htl]. split; [reflexivity|exact HR].
    + constructor; [|exact IH]. split; [reflexivity|exact Hw].
Qed.

Lemma same_entries_impl {V : Type} (R R' : Heap.val -> V -> Prop)
    (props : list (string * Heap.val)) (o : object V) :
  (forall v x, R v x -> R' v x) -> same_entries R props o -> same_entries R' props o.
Proof.
  intros HRR Hsame. eapply Forall2_impl; [|exact Hsame].
  intros a b [Hk HR]. split; [exact Hk|apply HRR, HR].
Qed.

Lemma pair_above_kept (n : nat) (H H' : Heap.heap) (v : Heap.val) (p : Pair.t) :
  (forall l c, (n < l)%nat -> nth_error H l = Some c -> nth_error H' l = Some c) ->
  pair_above n H v p -> pair_above n H' v p.
Proof.
  intros K (l & props & -> & Hl & Hc & Hm). exists l, props. auto.
Qed.

Lemma stats_above_kept (n : nat) (H H' : Heap.heap) (v : Heap.val) (s : Stats.t) :
  (forall l c, (n < l)%nat -> nth_error H l = Some c -> nth_error H' l = Some c) ->
  stats_above n H v s -> stats_above n H' v s.
Proof.
  intros K (l & props & -> & Hl & Hc & Hg). exists l, props.
  repeat split; auto. intros g. apply (pair_above_kept n H H' _ _ K), Hg.
Qed.

Lemma pair_above_repr (n : nat) (H : Heap.heap) (v : Heap.val) (p : Pair.t) :
  pair_above n H v p -> repr_pair H v p.
Proof. intros (l & props & -> & _ & Hc & Hm). exists l, props. auto. Qed.

Lemma stats_above_repr (n : nat) (H : Heap.heap) (v : Heap.val) (s : Stats.t) :
  stats_above n H v s -> repr_stats H v s.
Proof.
  intros (l & props & -> & _ & Hc & Hg). exists l, props.
  repeat split; auto. intros g. apply (pair_above_repr n), Hg.
Qed.

Lemma assign_run (H : Heap.heap) (l : nat) (props : list (string * Heap.val))
    (key : string) (x : Heap.val) :
  nth_error H l = Some (Heap.Object props) ->
  Heap.assign (Heap.Ref l) key x H
  = (Ok tt, Heap.update l (Heap.Object (set props key x)) H).
Proof. intros E. unfold Heap.assign. rewrite E. reflexivity. Qed.

Lemma init_browser_run (H : Heap.heap) (n0 : nat)
    (props : list (string * Heap.val)) (browser : string) :
  nth_error H n0 = Some (Heap.Object props) ->
  Heap.init_browser (Heap.Ref n0) browser H
  = (Ok tt,
     Heap.update n0 (Heap.Object (set props browser (Heap.Ref (length H + 5))))
       (H ++ [zero_cell; zero_cell; zero_cell; zero_cell; zero_cell;
              groups_cell (length H)])).
Proof.
  intros Hn0.
  unfold Heap.init_browser, Heap.zero_pair, Heap.bind, Heap.new.
  rewrite !length_snoc, <- !app_assoc, <- !Nat.add_assoc. simpl app. simpl Nat.add.
  apply assign_run. apply extends_app, Hn0.
Qed.

Lemma store_avg_run (H : Heap.heap) (n0 : nat) (P : list (string * Heap.val))
    (browser : string) (sb : nat) (SP : list (string * Heap.val))
    (group : string) (a : nat) (pl : nat) (qs : list float)
    (PP : list (string * Heap.val)) (field : string) :
  nth_error H n0 = Some (Heap.Object P) ->
  lookup P browser = Heap.Ref sb ->
  nth_error H sb = Some (Heap.Object SP) ->
  lookup SP group = Heap.Ref a ->
  holds_numbers H pl qs ->
  nth_error H a = Some (Heap.Object PP) ->
  Heap.store_avg (Heap.Ref n0) browser group field (Heap.Ref pl) H
  = (Ok tt, Heap.update a (Heap.Object (set PP field (as_val (avg qs)))) H).
Proof.
  intros E1 E2 E3 E4 E5 E6. unfold Heap.store_avg, Heap.bind.
  rewrite (prop_object _ _ _ _ E1), E2, (prop_object _ _ _ _ E3), E4.
  rewrite (avg_run _ _ _ E5). apply assign_run, E6.
Qed.

(** An object cell under nested updates. *)
Ltac og :=
  repeat (rewrite nth_error_update_ne by lia);
  first [ eassumption
        | apply nth_error_update_eq; rewrite ?length_update; lia ].

(** One [stats[browser].group.field = avg(pool)]. *)
Ltac store_step :=
  erewrite store_avg_run;
  [ cbv beta iota
  | og
  | apply lookup_set_eq
  | og
  | reflexivity
  | repeat (apply holds_numbers_update_ne; [lia|]); eassumption
  | og ].

Lemma stats_of_browser_run (h0 H : Heap.heap) (stats : CumulativeStats)
    (browser : string) (jv : Heap.val) (jsB : JsBuckets) :
  stats_inv h0 H stats -> repr_jsBuckets h0 jv jsB ->
  run_sim (stats_inv h0)
    (Heap.stats_of_browser (Heap.Ref (length h0)) browser jv H)
    (p <- collect_browser jsB ;; Ok (set stats browser (stats_of_pools p))).
Proof.
  intros (He & props & Hn0 & Hsame) Hj.
  set (n0 := length h0) in *. set (n := length H).
  assert (Bn : (n0 < n)%nat) by apply (nth_error_lt _ _ _ Hn0).
  pose proof (init_browser_run H n0 props browser Hn0) as Einit. fold n in Einit.
  set (H6 := H ++ _) in Einit. set (H7 := Heap.update n0 _ H6) in Einit.
  assert (L6 : length H6 = (n + 6)%nat) by (unfold H6; rewrite length_app; reflexivity).
  assert (L7 : length H7 = (n + 6)%nat) by (unfold H7; rewrite length_update; exact L6).
  pose proof (new_pools_run H7) as Epools. rewrite L7 in Epools.
  set (m := (n + 6)%nat) in *. set (H17 := H7 ++ _) in Epools.
  assert (X6 : extends H H6) by apply extends_app.
  assert (Kold17 : forall l c, (n0 < l)%nat -> nth_error H l = Some c ->
                               nth_error H17 l = Some c).
  { intros l c Hl Hc. apply extends_app. unfold H7.
    rewrite nth_error_update_ne by lia. apply X6, Hc. }
  assert (He17 : extends h0 H17).
  { eapply extends_trans; [|apply extends_app]. apply extends_update; [|lia].
    eapply extends_trans; [exact He|exact X6]. }
  assert (G_n0 : nth_error H17 n0
                 = Some (Heap.Object (set props browser (Heap.Ref (n + 5))))).
  { apply extends_app. apply nth_error_update_eq. lia. }
  assert (G6 : forall k c, nth_error [zero_cell; zero_cell; zero_cell; zero_cell;
                                      zero_cell; groups_cell n] k = Some c ->
                           nth_error H17 (n + k) = Some c).
  { intros k c Hk. apply extends_app. unfold H7.
    rewrite nth_error_update_ne by lia. unfold H6, n.
    rewrite nth_error_app_plus. exact Hk. }
  pose proof (G6 0%nat _ eq_refl) as G_a0. rewrite Nat.add_0_r in G_a0.
  pose proof (G6 1%nat _ eq_refl) as G_a1.
  pose proof (G6 2%nat _ eq_refl) as G_a2.
  pose proof (G6 3%nat _ eq_refl) as G_a3.
  pose proof (G6 4%nat _ eq_refl) as G_a4.
  pose proof (G6 5%nat _ eq_refl) as G_sb.
  clear G6.
  assert (HI0 : pools_inv h0 H17 m H17 Pools.empty).
  { split; [exact He17|]. split; [apply keeps_refl|]. split; [unfold m; lia|].
    unfold holds_numbers, H17. rewrite <- L7. simpl map.
    repeat split; heap_at. }
  assert (sim : run_sim (pools_inv h0 H17 m)
                  (Heap.for_labels jv (Heap.collect_site (pools_at m)) H17)
                  (collect_browser jsB)).
  { exact (for_labels_sim h0 (pools_inv h0 H17 m) (fun H st HI => proj1 HI)
             (repr_buckets h0)
             (Heap.collect_site (pools_at m))
             (fun j k b => collect_site j b)
             (fun j k bv b H st Hb HI => collect_site_run h0 H17 m H st j k bv b HI Hb)
             jv jsB H17 Pools.empty Hj HI0). }
  unfold run_sim, Heap.stats_of_browser, Heap.bind.
  rewrite Einit; cbv beta iota. rewrite Epools; cbv beta iota.
  destruct (Heap.for_labels jv (Heap.collect_site (pools_at m)) H17) as [r H'].
  destruct (collect_browser jsB) as [p|e]; simpl in sim; simpl bind.
  2:{ subst r. reflexivity. }
  destruct sim as [-> (He' & K' & _ & P0 & P1 & P2 & P3 & P4 & P5 & P6 & P7 & P8 & P9)].
  cbv beta iota.
  assert (Kold' : forall l c, (l < m)%nat -> nth_error H17 l = Some c ->
                              nth_error H' l = Some c).
  { intros l c Hl Hc. apply (keeps_get _ _ _ _ _ K'); [|exact Hc].
    intros Hin. apply in_seq in Hin. lia. }
  apply Kold' in G_n0, G_a0, G_a1, G_a2, G_a3, G_a4, G_sb; try (unfold m; lia).
  pose proof (nth_error_lt _ _ _ G_sb) as B'.
  unfold zero_cell in G_a0, G_a1, G_a2, G_a3, G_a4. unfold groups_cell in G_sb.
  unfold Heap.store_averages, Heap.bind, pools_at.
  cbv beta iota delta [Heap.allFcps Heap.allLoads Heap.jsOnFcps Heap.jsOnLoads
                       Heap.jsOffFcps Heap.jsOffLoads Heap.coldFcps
                       Heap.coldLoads Heap.warmFcps Heap.warmLoads].
  do 9 store_step.
  erewrite store_avg_run;
    [ | og | apply lookup_set_eq | og | reflexivity
      | repeat (apply holds_numbers_update_ne; [lia|]); eassumption | og ].
  split; [reflexivity|]. simpl snd.
  match goal with |- stats_inv _ ?Hfinal _ => set (Hf := Hfinal) end.
  assert (Kf : forall l c, (n0 < l)%nat -> nth_error H l = Some c ->
                           nth_error Hf l = Some c).
  { intros l c Hl Hc. pose proof (nth_error_lt _ _ _ Hc) as Hlt. fold n in Hlt.
    unfold Hf. repeat (rewrite nth_error_update_ne by lia).
    apply Kold'; [unfold m; lia|]. apply Kold17; assumption. }
  split.
  - unfold Hf. repeat (apply extends_update; [|lia]). exact He'.
  - exists (set props browser (Heap.Ref (n + 5))). split; [unfold Hf; og|].
    apply same_entries_set.
    + eapply same_entries_impl; [|exact Hsame]. intros v s.
      apply stats_above_kept. exact Kf.
    + exists (n + 5)%nat. eexists. split; [reflexivity|]. split; [lia|].
      split; [unfold Hf; og|].
      intros g. destruct g; simpl lookup; simpl group_pair;
        eexists; eexists;
        (split; [reflexivity|]); (split; [lia|]);
        (split; [unfold Hf; og|]); intros []; reflexivity.
Qed.

Lemma calculateCumulativeStats_run (h : Heap.heap) (v : Heap.val)
    (data : ResultTree) :
  repr_tree h v data ->
  outcome_repr repr_cumulative (Heap.calculateCumulativeStats v h)
    (calculateCumulativeStats data).
Proof.
  intros Hrepr.
  set (H1 := h ++ [Heap.Object []]).
  assert (He1 : extends h H1) by apply extends_app.
  assert (HI : stats_inv h H1 []).
  { split; [exact He1|]. exists []. split; [apply nth_error_snoc|constructor]. }
  destruct (entries_object h H1 _ v data He1 Hrepr) as (props & E & Hsame).
  pose proof (for_of_sim (stats_inv h) (repr_jsBuckets h)
                (fun browser jv =>
                   Heap.stats_of_browser (Heap.Ref (length h)) browser jv)
                (fun browser jsBuckets stats =>
                   p <- collect_browser jsBuckets ;;
                   Ok (set stats browser (stats_of_pools p)))
                (fun browser jv jsB H st Hj HI' =>
                   stats_of_browser_run h H st browser jv jsB HI' Hj)
                props data Hsame H1 [] HI) as Hloop.
  cbv beta in Hloop.
  match type of Hloop with
  | run_sim _ ?hrun ?prun =>
      assert (Ecalc : calculateCumulativeStats data = prun) by reflexivity;
      assert (Eheap : Heap.calculateCumulativeStats v h
                      = match hrun with
                        | (Ok _, h') => (Ok (Heap.Ref (length h)), h')
                        | (Throw e, h') => (Throw e, h')
                        end)
        by (unfold Heap.calculateCumulativeStats, Heap.bind, Heap.new;
            fold H1; rewrite E; reflexivity);
      rewrite Ecalc, Eheap; clear Ecalc Eheap;
      destruct prun as [stats|e]; destruct hrun as [r H']
  end; simpl in Hloop.
  - destruct Hloop as [-> (He' & sprops & Hn0 & Hs)]. simpl.
    eexists. split; [reflexivity|].
    exists (length h), sprops. split; [reflexivity|]. split; [exact Hn0|].
    eapply same_entries_impl; [|exact Hs]. intros x s. apply stats_above_repr.
  - subst r. reflexivity.
Qed.

(** ** The argument after the call *)

Lemma repr_sample_extends (h h' : Heap.heap) (v : Heap.val) (r : Sample.t) :
  extends h h' -> repr_sample h v r -> repr_sample h' v r.
Proof. intros He (l & props & -> & Hl & Hf). exists l, props. auto. Qed.

Lemma repr_cache_extends (h h' : Heap.heap) (v : Heap.val)
    (o : option (list Sample.t)) :
  extends h h' -> repr_cache h v o -> repr_cache h' v o.
Proof.
  intros He. destruct o as [rs|]; simpl; [|auto].
  intros (l & elems & -> & Hl & Hel). exists l, elems.
  repeat split; auto. eapply Forall2_impl; [|exact Hel].
  intros a b. apply (repr_sample_extends h h' a b He).
Qed.

Lemma repr_buckets_extends (h h' : Heap.heap) (v : Heap.val) (b : Buckets.t) :
  extends h h' -> repr_buckets h v b -> repr_buckets h' v b.
Proof.
  intros He (l & props & -> & Hl & Hc & Hw). exists l, props.
  repeat split; auto; eapply repr_cache_extends; eassumption.
Qed.

Lemma repr_object_extends {V : Type} (R R' : Heap.val -> V -> Prop)
    (h h' : Heap.heap) (v : Heap.val) (o : object V) :
  extends h h' -> (forall x y, R x y -> R' x y) ->
  repr_object R h v o -> repr_object R' h' v o.
Proof.
  intros He HRR (l & props & -> & Hl & Hsame). exists l, props.
  repeat split; auto. eapply same_entries_impl; eassumption.
Qed.

Lemma repr_tree_extends (h h' : Heap.heap) (v : Heap.val) (data : ResultTree) :
  extends h h' -> repr_tree h v data -> repr_tree h' v data.
Proof.
  intros He. apply repr_object_extends; [exact He|]. intros jv jsB.
  apply repr_object_extends; [exact He|]. intros sv sites.
  apply repr_object_extends; [exact He|]. intros bv b.
  apply (repr_buckets_extends h h' bv b He).
Qed.

Lemma repr_stats_extends (h h' : Heap.heap) (v : Heap.val) (s : Stats.t) :
  extends h h' -> repr_stats h v s -> repr_stats h' v s.
Proof.
  intros He (l & props & -> & Hl & Hg). exists l, props.
  repeat split; auto. intros g. eapply repr_pair_extends; [exact He|apply Hg].
Qed.

Lemma repr_cumulative_extends (h h' : Heap.heap) (v : Heap.val)
    (stats : CumulativeStats) :
  extends h h' -> repr_cumulative h v stats -> repr_cumulative h' v stats.
Proof.
  intros He. apply repr_object_extends; [exact He|]. intros sv s.
  apply (repr_stats_extends h h' sv s He).
Qed.

(** C9.  Over a store of arrays and objects, a call of [calculateMetricsData],
    [calculateCumulativeStats] or [calculateDeltas], whatever its argument and
    whether it returns or raises, leaves every array and object that was
    there as it was: the store after the call is the store before it and
    new cells.  So an argument that stood for a tree (for cumulative
    statistics) stands for the same one after the call.  And what the call
    returns stands for the value of the function on that tree (on those
    statistics) alone, or both raise: the result depends on nothing else. *)
Theorem aggregation_is_pure (h : Heap.heap) (v : Heap.val) :
  ((exists ext, snd (Heap.calculateMetricsData v h) = h ++ ext)
   /\ forall data, repr_tree h v data ->
        repr_tree (snd (Heap.calculateMetricsData v h)) v data
        /\ outcome_repr repr_chart (Heap.calculateMetricsData v h)
             (calculateMetricsData data))
  /\ ((exists ext, snd (Heap.calculateCumulativeStats v h) = h ++ ext)
      /\ forall data, repr_tree h v data ->
           repr_tree (snd (Heap.calculateCumulativeStats v h)) v data
           /\ outcome_repr repr_cumulative (Heap.calculateCumulativeStats v h)
                (calculateCumulativeStats data))
  /\ ((exists ext, snd (Heap.calculateDeltas v h) = h ++ ext)
      /\ forall stats, repr_cumulative h v stats ->
           repr_cumulative (snd (Heap.calculateDeltas v h)) v stats
           /\ outcome_repr repr_deltas (Heap.calculateDeltas v h)
                (calculateDeltas stats)).
Proof.
  pose proof (frame_safe_extends _ _ h (frame_safe_calculateMetricsData (length h) v))
    as [e1 E1].
  pose proof (frame_safe_extends _ _ h (frame_safe_calculateCumulativeStats (length h) v))
    as [e2 E2].
  pose proof (frame_safe_extends _ _ h (frame_safe_calculateDeltas (length h) v))
    as [e3 E3].
  repeat split.
  - exists e1. exact E1.
  - rewrite E1. apply (repr_tree_extends h); [apply extends_app|assumption].
  - apply calculateMetricsData_run. assumption.
  - exists e2. exact E2.
  - rewrite E2. apply (repr_tree_extends h); [apply extends_app|assumption].
  - apply calculateCumulativeStats_run. assumption.
  - exists e3. exact E3.
  - rewrite E3. apply (repr_cumulative_extends h); [apply extends_app|assumption].
  - apply calculateDeltas_run. assumption.
Qed.

Lemma example_store_repr : repr_tree example_store (Heap.Ref 7) example_store_tree.
Proof.
  exists 7%nat. eexists. split; [reflexivity|]. split; [reflexivity|].
  constructor; [|constructor]. split; [reflexivity|]. simpl snd.
  exists 6%nat. eexists. split; [reflexivity|]. split; [reflexivity|].
  constructor; [|constructor]. split; [reflexivity|]. simpl snd.
  exists 5%nat. eexists. split; [reflexivity|]. split; [reflexivity|].
  constructor; [|constructor]. split; [reflexivity|]. simpl snd.
  exists 4%nat. eexists. split; [reflexivity|]. split; [reflexivity|].
  split.
  - exists 2%nat. eexists. split; [reflexivity|]. split; [reflexivity|].
    constructor; [|constructor].
    exists 0%nat. eexists. split; [reflexivity|]. split; [reflexivity|].
    intros []; reflexivity.
  - exists 3%nat. eexists. split; [reflexivity|]. split; [reflexivity|].
    constructor; [|constructor].
    exists 1%nat. eexists. split; [reflexivity|]. split; [reflexivity|].
    intros []; simpl; auto.
Qed.

Lemma stats_store_repr : repr_cumulative stats_store (Heap.Ref 12) stats_numbers.
Proof.
  exists 12%nat. eexists. split; [reflexivity|]. split; [reflexivity|].
  constructor; [|constructor; [|constructor]].
  - split; [reflexivity|]. simpl snd.
    exists 5%nat. eexists. split; [reflexivity|]. split; [reflexivity|].
    intros []; apply repr_pair_cell; reflexivity.
  - split; [reflexivity|]. simpl snd.
    exists 11%nat. eexists. split; [reflexivity|]. split; [reflexivity|].
    intros []; apply repr_pair_cell; reflexivity.
Qed.

Lemma aggregation_is_pure_witness :
  repr_tree example_store (Heap.Ref 7) example_store_tree
  /\ repr_cumulative stats_store (Heap.Ref 12) stats_numbers
  /\ outcome_repr repr_chart
       (Heap.calculateMetricsData (Heap.Ref 7) example_store)
       (calculateMetricsData example_store_tree)
  /\ outcome_repr repr_cumulative
       (Heap.calculateCumulativeStats (Heap.Ref 7) example_store)
       (calculateCumulativeStats example_store_tree)
  /\ outcome_repr repr_deltas
       (Heap.calculateDeltas (Heap.Ref 12) stats_store)
       (calculateDeltas stats_numbers).
Proof.
  split; [exact example_store_repr|]. split; [exact stats_store_repr|].
  split; [|split].
  - exact (proj2 (proj2 (proj1 (aggregation_is_pure example_store (Heap.Ref 7)))
                    example_store_tree example_store_repr)).
  - exact (proj2 (proj2 (proj1 (proj2 (aggregation_is_pure example_store (Heap.Ref 7))))
                    example_store_tree example_store_repr)).
  - exact (proj2 (proj2 (proj2 (proj2 (aggregation_is_pure stats_store (Heap.Ref 12))))
                    stats_numbers stats_store_repr)).
Defined.

(** The run on the example store: the first eight cells are as before, and
    the returned object lists one cold and one warm entry. *)
Example example_store_run :
  firstn 8 (snd (Heap.calculateMetricsData (Heap.Ref 7) example_store))
  = example_store
  /\ fst (Heap.calculateMetricsData (Heap.Ref 7) example_store)
     = Ok (Heap.Ref 30).
Proof. split; vm_compute; reflexivity. Qed.

(** * Further properties of the code *)

(** ** The label of a chart entry *)

Lemma prefix_append (p s : string) : String.prefix p (p ++ s)%string = true.
Proof.
  induction p as [|c p IH]; simpl.
  - destruct s; reflexivity.
  - destruct (ascii_dec c c) as [_|Hne]; [exact IH | contradiction Hne; reflexivity].
Qed.

Lemma substring_all (s : string) : String.substring 0 (String.length s) s = s.
Proof. induction s as [|c s IH]; simpl; [reflexivity|]. rewrite IH. reflexivity. Qed.

Lemma length_append (p s : string) :
  String.length (p ++ s)%string = (String.length p + String.length s)%nat.
Proof. induction p as [|c p IH]; simpl; [reflexivity|]. rewrite IH. reflexivity. Qed.

Lemma substring_after (p s : string) :
  String.substring (String.length p)
    (String.length (p ++ s)%string - String.length p) (p ++ s)%string = s.
Proof.
  rewrite length_append.
  replace (String.length p + String.length s - String.length p)%nat
    with (String.length s) by lia.
  induction p as [|c p IH]; simpl; [apply substring_all | exact IH].
Qed.

Lemma replace_unfold (pat rep s : string) :
  replace pat rep s
  = if String.prefix pat s
    then (rep ++ String.substring (String.length pat)
                   (String.length s - String.length pat) s)%string
    else match s with
         | EmptyString => EmptyString
         | String c s' => String c (replace pat rep s')
         end.
Proof. destruct s; reflexivity. Qed.

Lemma replace_at_start (pat rep s : string) :
  replace pat rep (pat ++ s)%string = (rep ++ s)%string.
Proof.
  rewrite replace_unfold, prefix_append, substring_after. reflexivity.
Qed.

Lemma replace_first_slash (host rest : string) :
  has_char "/" host = false ->
  replace "/" "" (host ++ "/" ++ rest)%string = (host ++ rest)%string.
Proof.
  induction host as [|c host IH]; intros Hno.
  - apply (replace_at_start "/" "" rest).
  - simpl in Hno. destruct (Ascii.eqb c "/") eqn:Ec; [discriminate|].
    rewrite replace_unfold.
    change (String c host ++ "/" ++ rest)%string
      with (String c (host ++ "/" ++ rest)%string).
    replace (String.prefix "/" (String c (host ++ "/" ++ rest)%string))
      with false.
    + rewrite (IH Hno). reflexivity.
    + change (String.prefix "/" (String c (host ++ "/" ++ rest)%string))
        with (if ascii_dec "/" c
              then String.prefix "" (host ++ "/" ++ rest)%string else false).
      destruct (ascii_dec "/" c) as [Heq|_]; [|reflexivity].
      subst c. discriminate Ec.
Qed.

(** X1.  For a URL [https://host/rest] whose host has no slash, the label of
    the chart entries is the browser, the JS-state and [host ++ rest] with
    single spaces between: the scheme goes, and so does the first slash and
    no other, which is the trailing slash only when nothing follows the
    host. *)
Theorem make_label_strips_scheme_and_first_slash
    (browser jsLabel host rest : string) :
  has_char "/" host = false ->
  make_label browser jsLabel ("https://" ++ host ++ "/" ++ rest)
  = (browser ++ " " ++ jsLabel ++ " " ++ host ++ rest)%string.
Proof.
  intros Hno. unfold make_label.
  rewrite (replace_at_start "https://" "" (host ++ "/" ++ rest)).
  change ("" ++ (host ++ "/" ++ rest))%string with (host ++ "/" ++ rest)%string.
  rewrite (replace_first_slash host rest Hno). reflexivity.
Qed.

Lemma make_label_strips_scheme_and_first_slash_witness :
  has_char "/" "developer.mozilla.org" = false
  /\ make_label "Firefox" "JS_off" "https://developer.mozilla.org/en-US/docs/"
     = "Firefox JS_off developer.mozilla.orgen-US/docs/"%string.
Proof.
  split; [reflexivity|].
  exact (make_label_strips_scheme_and_first_slash
           "Firefox" "JS_off" "developer.mozilla.org" "en-US/docs/" eq_refl).
Defined.

(** ** The shape of the chart data *)

(** X2.  When [calculateMetricsData] returns, its cold and its warm list
    have one entry per leaf of the tree, in the order the three loops visit
    the leaves, and the cold and the warm entry of a leaf carry the same
    label, the one made of the leaf's browser, JS-state and URL. *)
Theorem calculateMetricsData_labels_in_loop_order
    (data : ResultTree) (chart : Chart.t) :
  calculateMetricsData data = Ok chart ->
  map Entry.label (Chart.cold chart) = map leaf_label (leaves data)
  /\ map Entry.label (Chart.warm chart) = map leaf_label (leaves data)
  /\ length (Chart.cold chart) = length (leaves data)
  /\ length (Chart.warm chart) = length (leaves data).
Proof.
  intros H.
  destruct (all_complete_or_some_incomplete (leaves data)) as [Hc|Hi].
  - rewrite (calculateMetricsData_complete data Hc) in H.
    injection H as <-. simpl. rewrite !map_map, !length_map. simpl.
    repeat split; reflexivity.
  - rewrite (calculateMetricsData_incomplete data Hi) in H. discriminate.
Qed.

Lemma calculateMetricsData_labels_in_loop_order_witness :
  exists chart, calculateMetricsData example_tree = Ok chart
    /\ map Entry.label (Chart.cold chart) = map leaf_label (leaves example_tree)
    /\ map Entry.label (Chart.warm chart) = map Entry.label (Chart.cold chart).
Proof.
  eexists. split; [reflexivity|].
  destruct (calculateMetricsData_labels_in_loop_order example_tree _ eq_refl)
    as [Hc [Hw _]].
  split; [exact Hc|]. rewrite Hc. exact Hw.
Defined.

(** ** The keys of an object *)

Lemma keys_set_in {V : Type} (o : object V) (key : string) (v : V) :
  In key (keys o) -> keys (set o key v) = keys o.
Proof.
  induction o as [|[k w] o IH]; simpl; intros H; [contradiction|].
  destruct (String.eqb k key) eqn:E; simpl; [reflexivity|].
  f_equal. apply IH. destruct H as [H|H]; [|exact H].
  subst k. rewrite String.eqb_refl in E. discriminate.
Qed.

Lemma keys_set_new {V : Type} (o : object V) (key : string) (v : V) :
  ~ In key (keys o) -> keys (set o key v) = keys o ++ [key].
Proof.
  induction o as [|[k w] o IH]; simpl; intros H; [reflexivity|].
  destruct (String.eqb k key) eqn:E; simpl.
  - apply String.eqb_eq in E. contradiction H. left. exact E.
  - f_equal. apply IH. intros Hin. apply H. right. exact Hin.
Qed.

Lemma get_none_keys {V : Type} (o : object V) (key : string) :
  get o key = None <-> ~ In key (keys o).
Proof.
  induction o as [|[k w] o IH]; simpl.
  - split; [intros _ []|reflexivity].
  - destruct (String.eqb k key) eqn:E.
    + apply String.eqb_eq in E. split; [discriminate|].
      intros H. contradiction H. left. exact E.
    + apply String.eqb_neq in E. rewrite IH. split.
      * intros H [H'|H']; [contradiction|contradiction].
      * intros H H'. apply H. right. exact H'.
Qed.

Lemma keys_record (data : ResultTree) (stats : CumulativeStats) :
  NoDup (keys stats ++ keys data) ->
  keys (fold_left record_browser data stats) = keys stats ++ keys data.
Proof.
  revert stats. induction data as [|[b jsB] data IH]; intros stats H; simpl.
  - rewrite app_nil_r. reflexivity.
  - assert (Hnew : ~ In b (keys stats)).
    { intros Hin. apply NoDup_remove_2 in H. apply H.
      apply in_or_app. left. exact Hin. }
    unfold record_browser at 2. simpl fst. simpl snd.
    rewrite IH; rewrite (keys_set_new _ _ _ Hnew).
    + rewrite <- app_assoc. reflexivity.
    + rewrite <- app_assoc. exact H.
Qed.

(** X3.  On a tree whose browser keys are ordinary property names (none is
    [__proto__], none is made of digits only), [calculateCumulativeStats]
    returns one entry per browser key of the tree and no other key, in the
    order of the tree: the keys of the statistics are the keys of the
    data. *)
Theorem calculateCumulativeStats_keys
    (data : ResultTree) (stats : CumulativeStats) :
  NoDup (keys data) ->
  Forall ordinary_name (keys data) ->
  calculateCumulativeStats data = Ok stats ->
  keys stats = keys data.
Proof.
  intros Hnd _ H.
  destruct (all_complete_or_some_incomplete (leaves data)) as [Hc|Hi].
  - rewrite (calculateCumulativeStats_complete data Hc) in H.
    injection H as <-. apply (keys_record data []). exact Hnd.
  - rewrite (calculateCumulativeStats_incomplete data Hi) in H. discriminate.
Qed.

Lemma calculateCumulativeStats_keys_witness :
  NoDup (keys example_tree) /\
  Forall ordinary_name (keys example_tree) /\
  exists stats, calculateCumulativeStats example_tree = Ok stats
                /\ keys stats = ["Chrome"; "Firefox"]%string.
Proof.
  assert (Hnd : NoDup (keys example_tree)).
  { repeat constructor; simpl; intuition discriminate. }
  assert (Hk : Forall ordinary_name (keys example_tree)).
  { repeat constructor; solve [discriminate | right; reflexivity]. }
  split; [exact Hnd|]. split; [exact Hk|].
  eexists. split; [reflexivity|].
  exact (calculateCumulativeStats_keys example_tree _ Hnd Hk eq_refl).
Defined.

(** ** The JS-state pools *)

Lemma all_samples_cons (l : Leaf) (ls : list Leaf) :
  all_samples (l :: ls) = (cold_of l ++ warm_of l) ++ all_samples ls.
Proof. reflexivity. Qed.

Lemma all_samples_js_on_off (ls : list Leaf) :
  Permutation (all_samples ls) (js_on_samples ls ++ js_off_samples ls).
Proof.
  unfold js_on_samples, js_off_samples.
  induction ls as [|l ls IH]; [constructor|].
  rewrite all_samples_cons.
  change (filter is_js_on (l :: ls))
    with (if is_js_on l then l :: filter is_js_on ls else filter is_js_on ls).
  change (filter (fun l0 => negb (is_js_on l0)) (l :: ls))
    with (if negb (is_js_on l)
          then l :: filter (fun l0 => negb (is_js_on l0)) ls
          else filter (fun l0 => negb (is_js_on l0)) ls).
  destruct (is_js_on l); cbv [negb]; rewrite all_samples_cons.
  - rewrite <- (app_assoc (cold_of l ++ warm_of l)).
    apply Permutation_app_head. exact IH.
  - etransitivity; [apply Permutation_app_head; exact IH|].
    apply Permutation_app_swap_app.
Qed.

Lemma browser_summary_fields (browser : string) (jsBuckets : JsBuckets)
    (m : metric2) :
  let ls := browser_leaves browser jsBuckets in
  let s := browser_summary browser jsBuckets in
  pair_field m (Stats.overall s) = avg (values_of (raw m) (all_samples ls))
  /\ pair_field m (Stats.jsOn s) = avg (values_of (raw m) (js_on_samples ls))
  /\ pair_field m (Stats.jsOff s) = avg (values_of (raw m) (js_off_samples ls))
  /\ pair_field m (Stats.cold s) = avg (values_of (raw m) (cold_samples ls))
  /\ pair_field m (Stats.warm s) = avg (values_of (raw m) (warm_samples ls)).
Proof. destruct m; repeat split; reflexivity. Qed.

Lemma calculateCumulativeStats_browser (data : ResultTree) (browser : string)
    (jsBuckets : JsBuckets) :
  NoDup (keys data) ->
  In (browser, jsBuckets) data ->
  Forall complete (leaves data) ->
  exists stats,
    calculateCumulativeStats data = Ok stats
    /\ get stats browser = Some (browser_summary browser jsBuckets).
Proof.
  intros Hnd Hin Hc. eexists. split.
  - apply calculateCumulativeStats_complete. exact Hc.
  - apply get_record_browser; assumption.
Qed.

(** X4.  For every browser of a tree whose leaves are complete, the jsOn
    means that [calculateCumulativeStats] stores are the means over the
    samples, cold and warm, of the leaves under the key [JS_on], and the
    jsOff means are the means over the samples of the leaves under every
    other key, whatever it is called.  The overall mean is the mean over
    all the samples, and the two pools together hold the values of the
    overall pool and no other. *)
Theorem calculateCumulativeStats_js_pools
    (data : ResultTree) (browser : string) (jsBuckets : JsBuckets) :
  NoDup (keys data) ->
  In (browser, jsBuckets) data ->
  Forall complete (leaves data) ->
  exists stats s,
    calculateCumulativeStats data = Ok stats /\
    get stats browser = Some s /\
    forall m : metric2,
      let ls := browser_leaves browser jsBuckets in
      let on := filter (fun l => String.eqb (leaf_jsLabel l) "JS_on") ls in
      let off :=
        filter (fun l => negb (String.eqb (leaf_jsLabel l) "JS_on")) ls in
      pair_field m (Stats.jsOn s) = avg (values_of (raw m) (all_samples on))
      /\ pair_field m (Stats.jsOff s) = avg (values_of (raw m) (all_samples off))
      /\ pair_field m (Stats.overall s)
         = avg (values_of (raw m) (all_samples ls))
      /\ Permutation (values_of (raw m) (all_samples ls))
                     (values_of (raw m) (all_samples on)
                      ++ values_of (raw m) (all_samples off)).
Proof.
  intros Hnd Hin Hc.
  destruct (calculateCumulativeStats_browser data browser jsBuckets Hnd Hin Hc)
    as [stats [Hs Hg]].
  exists stats, (browser_summary browser jsBuckets).
  split; [exact Hs|]. split; [exact Hg|].
  intros m. cbv zeta.
  destruct (browser_summary_fields browser jsBuckets m)
    as [Ho [Hon [Hoff _]]].
  split; [exact Hon|]. split; [exact Hoff|]. split; [exact Ho|].
  rewrite <- values_of_app.
  apply values_of_Permutation, all_samples_js_on_off.
Qed.

Lemma calculateCumulativeStats_js_pools_witness :
  exists stats s,
    calculateCumulativeStats tree_other_js_key = Ok stats /\
    get stats "Chrome" = Some s /\
    Pair.fcp (Stats.jsOn s) = Num 142 /\
    Pair.fcp (Stats.jsOff s) = Num 110.
Proof.
  assert (Hnd : NoDup (keys tree_other_js_key)).
  { repeat constructor; simpl; intuition discriminate. }
  assert (Hc : Forall complete (leaves tree_other_js_key)).
  { repeat constructor; simpl; discriminate. }
  destruct (calculateCumulativeStats_js_pools tree_other_js_key "Chrome" _
              Hnd (or_introl eq_refl) Hc) as [stats [s [Hs [Hg H]]]].
  exists stats, s. split; [exact Hs|]. split; [exact Hg|].
  destruct (H FCP) as [Hon [Hoff _]]. simpl in Hon, Hoff.
  rewrite Hon, Hoff. split; reflexivity.
Defined.

(** ** calculateDeltas: the two browsers it reads *)

(** X6.  [calculateDeltas] raises (a TypeError) exactly when the statistics
    have no [Chrome] entry or no [Firefox] entry, and it reads nothing else:
    two statistics objects with the same two entries give the same result,
    whatever other browsers they hold and in whatever order. *)
Theorem calculateDeltas_raises_iff_browser_missing (stats : CumulativeStats) :
  (calculateDeltas stats = Throw TypeError
   <-> get stats "Chrome" = None \/ get stats "Firefox" = None)
  /\ (forall stats' : CumulativeStats,
        get stats' "Chrome" = get stats "Chrome" ->
        get stats' "Firefox" = get stats "Firefox" ->
        calculateDeltas stats' = calculateDeltas stats).
Proof.
  split.
  - unfold calculateDeltas, browser_stats.
    destruct (get stats "Chrome") as [c|]; simpl.
    + destruct (get stats "Firefox") as [f|]; simpl.
      * split; [discriminate|]. intros [H|H]; discriminate.
      * split; [intros _; right; reflexivity | reflexivity].
    + split; [intros _; left; reflexivity | reflexivity].
  - intros stats' Hc Hf. unfold calculateDeltas, browser_stats.
    rewrite Hc, Hf. reflexivity.
Qed.

Lemma calculateDeltas_raises_iff_browser_missing_witness :
  get [("Chrome"%string, chrome_numbers)] "Firefox" = None
  /\ calculateDeltas [("Chrome"%string, chrome_numbers)] = Throw TypeError
  /\ calculateDeltas
       [("Firefox"%string, firefox_numbers); ("Safari"%string, chrome_numbers);
        ("Chrome"%string, chrome_numbers)]
     = calculateDeltas stats_numbers.
Proof.
  split; [reflexivity|]. split.
  - apply (proj1 (calculateDeltas_raises_iff_browser_missing _)).
    right. reflexivity.
  - apply (proj2 (calculateDeltas_raises_iff_browser_missing stats_numbers));
      reflexivity.
Defined.

(** X7.  Exchanging the statistics of the two browsers negates both
    firefoxVsChrome deltas and exchanges the Chrome and Firefox columns of
    the jsOff and warmCache deltas. *)
Theorem calculateDeltas_browsers_exchanged
    (stats stats' : CumulativeStats) (chrome firefox : Stats.t) :
  get stats "Chrome" = Some chrome ->
  get stats "Firefox" = Some firefox ->
  get stats' "Chrome" = Some firefox ->
  get stats' "Firefox" = Some chrome ->
  exists d d',
    calculateDeltas stats = Ok d /\ calculateDeltas stats' = Ok d' /\
    (forall m x,
       pair_field m (Deltas.firefoxVsChrome d) = Num x ->
       pair_field m (Deltas.firefoxVsChrome d') =v= Num (- x)) /\
    Deltas.Chrome (Deltas.jsOff d') = Deltas.Firefox (Deltas.jsOff d) /\
    Deltas.Firefox (Deltas.jsOff d') = Deltas.Chrome (Deltas.jsOff d) /\
    Deltas.Chrome (Deltas.warmCache d') = Deltas.Firefox (Deltas.warmCache d) /\
    Deltas.Firefox (Deltas.warmCache d') = Deltas.Chrome (Deltas.warmCache d).
Proof.
  intros Hc Hf Hc' Hf'. unfold calculateDeltas, browser_stats.
  rewrite Hc, Hf, Hc', Hf'. simpl.
  eexists. eexists. split; [reflexivity|]. split; [reflexivity|]. simpl.
  split; [|repeat split].
  intros m x H. destruct m; simpl in *; unfold js_sub in *;
    injection H as <-; simpl; apply sub_swap.
Qed.

Lemma calculateDeltas_browsers_exchanged_witness :
  exists d d',
    calculateDeltas stats_numbers = Ok d /\
    calculateDeltas
      [("Chrome"%string, firefox_numbers); ("Firefox"%string, chrome_numbers)]
    = Ok d' /\
    Pair.fcp (Deltas.firefoxVsChrome d) = Num (600 - 500) /\
    Pair.fcp (Deltas.firefoxVsChrome d') =v= Num (- (600 - 500)).
Proof.
  destruct (calculateDeltas_browsers_exchanged
              stats_numbers
              [("Chrome"%string, firefox_numbers); ("Firefox"%string, chrome_numbers)]
              chrome_numbers firefox_numbers
              eq_refl eq_refl eq_refl eq_refl)
    as [d [d' [Hd [Hd' [H _]]]]].
  exists d, d'. split; [exact Hd|]. split; [exact Hd'|].
  assert (E : Pair.fcp (Deltas.firefoxVsChrome d) = Num (600 - 500)).
  { vm_compute in Hd. injection Hd as <-. reflexivity. }
  split; [exact E|]. exact (H FCP _ E).
Defined.

(** ** generateHtml *)

Lemma get_record_none (data : ResultTree) (stats : CumulativeStats)
    (key : string) :
  get (fold_left record_browser data stats) key = None
  <-> get stats key = None /\ ~ In key (keys data).
Proof.
  revert stats. induction data as [|[b jsB] data IH]; intros stats; simpl.
  - split; [intros H; split; [exact H|intros []] | intros [H _]; exact H].
  - rewrite IH. unfold record_browser. simpl fst. simpl snd.
    destruct (string_dec b key) as [->|Hne].
    + rewrite get_set_eq. split; [intros [H _]; discriminate|].
      intros [_ H]. contradiction H. left. reflexivity.
    + rewrite (get_set_ne _ _ _ _ Hne). split.
      * intros [H H']. split; [exact H|]. intros [E|Hin]; contradiction.
      * intros [H H']. split; [exact H|]. intros Hin. apply H'. right. exact Hin.
Qed.

Lemma generateHtml_run (data : ResultTree) (chart : Chart.t)
    (stats : CumulativeStats) (chrome firefox : Stats.t) :
  calculateMetricsData data = Ok chart ->
  calculateCumulativeStats data = Ok stats ->
  get stats "Chrome" = Some chrome ->
  get stats "Firefox" = Some firefox ->
  generateHtml data = Ok (page_of chart stats chrome firefox).
Proof.
  intros Hm Hs Hc Hf. unfold generateHtml, calculateDeltas, browser_stats.
  rewrite Hm, Hs. simpl. rewrite Hc, Hf. reflexivity.
Qed.

Lemma generateHtml_throw (data : ResultTree) :
  generateHtml data = Throw TypeError
  <-> Exists incomplete (leaves data)
      \/ ~ In "Chrome"%string (keys data) \/ ~ In "Firefox"%string (keys data).
Proof.
  destruct (all_complete_or_some_incomplete (leaves data)) as [Hc|Hi].
  - pose proof (calculateMetricsData_complete data Hc) as Hm.
    pose proof (calculateCumulativeStats_complete data Hc) as Hs.
    set (stats := fold_left record_browser data []) in *.
    assert (Hnot : ~ Exists incomplete (leaves data)).
    { intros Hex. apply Exists_exists in Hex. destruct Hex as [l [Hin [H|H]]];
        rewrite Forall_forall in Hc; destruct (Hc l Hin) as [H1 H2];
        contradiction. }
    destruct (get stats "Chrome") as [chrome|] eqn:Ec.
    + destruct (get stats "Firefox") as [firefox|] eqn:Ef.
      * rewrite (generateHtml_run data _ _ _ _ Hm Hs Ec Ef).
        split; [discriminate|].
        intros [H|[H|H]]; [contradiction| |].
        -- assert (E : get stats "Chrome" = None)
             by (apply get_record_none; split; [reflexivity|exact H]).
           rewrite E in Ec. discriminate.
        -- assert (E : get stats "Firefox" = None)
             by (apply get_record_none; split; [reflexivity|exact H]).
           rewrite E in Ef. discriminate.
      * split.
        -- intros _. right. right. apply (get_record_none data [] "Firefox").
           exact Ef.
        -- intros _. unfold generateHtml, calculateDeltas, browser_stats.
           rewrite Hm, Hs. simpl. rewrite Ec, Ef. reflexivity.
    + split.
      * intros _. right. left. apply (get_record_none data [] "Chrome").
        exact Ec.
      * intros _. unfold generateHtml, calculateDeltas, browser_stats.
        rewrite Hm, Hs. simpl. rewrite Ec. reflexivity.
  - split; [intros _; left; exact Hi|]. intros _. unfold generateHtml.
    rewrite (calculateMetricsData_incomplete data Hi). reflexivity.
Qed.

(** X8.  [generateHtml] raises (a TypeError) exactly when some leaf of the
    tree lacks its cold or its warm key, or the tree has no [Chrome] key, or
    it has no [Firefox] key; on every other tree it returns a page.  So a
    tree of one browser, which the aggregation functions accept, makes
    [generateHtml] raise. *)
Theorem generateHtml_raises_iff_leaf_or_browser_missing (data : ResultTree) :
  (generateHtml data = Throw TypeError
   <-> Exists incomplete (leaves data)
       \/ ~ In "Chrome"%string (keys data)
       \/ ~ In "Firefox"%string (keys data))
  /\ ((exists page, generateHtml data = Ok page)
      <-> Forall complete (leaves data)
          /\ In "Chrome"%string (keys data)
          /\ In "Firefox"%string (keys data)).
Proof.
  split; [apply generateHtml_throw|].
  pose proof (generateHtml_throw data) as Ht. split.
  - intros [page Hp].
    assert (Hn : ~ (Exists incomplete (leaves data)
                    \/ ~ In "Chrome"%string (keys data)
                    \/ ~ In "Firefox"%string (keys data))).
    { intros H. apply Ht in H. rewrite H in Hp. discriminate. }
    split; [|split].
    + destruct (all_complete_or_some_incomplete (leaves data)) as [Hc|Hi];
        [exact Hc|]. contradiction Hn. left. exact Hi.
    + destruct (in_dec string_dec "Chrome"%string (keys data)) as [H|H];
        [exact H|]. contradiction Hn. right. left. exact H.
    + destruct (in_dec string_dec "Firefox"%string (keys data)) as [H|H];
        [exact H|]. contradiction Hn. right. right. exact H.
  - intros [Hc [HC HF]].
    destruct (generateHtml data) as [page|[]] eqn:E; [exists page; reflexivity|].
    destruct (proj1 Ht eq_refl) as [H|[H|H]]; try contradiction.
    exfalso. apply Exists_exists in H. destruct H as [l [Hin [H|H]]];
      rewrite Forall_forall in Hc; destruct (Hc l Hin) as [H1 H2];
      contradiction.
Qed.

Lemma generateHtml_raises_iff_leaf_or_browser_missing_witness :
  (exists chart, calculateMetricsData tree_without_firefox = Ok chart)
  /\ (exists stats, calculateCumulativeStats tree_without_firefox = Ok stats)
  /\ generateHtml tree_without_firefox = Throw TypeError
  /\ exists page, generateHtml example_tree = Ok page.
Proof.
  split; [eexists; reflexivity|]. split; [eexists; reflexivity|]. split.
  - apply (proj1 (generateHtml_raises_iff_leaf_or_browser_missing _)).
    right. right. simpl. intuition discriminate.
  - apply (proj2 (generateHtml_raises_iff_leaf_or_browser_missing _)).
    split; [exact example_tree_complete|]. simpl. split; auto.
Defined.

(** A number is below zero, or it is zero or above, or it is NaN. *)
Lemma below_zero_cases (x : float) :
  (x <? 0) = negb ((0 <=? x) || is_nan x)%bool.
Proof.
  unfold is_nan.
  rewrite FloatAxioms.ltb_spec, FloatAxioms.leb_spec, FloatAxioms.eqb_spec.
  change (Prim2SF 0) with (S754_zero false).
  destruct (Prim2SF x) as [s|s| |s m e]; try reflexivity.
  - destruct s; reflexivity.
  - unfold SFltb, SFleb, SFeqb, SFcompare.
    rewrite Z.compare_refl, Pos.compare_cont_refl.
    destruct s; reflexivity.
Qed.

Lemma delta_class_sign (q : float) :
  (delta_class (Num q) = "positive"%string <-> (q <? 0) = true)
  /\ (delta_class (Num q) = "negative"%string
      <-> (0 <=? q) = true \/ is_nan q = true).
Proof.
  unfold delta_class, js_lt. simpl ToNumber.
  rewrite below_zero_cases.
  destruct ((0 <=? q) || is_nan q)%bool eqn:E; simpl.
  - apply orb_true_iff in E. split; split.
    + discriminate.
    + discriminate.
    + intros _. exact E.
    + intros _. reflexivity.
  - apply orb_false_iff in E. destruct E as [E1 E2]. split; split.
    + intros _. reflexivity.
    + intros _. reflexivity.
    + discriminate.
    + intros [H|H]; congruence.
Qed.

Lemma cell_of_page_of (chart : Chart.t) (stats : CumulativeStats)
    (chrome firefox : Stats.t) (c : comparison) (m : metric2) :
  cell_of c m (page_of chart stats chrome firefox)
  = Some (cell_for chrome firefox c m).
Proof. destruct c, m; reflexivity. Qed.

Lemma generateHtml_inv (data : ResultTree) (page : Page.t) :
  generateHtml data = Ok page ->
  exists chart stats chrome firefox,
    calculateMetricsData data = Ok chart
    /\ calculateCumulativeStats data = Ok stats
    /\ get stats "Chrome" = Some chrome
    /\ get stats "Firefox" = Some firefox
    /\ page = page_of chart stats chrome firefox.
Proof.
  intros H.
  destruct (calculateMetricsData data) as [chart|e] eqn:Em;
    [|unfold generateHtml in H; rewrite Em in H; discriminate].
  destruct (calculateCumulativeStats data) as [stats|e] eqn:Es;
    [|unfold generateHtml in H; rewrite Em, Es in H; discriminate].
  destruct (get stats "Chrome") as [chrome|] eqn:Ec;
    [|unfold generateHtml, calculateDeltas, browser_stats in H;
      rewrite Em, Es in H; simpl in H; rewrite Ec in H; discriminate].
  destruct (get stats "Firefox") as [firefox|] eqn:Ef;
    [|unfold generateHtml, calculateDeltas, browser_stats in H;
      rewrite Em, Es in H; simpl in H; rewrite Ec, Ef in H; discriminate].
  rewrite (generateHtml_run data chart stats chrome firefox Em Es Ec Ef) in H.
  injection H as <-.
  exists chart, stats, chrome, firefox.
  split; [reflexivity|]. split; [reflexivity|]. split; [exact Ec|].
  split; [exact Ef|reflexivity].
Qed.

(** X9.  A page that [generateHtml] returns holds what the three aggregation
    functions return on the same tree: the chart data of
    [calculateMetricsData], the statistics of [calculateCumulativeStats], and
    in each of the ten cells of the delta table the delta that
    [calculateDeltas] gives on these statistics for the cell's comparison
    and metric.  The cell is classed positive when its delta is below zero
    and negative otherwise: when it is zero or above, a delta of zero
    included, and when it is NaN. *)
Theorem generateHtml_page_contents (data : ResultTree) (page : Page.t) :
  generateHtml data = Ok page ->
  calculateMetricsData data = Ok (Page.metricsData page)
  /\ calculateCumulativeStats data = Ok (Page.cumulativeStats page)
  /\ length (cells page) = 10%nat
  /\ exists d, calculateDeltas (Page.cumulativeStats page) = Ok d /\
       forall c m, exists cell,
         cell_of c m page = Some cell
         /\ pair_field m (delta_of c d) = Num (Cell.number cell)
         /\ (Cell.class cell = "positive"%string
             <-> (Cell.number cell <? 0) = true)
         /\ (Cell.class cell = "negative"%string
             <-> (0 <=? Cell.number cell) = true
                 \/ is_nan (Cell.number cell) = true).
Proof.
  intros H.
  destruct (generateHtml_inv data page H)
    as [chart [stats [chrome [firefox [Em [Es [Ec [Ef ->]]]]]]]].
  split; [exact Em|]. split; [exact Es|]. split; [reflexivity|].
  destruct (calculateDeltas_fields stats chrome firefox Ec Ef) as [d [Hd Hfld]].
  exists d. split; [exact Hd|].
  intros c m. exists (cell_for chrome firefox c m).
  split; [apply cell_of_page_of|]. rewrite Hfld.
  split; [reflexivity|]. apply delta_class_sign.
Qed.

Lemma generateHtml_page_contents_witness :
  exists page cell,
    generateHtml example_tree = Ok page
    /\ cell_of WarmCache_Chrome FCP page = Some cell
    /\ Cell.class cell = "positive"%string
    /\ (Cell.number cell <? 0) = true.
Proof.
  destruct (generateHtml example_tree) as [page|e] eqn:E;
    [|vm_compute in E; discriminate].
  destruct (generateHtml_page_contents example_tree page E)
    as [_ [_ [_ [d [_ H]]]]].
  destruct (H WarmCache_Chrome FCP) as [cell [Hc [_ [Hpos _]]]].
  exists page, cell. split; [reflexivity|]. split; [exact Hc|].
  assert (Hclass : Cell.class cell = "positive"%string).
  { vm_compute in E. injection E as <-. vm_compute in Hc.
    injection Hc as <-. reflexivity. }
  split; [exact Hclass|]. apply Hpos. exact Hclass.
Defined.

(** ** runBenchmark: writes along the path of a leaf *)

Lemma set_set {V : Type} (o : object V) (key : string) (v v' : V) :
  set (set o key v) key v' = set o key v'.
Proof.
  induction o as [|[k w] o IH]; simpl.
  - rewrite String.eqb_refl. reflexivity.
  - destruct (String.eqb k key) eqn:E; simpl; rewrite E; [reflexivity|].
    rewrite IH. reflexivity.
Qed.

Section Path.

Variable results : ResultTree.
Variable browserName jsLabel : string.
Variable jsBuckets : JsBuckets.
Hypothesis Hbrowser : get results browserName = Some jsBuckets.

Lemma put_eq (sites : Sites) :
  put results browserName jsLabel sites
  = set results browserName (set jsBuckets jsLabel sites).
Proof. unfold put. rewrite Hbrowser. reflexivity. Qed.

Lemma member_put (sites : Sites) :
  member (put results browserName jsLabel sites) browserName
  = Ok (set jsBuckets jsLabel sites).
Proof. rewrite put_eq. unfold member. rewrite get_set_eq. reflexivity. Qed.

Lemma put_put (sites sites' : Sites) :
  set (put results browserName jsLabel sites) browserName
    (set (set jsBuckets jsLabel sites) jsLabel sites')
  = put results browserName jsLabel sites'.
Proof. rewrite !put_eq, !set_set. reflexivity. Qed.

Lemma assign_jsLabel_put (sites : Sites) :
  assign_jsLabel results browserName jsLabel sites
  = Ok (put results browserName jsLabel sites).
Proof.
  unfold assign_jsLabel, member. rewrite Hbrowser. simpl.
  rewrite put_eq. reflexivity.
Qed.

Lemma assign_site_put (sites : Sites) (url : string) (b : Buckets.t) :
  assign_site (put results browserName jsLabel sites) browserName jsLabel url b
  = Ok (put results browserName jsLabel (set sites url b)).
Proof.
  unfold assign_site. rewrite member_put. simpl.
  unfold member. rewrite get_set_eq. simpl. rewrite put_put. reflexivity.
Qed.

Lemma push_cold_put (sites : Sites) (url : string) (x : Sample.t) :
  run (push_cold (put results browserName jsLabel sites) browserName jsLabel
         url x)
  = outcome_map (put results browserName jsLabel)
      (run (site_push_cold sites url x)).
Proof.
  unfold push_cold, site_push_cold. rewrite member_put. simpl.
  unfold member at 1. rewrite get_set_eq. simpl.
  destruct (member sites url) as [b|e]; simpl; [|reflexivity].
  destruct (array_push (Buckets.cold b) x) as [rs|e]; simpl; [|reflexivity].
  rewrite put_put. reflexivity.
Qed.

Lemma push_warm_put (sites : Sites) (url : string) (x : Sample.t) :
  run (push_warm (put results browserName jsLabel sites) browserName jsLabel
         url x)
  = outcome_map (put results browserName jsLabel)
      (run (site_push_warm sites url x)).
Proof.
  unfold push_warm, site_push_warm. rewrite member_put. simpl.
  unfold member at 1. rewrite get_set_eq. simpl.
  destruct (member sites url) as [b|e]; simpl; [|reflexivity].
  destruct (array_push (Buckets.warm b) x) as [rs|e]; simpl; [|reflexivity].
  rewrite put_put. reflexivity.
Qed.

End Path.

Lemma for_each_map {X A B : Type} (F : A -> B) (xs : list X)
    (body : X -> B -> outcome B) (body' : X -> A -> outcome A) :
  (forall x a, body x (F a) = outcome_map F (body' x a)) ->
  forall a, for_each xs body (F a) = outcome_map F (for_each xs body' a).
Proof.
  intros H. induction xs as [|x xs IH]; intros a; simpl; [reflexivity|].
  rewrite H. destruct (body' x a) as [a'|f]; simpl; [apply IH|reflexivity].
Qed.

Lemma for_each_from_map {A B : Type} (F : A -> B) (urls : list string)
    (body : nat -> string -> B -> outcome B)
    (body' : nat -> string -> A -> outcome A) :
  (forall k url a, body k url (F a) = outcome_map F (body' k url a)) ->
  forall k a,
    for_each_from k urls body (F a)
    = outcome_map F (for_each_from k urls body' a).
Proof.
  intros H. induction urls as [|url urls IH]; intros k a; simpl; [reflexivity|].
  rewrite H. destruct (body' k url a) as [a'|f]; simpl; [apply IH|reflexivity].
Qed.

Lemma for_each_resolved {X A : Type} (xs : list X) (step : A -> X -> A) (a : A) :
  for_each xs (fun x a => Resolved (step a x)) a = Resolved (fold_left step xs a).
Proof.
  revert a. induction xs as [|x xs IH]; intros a; simpl; [reflexivity|apply IH].
Qed.

Section PathLoops.

Variable world : World.t.
Variable urls : list string.
Variable iterations : nat.
Variable results : ResultTree.
Variable browserName : string.
Variable jsOn : bool.
Variable jsBuckets : JsBuckets.
Hypothesis Hbrowser : get results browserName = Some jsBuckets.

Lemma visit_put (launchTime : float) (iter k : nat) (url : string) (sites : Sites) :
  visit world browserName jsOn launchTime iter k url
    (put results browserName (js_label jsOn) sites)
  = outcome_map (put results browserName (js_label jsOn))
      (site_visit world browserName jsOn launchTime iter k url sites).
Proof.
  unfold visit, site_visit.
  destruct (World.cold world browserName jsOn iter k) as [t|]; simpl;
    [|reflexivity].
  rewrite (push_cold_put results browserName (js_label jsOn) jsBuckets Hbrowser).
  destruct (run (site_push_cold sites url (cold_sample launchTime t)))
    as [sites'|f]; simpl; [|reflexivity].
  destruct (World.warm world browserName jsOn iter k) as [t'|]; simpl;
    [|reflexivity].
  apply (push_warm_put results browserName (js_label jsOn) jsBuckets Hbrowser).
Qed.

Lemma iteration_put (iter : nat) (sites : Sites) :
  iteration world urls browserName jsOn iter
    (put results browserName (js_label jsOn) sites)
  = outcome_map (put results browserName (js_label jsOn))
      (site_iteration world urls browserName jsOn iter sites).
Proof.
  unfold iteration, site_iteration.
  destruct (World.launch world browserName jsOn iter) as [launchTime|]; simpl;
    [|reflexivity].
  destruct (World.newPage world browserName jsOn iter); simpl; [|reflexivity].
  rewrite (for_each_from_map (put results browserName (js_label jsOn)) urls
             (visit world browserName jsOn launchTime iter)
             (site_visit world browserName jsOn launchTime iter)
             (visit_put launchTime iter)).
  destruct (for_each_from 0 urls
              (site_visit world browserName jsOn launchTime iter) sites)
    as [sites'|f]; simpl; [|reflexivity].
  destruct (World.close world browserName jsOn iter); reflexivity.
Qed.

Lemma js_state_put :
  js_state world urls iterations browserName jsOn results
  = outcome_map (put results browserName (js_label jsOn))
      (site_runs world urls iterations browserName jsOn).
Proof.
  unfold js_state, site_runs.
  rewrite (assign_jsLabel_put results browserName (js_label jsOn) jsBuckets
             Hbrowser). simpl.
  rewrite (for_each_map (put results browserName (js_label jsOn)) urls _
             (fun url sites => Resolved (seed sites url))).
  - rewrite for_each_resolved. simpl.
    apply (for_each_map (put results browserName (js_label jsOn))).
    apply iteration_put.
  - intros url sites.
    rewrite (assign_site_put results browserName (js_label jsOn) jsBuckets
               Hbrowser). reflexivity.
Qed.

End PathLoops.

(** The tree with the given four site objects. *)
Lemma collect_sites (world : World.t) (urls : list string) (iterations : nat) :
  collect world urls iterations
  = (s1 <== site_runs world urls iterations "Chrome" true ;;
     s2 <== site_runs world urls iterations "Chrome" false ;;
     s3 <== site_runs world urls iterations "Firefox" true ;;
     s4 <== site_runs world urls iterations "Firefox" false ;;
     Resolved [("Chrome"%string, [("JS_on"%string, s1); ("JS_off"%string, s2)]);
               ("Firefox"%string, [("JS_on"%string, s3); ("JS_off"%string, s4)])]).
Proof.
  unfold collect. simpl for_each. cbv zeta.
  rewrite (js_state_put world urls iterations
             [("Chrome"%string, [])] "Chrome" true [] eq_refl).
  destruct (site_runs world urls iterations "Chrome" true) as [s1|f];
    [|reflexivity].
  change (outcome_map (put [("Chrome"%string, [])] "Chrome" (js_label true))
            (Resolved s1))
    with (Resolved [("Chrome"%string, [("JS_on"%string, s1)])]).
  cbv beta iota delta [and_then].
  rewrite (js_state_put world urls iterations
             [("Chrome"%string, [("JS_on"%string, s1)])] "Chrome" false
             [("JS_on"%string, s1)] eq_refl).
  destruct (site_runs world urls iterations "Chrome" false) as [s2|f];
    [|reflexivity].
  change (outcome_map
            (put [("Chrome"%string, [("JS_on"%string, s1)])] "Chrome"
               (js_label false)) (Resolved s2))
    with (Resolved
            [("Chrome"%string, [("JS_on"%string, s1); ("JS_off"%string, s2)])]).
  cbv beta iota.
  change (set [("Chrome"%string, [("JS_on"%string, s1); ("JS_off"%string, s2)])]
            "Firefox" [])
    with [("Chrome"%string, [("JS_on"%string, s1); ("JS_off"%string, s2)]);
          ("Firefox"%string, @nil (string * Sites))].
  rewrite (js_state_put world urls iterations
             [("Chrome"%string, [("JS_on"%string, s1); ("JS_off"%string, s2)]);
              ("Firefox"%string, [])] "Firefox" true [] eq_refl).
  destruct (site_runs world urls iterations "Firefox" true) as [s3|f];
    [|reflexivity].
  change (outcome_map
            (put [("Chrome"%string, [("JS_on"%string, s1); ("JS_off"%string, s2)]);
                  ("Firefox"%string, [])] "Firefox" (js_label true))
            (Resolved s3))
    with (Resolved
            [("Chrome"%string, [("JS_on"%string, s1); ("JS_off"%string, s2)]);
             ("Firefox"%string, [("JS_on"%string, s3)])]).
  cbv beta iota.
  rewrite (js_state_put world urls iterations
             [("Chrome"%string, [("JS_on"%string, s1); ("JS_off"%string, s2)]);
              ("Firefox"%string, [("JS_on"%string, s3)])] "Firefox" false
             [("JS_on"%string, s3)] eq_refl).
  destruct (site_runs world urls iterations "Firefox" false) as [s4|f];
    reflexivity.
Qed.

(** ** runBenchmark: no error of its own *)

Lemma safe_and_then {A B : Type} (P : A -> Prop) (Q : B -> Prop)
    (c : outcome A) (k : A -> outcome B) :
  safe P c -> (forall a, P a -> safe Q (k a)) -> safe Q (and_then c k).
Proof.
  destruct c as [a|[| |e]]; simpl; intros H Hk; [apply Hk; exact H|exact I|exact I|exact H].
Qed.

Lemma safe_await {A : Type} (o : option A) : safe (fun _ => True) (await o).
Proof. destruct o; exact I. Qed.

Lemma safe_await_done (b : bool) : safe (fun _ => True) (await_done b).
Proof. destruct b; exact I. Qed.

Lemma safe_await_launch (o : option float) : safe (fun _ => True) (await_launch o).
Proof. destruct o; exact I. Qed.

Lemma for_each_safe {X A : Type} (Inv : A -> Prop) (xs : list X)
    (body : X -> A -> outcome A) :
  (forall x a, Inv a -> safe Inv (body x a)) ->
  forall a, Inv a -> safe Inv (for_each xs body a).
Proof.
  intros H. induction xs as [|x xs IH]; intros a Ha; simpl; [exact Ha|].
  apply (safe_and_then Inv); [apply H; exact Ha|]. intros a' Ha'. apply IH. exact Ha'.
Qed.

Lemma for_each_from_safe {A : Type} (Inv : A -> Prop) (all urls : list string)
    (body : nat -> string -> A -> outcome A) :
  (forall k url a, In url all -> Inv a -> safe Inv (body k url a)) ->
  incl urls all ->
  forall k a, Inv a -> safe Inv (for_each_from k urls body a).
Proof.
  intros H. induction urls as [|url urls IH]; intros Hincl k a Ha; simpl;
    [exact Ha|].
  apply (safe_and_then Inv).
  - apply H; [apply Hincl; left; reflexivity|exact Ha].
  - intros a' Ha'. apply IH; [|exact Ha'].
    intros u Hu. apply Hincl. right. exact Hu.
Qed.

Lemma seeded_set (urls : list string) (sites : Sites) (url : string)
    (b : Buckets.t) :
  seeded urls sites -> complete_buckets b -> seeded urls (set sites url b).
Proof.
  intros [Hk Hc] Hb. split.
  - intros u Hu. destruct (string_dec url u) as [->|Hne].
    + rewrite get_set_eq. discriminate.
    + rewrite (get_set_ne _ _ _ _ Hne). apply Hk. exact Hu.
  - apply Forall_forall. intros kv Hin. apply in_set in Hin.
    destruct Hin as [Hin| ->]; [|exact Hb].
    rewrite Forall_forall in Hc. apply Hc. exact Hin.
Qed.

Lemma seeded_member (urls : list string) (sites : Sites) (url : string) :
  seeded urls sites -> In url urls ->
  exists rc rw, member sites url = Ok (Buckets.make (Some rc) (Some rw)).
Proof.
  intros [Hk Hc] Hu. unfold member.
  destruct (get sites url) as [b|] eqn:E; [|contradiction (Hk url Hu)].
  apply get_In in E. rewrite Forall_forall in Hc.
  destruct (Hc _ E) as [H1 H2]. simpl in H1, H2.
  destruct b as [[rc|] [rw|]]; simpl in *; try contradiction.
  exists rc, rw. reflexivity.
Qed.

Lemma site_push_cold_safe (urls : list string) (sites : Sites) (url : string)
    (x : Sample.t) :
  seeded urls sites -> In url urls ->
  safe (seeded urls) (run (site_push_cold sites url x)).
Proof.
  intros Hs Hu. unfold site_push_cold.
  destruct (seeded_member urls sites url Hs Hu) as [rc [rw ->]]. simpl.
  apply seeded_set; [exact Hs|]. split; discriminate.
Qed.

Lemma site_push_warm_safe (urls : list string) (sites : Sites) (url : string)
    (x : Sample.t) :
  seeded urls sites -> In url urls ->
  safe (seeded urls) (run (site_push_warm sites url x)).
Proof.
  intros Hs Hu. unfold site_push_warm.
  destruct (seeded_member urls sites url Hs Hu) as [rc [rw ->]]. simpl.
  apply seeded_set; [exact Hs|]. split; discriminate.
Qed.

Lemma site_visit_safe (world : World.t) (urls : list string)
    (browserName : string) (jsOn : bool) (launchTime : float) (iter k : nat)
    (url : string) (sites : Sites) :
  In url urls -> seeded urls sites ->
  safe (seeded urls)
    (site_visit world browserName jsOn launchTime iter k url sites).
Proof.
  intros Hu Hs. unfold site_visit.
  apply (safe_and_then (fun _ => True)); [apply safe_await|]. intros t _.
  apply (safe_and_then (seeded urls)); [apply site_push_cold_safe; assumption|].
  intros sites' Hs'.
  apply (safe_and_then (fun _ => True)); [apply safe_await|]. intros t' _.
  apply site_push_warm_safe; assumption.
Qed.

Lemma site_iteration_safe (world : World.t) (urls : list string)
    (browserName : string) (jsOn : bool) (iter : nat) (sites : Sites) :
  seeded urls sites ->
  safe (seeded urls) (site_iteration world urls browserName jsOn iter sites).
Proof.
  intros Hs. unfold site_iteration.
  apply (safe_and_then (fun _ => True)); [apply safe_await_launch|].
  intros launchTime _.
  apply (safe_and_then (fun _ => True)); [apply safe_await_done|]. intros _ _.
  apply (safe_and_then (seeded urls)).
  - apply (for_each_from_safe (seeded urls) urls urls);
      [|apply incl_refl|exact Hs].
    intros k url a Hu Ha. apply site_visit_safe; assumption.
  - intros sites' Hs'.
    apply (safe_and_then (fun _ => True)); [apply safe_await_done|].
    intros _ _. exact Hs'.
Qed.

Lemma seed_fold_complete (urls : list string) (sites : Sites) :
  Forall (fun kv => complete_buckets (snd kv)) sites ->
  Forall (fun kv => complete_buckets (snd kv)) (fold_left seed urls sites).
Proof.
  revert sites. induction urls as [|url urls IH]; intros sites H; simpl;
    [exact H|].
  apply IH. unfold seed. apply Forall_forall. intros kv Hin.
  apply in_set in Hin. destruct Hin as [Hin| ->]; [|split; discriminate].
  rewrite Forall_forall in H. apply H. exact Hin.
Qed.

Lemma seed_fold_keys (urls : list string) (sites : Sites) (url : string) :
  In url urls \/ get sites url <> None ->
  get (fold_left seed urls sites) url <> None.
Proof.
  revert sites. induction urls as [|u urls IH]; intros sites H; simpl.
  - destruct H as [[]|H]. exact H.
  - apply IH. unfold seed.
    destruct (string_dec u url) as [->|Hne].
    + right. rewrite get_set_eq. discriminate.
    + rewrite (get_set_ne _ _ _ _ Hne).
      destruct H as [[E|H]|H]; [contradiction|left; exact H|right; exact H].
Qed.

Lemma site_runs_safe (world : World.t) (urls : list string) (iterations : nat)
    (browserName : string) (jsOn : bool) :
  safe (seeded urls) (site_runs world urls iterations browserName jsOn).
Proof.
  unfold site_runs. apply (for_each_safe (seeded urls)).
  - intros iter sites Hs. apply site_iteration_safe. exact Hs.
  - split.
    + intros url Hu. apply seed_fold_keys. left. exact Hu.
    + apply seed_fold_complete. constructor.
Qed.

Lemma site_leaves_complete (browser jsLabel : string) (sites : Sites) :
  Forall (fun kv => complete_buckets (snd kv)) sites ->
  Forall complete (site_leaves browser jsLabel sites).
Proof.
  induction sites as [|[url b] sites IH]; intros H; simpl; [constructor|].
  inversion H as [|? ? Hb Hrest]; subst.
  constructor; [exact Hb|apply IH; exact Hrest].
Qed.

Lemma collect_safe (world : World.t) (urls : list string) (iterations : nat) :
  safe collected (collect world urls iterations).
Proof.
  rewrite collect_sites.
  apply (safe_and_then (seeded urls)); [apply site_runs_safe|]. intros s1 [_ H1].
  apply (safe_and_then (seeded urls)); [apply site_runs_safe|]. intros s2 [_ H2].
  apply (safe_and_then (seeded urls)); [apply site_runs_safe|]. intros s3 [_ H3].
  apply (safe_and_then (seeded urls)); [apply site_runs_safe|]. intros s4 [_ H4].
  simpl. split; [reflexivity|]. split; [repeat constructor|].
  unfold leaves, browser_leaves. simpl. rewrite !app_nil_r.
  repeat (apply Forall_app; split); apply site_leaves_complete; assumption.
Qed.

Lemma collected_page (results : ResultTree) :
  collected results -> exists page, generateHtml results = Ok page.
Proof.
  intros [Hk [_ Hc]].
  destruct (generateHtml results) as [page|[]] eqn:E; [exists page; reflexivity|].
  apply generateHtml_throw in E. rewrite Hk in E.
  destruct E as [E|[E|E]].
  - exfalso. apply Exists_exists in E. destruct E as [l [Hin [H|H]]];
      rewrite Forall_forall in Hc; destruct (Hc l Hin) as [H1 H2];
      contradiction.
  - contradiction E. left. reflexivity.
  - contradiction E. right. left. reflexivity.
Qed.

(** X10.  Whatever Playwright answers and whatever the URLs are, a run of
    [runBenchmark] never ends in an error of the script's own: no write to
    the result tree meets a missing object, and [generateHtml] does not raise
    on the tree that the loops have built.  So the run writes both files or
    none; and a tree it writes has the two browsers, under each the two
    JS-states, and both arrays in every leaf. *)
Theorem runBenchmark_raises_nothing
    (world : World.t) (urls : list string) (iterations : nat) :
  let files := fst (benchmark world urls iterations) in
  (forall e, snd (benchmark world urls iterations) <> Failed (Raised e))
  /\ (Files.OUTPUT_JSON files = None <-> Files.OUTPUT_HTML files = None)
  /\ (forall results,
        Files.OUTPUT_JSON files = Some results ->
        collect world urls iterations = Resolved results
        /\ collected results
        /\ exists page, generateHtml results = Ok page
                        /\ Files.OUTPUT_HTML files = Some page).
Proof.
  cbv zeta. unfold benchmark.
  pose proof (collect_safe world urls iterations) as Hs.
  destruct (collect world urls iterations) as [results|f]; simpl in *.
  - destruct (collected_page results Hs) as [page Hp]. rewrite Hp. simpl.
    split; [discriminate|]. split; [split; discriminate|].
    intros r Hr. injection Hr as <-.
    split; [reflexivity|]. split; [exact Hs|].
    exists page. split; [exact Hp|reflexivity].
  - split; [intros e H; injection H as ->; exact Hs|].
    split; [split; reflexivity|]. discriminate.
Qed.

(** ** runBenchmark: the tree of a run in which nothing is rejected *)

Lemma get_middle {V : Type} (pre post : object V) (key : string) (v : V) :
  ~ In key (keys pre) -> get (pre ++ (key, v) :: post) key = Some v.
Proof.
  induction pre as [|[k w] pre IH]; simpl; intros H.
  - rewrite String.eqb_refl. reflexivity.
  - destruct (String.eqb k key) eqn:E.
    + apply String.eqb_eq in E. contradiction H. left. exact E.
    + apply IH. intros Hin. apply H. right. exact Hin.
Qed.

Lemma set_middle {V : Type} (pre post : object V) (key : string) (v v' : V) :
  ~ In key (keys pre) ->
  set (pre ++ (key, v) :: post) key v' = pre ++ (key, v') :: post.
Proof.
  induction pre as [|[k w] pre IH]; simpl; intros H.
  - rewrite String.eqb_refl. reflexivity.
  - destruct (String.eqb k key) eqn:E.
    + apply String.eqb_eq in E. contradiction H. left. exact E.
    + f_equal. apply IH. intros Hin. apply H. right. exact Hin.
Qed.

Lemma set_new {V : Type} (o : object V) (key : string) (v : V) :
  ~ In key (keys o) -> set o key v = o ++ [(key, v)].
Proof.
  induction o as [|[k w] o IH]; simpl; intros H; [reflexivity|].
  destruct (String.eqb k key) eqn:E.
  - apply String.eqb_eq in E. contradiction H. left. exact E.
  - f_equal. apply IH. intros Hin. apply H. right. exact Hin.
Qed.

Lemma keys_app {V : Type} (o o' : object V) : keys (o ++ o') = keys o ++ keys o'.
Proof. apply map_app. Qed.

Section Exact.

Variable world : World.t.
Variable launchTime : string -> bool -> nat -> float.
Variable cold warm : string -> bool -> nat -> nat -> Timing.t.
Hypothesis Hworld : answers world launchTime cold warm.

Variable b : string.
Variable js : bool.

Lemma measured_keys (n k : nat) (urls : list string) :
  keys (measured_sites_from launchTime cold warm n b js k urls) = urls.
Proof.
  revert k. induction urls as [|url urls IH]; intros k; simpl; [reflexivity|].
  rewrite IH. reflexivity.
Qed.

Lemma seed_fold_measured (urls : list string) (sites : Sites) (k : nat) :
  NoDup (keys sites ++ urls) ->
  fold_left seed urls sites
  = sites ++ measured_sites_from launchTime cold warm 0 b js k urls.
Proof.
  revert sites k. induction urls as [|url urls IH]; intros sites k H; simpl.
  - rewrite app_nil_r. reflexivity.
  - assert (Hnew : ~ In url (keys sites)).
    { intros Hin. apply NoDup_remove_2 in H. apply H. apply in_or_app.
      left. exact Hin. }
    unfold seed at 2. rewrite (set_new _ _ _ Hnew).
    rewrite (IH _ (S k)).
    + rewrite <- app_assoc. reflexivity.
    + rewrite keys_app, <- app_assoc. exact H.
Qed.

Lemma measured_buckets_next (n k : nat) :
  measured_buckets launchTime cold warm (S n) b js k
  = Buckets.make
      (Some (samples (Buckets.cold (measured_buckets launchTime cold warm n b js k))
             ++ [cold_sample (launchTime b js (S n)) (cold b js (S n) k)]))
      (Some (samples (Buckets.warm (measured_buckets launchTime cold warm n b js k))
             ++ [warm_sample (warm b js (S n) k)])).
Proof.
  unfold measured_buckets. simpl samples.
  rewrite (seq_S n 1), !map_app. reflexivity.
Qed.

Lemma visits_measured (n : nat) (urls : list string) (pre : Sites) (k : nat) :
  NoDup (keys pre ++ urls) ->
  for_each_from k urls
    (site_visit world b js (launchTime b js (S n)) (S n))
    (pre ++ measured_sites_from launchTime cold warm n b js k urls)
  = Resolved (pre ++ measured_sites_from launchTime cold warm (S n) b js k urls).
Proof.
  destruct Hworld as [_ [_ [Hcold [Hwarm _]]]].
  revert pre k. induction urls as [|url urls IH]; intros pre k H;
    [reflexivity|].
  assert (Hnew : ~ In url (keys pre)).
  { intros Hin. apply NoDup_remove_2 in H. apply H. apply in_or_app.
    left. exact Hin. }
  simpl for_each_from. simpl measured_sites_from.
  unfold site_visit at 1. rewrite Hcold, Hwarm. simpl await.
  cbv beta iota delta [and_then].
  unfold site_push_cold, member. rewrite (get_middle _ _ _ _ Hnew).
  simpl. rewrite (set_middle _ _ _ _ _ Hnew).
  unfold site_push_warm, member. rewrite (get_middle _ _ _ _ Hnew).
  simpl. rewrite (set_middle _ _ _ _ _ Hnew).
  rewrite measured_buckets_next. simpl samples.
  set (next := Buckets.make _ _).
  change (pre ++ (url, next)
            :: measured_sites_from launchTime cold warm n b js (S k) urls)
    with (pre ++ [(url, next)]
            ++ measured_sites_from launchTime cold warm n b js (S k) urls).
  change (pre ++ (url, next)
            :: measured_sites_from launchTime cold warm (S n) b js (S k) urls)
    with (pre ++ [(url, next)]
            ++ measured_sites_from launchTime cold warm (S n) b js (S k) urls).
  rewrite !app_assoc. apply IH.
  rewrite keys_app, <- app_assoc. exact H.
Qed.

Lemma site_iteration_measured (n : nat) (urls : list string) :
  NoDup urls ->
  site_iteration world urls b js (S n)
    (measured_sites_from launchTime cold warm n b js 0 urls)
  = Resolved (measured_sites_from launchTime cold warm (S n) b js 0 urls).
Proof.
  intros Hnd. pose proof Hworld as [Hlaunch [Hopen [_ [_ Hclose]]]].
  unfold site_iteration. rewrite Hlaunch, Hopen, Hclose.
  cbv beta iota delta [and_then await_launch await_done].
  pose proof (visits_measured n urls [] 0 Hnd) as Hv. simpl app in Hv.
  rewrite Hv. reflexivity.
Qed.

Lemma site_iterations_measured (urls : list string) (m n : nat) :
  NoDup urls ->
  for_each (seq (S n) m) (site_iteration world urls b js)
    (measured_sites_from launchTime cold warm n b js 0 urls)
  = Resolved (measured_sites_from launchTime cold warm (n + m) b js 0 urls).
Proof.
  intros Hnd. revert n. induction m as [|m IH]; intros n; simpl.
  - rewrite Nat.add_0_r. reflexivity.
  - rewrite (site_iteration_measured n urls Hnd). simpl.
    rewrite IH. rewrite Nat.add_succ_r. reflexivity.
Qed.

Lemma site_runs_measured (urls : list string) (iterations : nat) :
  NoDup urls ->
  site_runs world urls iterations b js
  = Resolved (measured_sites_from launchTime cold warm iterations b js 0 urls).
Proof.
  intros Hnd. unfold site_runs.
  rewrite (seed_fold_measured urls [] 0 Hnd). simpl app.
  apply (site_iterations_measured urls iterations 0 Hnd).
Qed.

End Exact.

Lemma collect_measured (world : World.t)
    (launchTime : string -> bool -> nat -> float)
    (cold warm : string -> bool -> nat -> nat -> Timing.t)
    (urls : list string) (iterations : nat) :
  answers world launchTime cold warm ->
  NoDup urls ->
  collect world urls iterations
  = Resolved (measured_tree launchTime cold warm iterations urls).
Proof.
  intros Hw Hnd. rewrite collect_sites.
  rewrite !(site_runs_measured world launchTime cold warm Hw _ _ urls
              iterations Hnd).
  reflexivity.
Qed.

Section MeasuredTree.

Variable launchTime : string -> bool -> nat -> float.
Variable cold warm : string -> bool -> nat -> nat -> Timing.t.
Variable iterations : nat.

Lemma get_measured (b : string) (js : bool) (urls : list string) (k0 k : nat)
    (url : string) :
  NoDup urls -> nth_error urls k = Some url ->
  get (measured_sites_from launchTime cold warm iterations b js k0 urls) url
  = Some (measured_buckets launchTime cold warm iterations b js (k0 + k)).
Proof.
  intros Hnd. revert k0 k. induction urls as [|u urls IH]; intros k0 k H.
  - destruct k; discriminate.
  - inversion Hnd as [|? ? Hnew Hnd']; subst. destruct k as [|k]; simpl in H.
    + injection H as ->. simpl. rewrite String.eqb_refl, Nat.add_0_r.
      reflexivity.
    + simpl. destruct (String.eqb u url) eqn:E.
      * apply String.eqb_eq in E. subst u. contradiction Hnew.
        eapply nth_error_In. exact H.
      * rewrite (IH Hnd' (S k0) k H). rewrite Nat.add_succ_r. reflexivity.
Qed.

Lemma measured_site_leaves (P : Leaf -> Prop) (b : string) (js : bool)
    (urls : list string) (k : nat) :
  (forall k url,
     P (mkLeaf b (js_label js) url
          (measured_buckets launchTime cold warm iterations b js k))) ->
  Forall P (site_leaves b (js_label js)
              (measured_sites_from launchTime cold warm iterations b js k urls)).
Proof.
  intros H. revert k. induction urls as [|url urls IH]; intros k; simpl;
    [constructor|].
  constructor; [apply H|apply IH].
Qed.

Lemma measured_leaves (P : Leaf -> Prop) (urls : list string) :
  (forall b js k url,
     P (mkLeaf b (js_label js) url
          (measured_buckets launchTime cold warm iterations b js k))) ->
  Forall P (leaves (measured_tree launchTime cold warm iterations urls)).
Proof.
  intros H. unfold leaves, browser_leaves, measured_tree. simpl.
  rewrite !app_nil_r.
  repeat (apply Forall_app; split).
  - apply (measured_site_leaves P "Chrome" true). intros k url. apply H.
  - apply (measured_site_leaves P "Chrome" false). intros k url. apply H.
  - apply (measured_site_leaves P "Firefox" true). intros k url. apply H.
  - apply (measured_site_leaves P "Firefox" false). intros k url. apply H.
Qed.

Lemma length_measured_sites (b : string) (js : bool) (urls : list string)
    (k : nat) :
  length (site_leaves b (js_label js)
            (measured_sites_from launchTime cold warm iterations b js k urls))
  = length urls.
Proof.
  revert k. induction urls as [|url urls IH]; intros k; simpl; [reflexivity|].
  rewrite IH. reflexivity.
Qed.

Lemma length_measured_leaves (urls : list string) :
  length (leaves (measured_tree launchTime cold warm iterations urls))
  = (4 * length urls)%nat.
Proof.
  unfold leaves, browser_leaves, measured_tree. simpl.
  rewrite !app_nil_r, !length_app.
  rewrite (length_measured_sites "Chrome" true),
          (length_measured_sites "Chrome" false),
          (length_measured_sites "Firefox" true),
          (length_measured_sites "Firefox" false).
  lia.
Qed.

Lemma measured_complete (urls : list string) :
  Forall complete (leaves (measured_tree launchTime cold warm iterations urls)).
Proof.
  apply measured_leaves. intros b js k url. split; discriminate.
Qed.

End MeasuredTree.

Lemma non_null_numbers {X : Type} (f : X -> float) (xs : list X) :
  non_null (map (fun x => Num (f x)) xs) = map f xs.
Proof.
  induction xs as [|x xs IH]; simpl; [reflexivity|]. rewrite IH. reflexivity.
Qed.

Lemma Forall2_map_Forall {A B : Type} (P : A -> B -> Prop) (f : A -> B)
    (l : list A) :
  Forall (fun a => P a (f a)) l -> Forall2 P l (map f l).
Proof.
  induction 1; simpl; constructor; assumption.
Qed.

Lemma benchmark_measured (world : World.t)
    (launchTime : string -> bool -> nat -> float)
    (cold warm : string -> bool -> nat -> nat -> Timing.t)
    (urls : list string) (iterations : nat) :
  answers world launchTime cold warm ->
  NoDup urls ->
  exists page,
    generateHtml (measured_tree launchTime cold warm iterations urls) = Ok page
    /\ benchmark world urls iterations
       = (Files.make
            (Some (measured_tree launchTime cold warm iterations urls))
            (Some page),
          Resolved tt).
Proof.
  intros Hw Hnd. unfold benchmark.
  rewrite (collect_measured world launchTime cold warm urls iterations Hw Hnd).
  destruct (collected_page (measured_tree launchTime cold warm iterations urls))
    as [page Hp].
  { split; [reflexivity|]. split; [repeat constructor|].
    apply measured_complete. }
  exists page. rewrite Hp. split; reflexivity.
Qed.

(** X11.  When no Playwright call is rejected and the URLs are distinct,
    [runBenchmark] writes both files, and the tree it writes has, under each
    of the two browsers and each of the two JS-states, the URLs in their
    order, and in the leaf of each URL one cold and one warm sample per
    iteration, in the order of the iterations: the i-th cold sample is the
    cold measurement of iteration i for that URL with the launch time of
    iteration i as its browser_start_time, and the i-th warm sample is the
    warm measurement of iteration i, without browser_start_time. *)
Theorem runBenchmark_collects_every_measurement
    (world : World.t) (launchTime : string -> bool -> nat -> float)
    (cold warm : string -> bool -> nat -> nat -> Timing.t)
    (urls : list string) (iterations : nat) :
  answers world launchTime cold warm ->
  NoDup urls ->
  exists results page,
    benchmark world urls iterations
    = (Files.make (Some results) (Some page), Resolved tt)
    /\ keys results = ["Chrome"; "Firefox"]%string
    /\ forall b js,
         b = "Chrome"%string \/ b = "Firefox"%string ->
         exists jsBuckets sites,
           get results b = Some jsBuckets
           /\ keys jsBuckets = ["JS_on"; "JS_off"]%string
           /\ get jsBuckets (js_label js) = Some sites
           /\ keys sites = urls
           /\ forall k url,
                nth_error urls k = Some url ->
                get sites url
                = Some (Buckets.make
                          (Some (map (fun i => cold_sample (launchTime b js i)
                                                 (cold b js i k))
                                     (seq 1 iterations)))
                          (Some (map (fun i => warm_sample (warm b js i k))
                                     (seq 1 iterations)))).
Proof.
  intros Hw Hnd.
  destruct (benchmark_measured world launchTime cold warm urls iterations Hw Hnd)
    as [page [_ Hb]].
  exists (measured_tree launchTime cold warm iterations urls), page.
  split; [exact Hb|]. split; [reflexivity|].
  intros b js [-> | ->].
  - eexists. exists (measured_sites_from launchTime cold warm iterations
                       "Chrome" js 0 urls).
    split; [reflexivity|]. split; [reflexivity|].
    split; [destruct js; reflexivity|]. split; [apply measured_keys|].
    intros k url H.
    apply (get_measured launchTime cold warm iterations "Chrome" js urls 0 k
             url Hnd H).
  - eexists. exists (measured_sites_from launchTime cold warm iterations
                       "Firefox" js 0 urls).
    split; [reflexivity|]. split; [reflexivity|].
    split; [destruct js; reflexivity|]. split; [apply measured_keys|].
    intros k url H.
    apply (get_measured launchTime cold warm iterations "Firefox" js urls 0 k
             url Hnd H).
Qed.

Lemma example_world_answers :
  answers example_world example_launchTime example_cold example_warm.
Proof. repeat split. Qed.

Lemma URLS_distinct : NoDup URLS.
Proof.
  unfold URLS. repeat constructor; simpl; intuition discriminate.
Qed.

Lemma runBenchmark_raises_nothing_witness :
  exists results page,
    Files.OUTPUT_JSON (fst (runBenchmark example_world)) = Some results
    /\ collected results
    /\ generateHtml results = Ok page
    /\ Files.OUTPUT_HTML (fst (runBenchmark example_world)) = Some page.
Proof.
  destruct (benchmark_measured example_world example_launchTime example_cold
              example_warm URLS ITERATIONS example_world_answers URLS_distinct)
    as [page0 [_ Hb]].
  assert (E : Files.OUTPUT_JSON (fst (benchmark example_world URLS ITERATIONS))
              = Some (measured_tree example_launchTime example_cold
                        example_warm ITERATIONS URLS)).
  { rewrite Hb. reflexivity. }
  destruct (proj2 (proj2 (runBenchmark_raises_nothing
                            example_world URLS ITERATIONS)) _ E)
    as [_ [Hc [page [Hp Hh]]]].
  eexists. exists page. split; [exact E|]. split; [exact Hc|].
  split; [exact Hp|exact Hh].
Defined.

Lemma runBenchmark_collects_every_measurement_witness :
  answers example_world example_launchTime example_cold example_warm
  /\ NoDup URLS
  /\ exists results page,
       runBenchmark example_world
       = (Files.make (Some results) (Some page), Resolved tt)
       /\ keys results = ["Chrome"; "Firefox"]%string.
Proof.
  split; [exact example_world_answers|]. split; [exact URLS_distinct|].
  destruct (runBenchmark_collects_every_measurement
              example_world example_launchTime example_cold example_warm
              URLS ITERATIONS example_world_answers URLS_distinct)
    as [results [page [Hb [Hk _]]]].
  exists results, page. split; [exact Hb|exact Hk].
Defined.

(** X12.  In the tree of such a run there are four leaves per URL, and every
    leaf holds as many cold samples and as many warm samples as there are
    iterations; every cold sample has a number as its browser_start_time and
    no warm sample has one. *)
Theorem runBenchmark_leaves_hold_one_sample_per_iteration
    (world : World.t) (launchTime : string -> bool -> nat -> float)
    (cold warm : string -> bool -> nat -> nat -> Timing.t)
    (urls : list string) (iterations : nat) :
  answers world launchTime cold warm ->
  NoDup urls ->
  exists results,
    collect world urls iterations = Resolved results
    /\ length (leaves results) = (4 * length urls)%nat
    /\ Forall (fun l =>
                 Buckets.cold (leaf_buckets l) <> None
                 /\ Buckets.warm (leaf_buckets l) <> None
                 /\ length (cold_of l) = iterations
                 /\ length (warm_of l) = iterations
                 /\ Forall (fun r => Sample.browser_start_time r <> Null)
                      (cold_of l)
                 /\ Forall (fun r => Sample.browser_start_time r = Null)
                      (warm_of l))
         (leaves results).
Proof.
  intros Hw Hnd. eexists.
  split; [apply (collect_measured world launchTime cold warm); assumption|].
  split; [apply length_measured_leaves|].
  apply measured_leaves. intros b js k url.
  unfold cold_of, warm_of. simpl.
  split; [discriminate|]. split; [discriminate|].
  rewrite !length_map, length_seq.
  split; [reflexivity|]. split; [reflexivity|].
  split; apply Forall_forall; intros r Hr; apply in_map_iff in Hr;
    destruct Hr as [i [<- _]]; simpl; [discriminate|reflexivity].
Qed.

Lemma runBenchmark_leaves_hold_one_sample_per_iteration_witness :
  exists results,
    collect example_world URLS ITERATIONS = Resolved results
    /\ length (leaves results) = 16%nat
    /\ Forall (fun l => length (cold_of l) = 5%nat
                        /\ length (warm_of l) = 5%nat) (leaves results).
Proof.
  destruct (runBenchmark_leaves_hold_one_sample_per_iteration
              example_world example_launchTime example_cold example_warm
              URLS ITERATIONS example_world_answers URLS_distinct)
    as [results [Hc [Hlen H]]].
  exists results. split; [exact Hc|]. split; [exact Hlen|].
  eapply Forall_impl; [|exact H]. simpl. intros l [_ [_ [H1 [H2 _]]]].
  split; assumption.
Defined.

Lemma metric_eq_dec (m m' : metric) : {m = m'} + {m <> m'}.
Proof. decide equality. Qed.

(** X13.  On the tree of such a run [calculateMetricsData] returns four cold
    and four warm entries per URL.  The browser_start_time of a cold entry
    is the mean of the launch times of the iterations of its browser and
    JS-state, so it is the same for every URL under them; and every field of
    a warm entry is the mean of the field over the warm samples that have
    it, [null] for browser_start_time. *)
Theorem runBenchmark_chart_start_times
    (world : World.t) (launchTime : string -> bool -> nat -> float)
    (cold warm : string -> bool -> nat -> nat -> Timing.t)
    (urls : list string) (iterations : nat) :
  answers world launchTime cold warm ->
  NoDup urls ->
  exists results chart,
    collect world urls iterations = Resolved results
    /\ calculateMetricsData results = Ok chart
    /\ length (Chart.cold chart) = (4 * length urls)%nat
    /\ length (Chart.warm chart) = (4 * length urls)%nat
    /\ Forall2 (fun l e =>
                  Entry.browser_start_time e
                  = avg (map (launchTime (leaf_browser l) (is_js_on l))
                             (seq 1 iterations)))
         (leaves results) (Chart.cold chart)
    /\ Forall2 (fun l e =>
                  forall m,
                    entry_field m e
                    = mean_of_present (sample_field m) (warm_of l))
         (leaves results) (Chart.warm chart).
Proof.
  intros Hw Hnd.
  set (tree := measured_tree launchTime cold warm iterations urls).
  exists tree, (Chart.make (map cold_entry (leaves tree))
                           (map warm_entry (leaves tree))).
  split; [apply (collect_measured world launchTime cold warm); assumption|].
  split; [apply calculateMetricsData_complete, measured_complete|].
  cbn [Chart.cold Chart.warm].
  rewrite !length_map. unfold tree. rewrite length_measured_leaves.
  split; [reflexivity|]. split; [reflexivity|].
  split; apply Forall2_map_Forall, measured_leaves; intros b js k url.
  - unfold cold_entry, cold_of, is_js_on, values_of. simpl.
    rewrite map_map. simpl.
    rewrite (non_null_numbers (launchTime b js)).
    destruct js; reflexivity.
  - intros m.
    destruct (metric_eq_dec m Browser_start_time) as [->|Hm];
      [|apply warm_entry_means, Hm].
    symmetry. apply mean_of_present_none.
    unfold warm_of. simpl. apply Forall_forall. intros r Hr.
    apply in_map_iff in Hr. destruct Hr as [i [<- _]]. reflexivity.
Qed.

Lemma runBenchmark_chart_start_times_witness :
  exists results chart,
    collect example_world URLS ITERATIONS = Resolved results
    /\ calculateMetricsData results = Ok chart
    /\ length (Chart.cold chart) = 16%nat
    /\ Forall (fun e => Entry.browser_start_time e = Num 43) (Chart.cold chart).
Proof.
  destruct (runBenchmark_chart_start_times
              example_world example_launchTime example_cold example_warm
              URLS ITERATIONS example_world_answers URLS_distinct)
    as [results [chart [Hc [Hm [Hlen [_ [H _]]]]]]].
  exists results, chart. split; [exact Hc|]. split; [exact Hm|].
  split; [exact Hlen|].
  clear Hc Hm Hlen. induction H as [|l e ls es He _ IH]; constructor;
    [|exact IH].
  rewrite He. reflexivity.
Defined.

(** ** benchmark.js against index.js *)

Lemma extend_series_nil (st : BenchmarkJs.Series.t) : extend_series st [] = st.
Proof. destruct st. unfold extend_series; simpl. rewrite !app_nil_r. reflexivity. Qed.

Lemma extend_series_app (st : BenchmarkJs.Series.t) (a b : list Leaf) :
  extend_series (extend_series st a) b = extend_series st (a ++ b).
Proof. unfold extend_series; simpl. rewrite !map_app, !app_assoc. reflexivity. Qed.

Lemma flatten_site_complete (browser jsLabel url : string) (b : Buckets.t)
    (st : BenchmarkJs.Series.t) :
  Forall complete [mkLeaf browser jsLabel url b] ->
  BenchmarkJs.flatten_site browser jsLabel url b st
  = Ok (extend_series st [mkLeaf browser jsLabel url b]).
Proof.
  intros H. inversion H as [|? ? [Hc Hw] _]; subst. simpl in Hc, Hw.
  unfold BenchmarkJs.flatten_site.
  rewrite (column_samples _ _ Hc), (column_samples _ _ Hw). reflexivity.
Qed.

Lemma flatten_site_incomplete (browser jsLabel url : string) (b : Buckets.t)
    (st : BenchmarkJs.Series.t) :
  Exists incomplete [mkLeaf browser jsLabel url b] ->
  BenchmarkJs.flatten_site browser jsLabel url b st = Throw TypeError.
Proof.
  intros H. inversion H as [? ? Hl|? ? Hl]; subst; [|inversion Hl].
  unfold incomplete in Hl; simpl in Hl.
  unfold BenchmarkJs.flatten_site.
  destruct (Buckets.cold b) as [rc|]; [|reflexivity].
  destruct Hl as [Hl|Hl]; [discriminate|]. rewrite Hl. reflexivity.
Qed.

(** X14.  The earlier script's [generateHtml] and [calculateMetricsData]
    raise on the same trees.  When they return, the two data arrays of the
    earlier charts are the fcp fields of the cold and of the warm entries of
    [calculateMetricsData], entry by entry, and the two label arrays are
    equal and name the leaves in the same order, with the URL as it is in
    the tree. *)
Theorem benchmark_js_series_are_the_fcp_fields (data : ResultTree) :
  match calculateMetricsData data with
  | Ok chart =>
      BenchmarkJs.generateHtml data
      = Ok (BenchmarkJs.Series.make
              (map leaf_title (leaves data))
              (map Entry.fcp (Chart.cold chart))
              (map leaf_title (leaves data))
              (map Entry.fcp (Chart.warm chart)))
  | Throw e => BenchmarkJs.generateHtml data = Throw e
  end.
Proof.
  destruct (all_complete_or_some_incomplete (leaves data)) as [H|H].
  - rewrite (calculateMetricsData_complete data H).
    cbn [Chart.cold Chart.warm]. rewrite !map_map.
    unfold BenchmarkJs.generateHtml.
    rewrite (for_entries_extend extend_series extend_series_nil
               extend_series_app complete browser_leaves);
      [reflexivity| |exact H].
    intros browser jsBuckets st Hb.
    apply (for_entries_extend extend_series extend_series_nil
             extend_series_app complete (site_leaves browser)); [|exact Hb].
    intros jsLabel sites st' Hs.
    apply (for_entries_extend extend_series extend_series_nil
             extend_series_app complete
             (fun url b => [mkLeaf browser jsLabel url b])); [|exact Hs].
    intros url b st''. apply flatten_site_complete.
  - rewrite (calculateMetricsData_incomplete data H).
    unfold BenchmarkJs.generateHtml.
    apply (for_entries_throw incomplete browser_leaves); [|exact H].
    intros browser jsBuckets st Hb.
    apply (for_entries_throw incomplete (site_leaves browser)); [|exact Hb].
    intros jsLabel sites st' Hs.
    apply (for_entries_throw incomplete
             (fun url b => [mkLeaf browser jsLabel url b])); [|exact Hs].
    intros url b st''. apply flatten_site_incomplete.
Qed.

Lemma benchmark_js_series_are_the_fcp_fields_witness :
  exists chart,
    calculateMetricsData example_tree = Ok chart
    /\ BenchmarkJs.generateHtml example_tree
       = Ok (BenchmarkJs.Series.make
               (map leaf_title (leaves example_tree))
               (map Entry.fcp (Chart.cold chart))
               (map leaf_title (leaves example_tree))
               (map Entry.fcp (Chart.warm chart))).
Proof.
  pose proof (benchmark_js_series_are_the_fcp_fields example_tree) as H.
  destruct (calculateMetricsData example_tree) as [chart|e] eqn:E;
    [|vm_compute in E; discriminate].
  exists chart. split; [reflexivity|exact H].
Defined.

(** ** A browser without values *)

Lemma values_of_all_null (f : Sample.t -> value) (rs : list Sample.t) :
  Forall (fun r => f r = Null) rs -> values_of f rs = [].
Proof.
  unfold values_of. induction 1 as [|r rs Hr _ IH]; simpl; [reflexivity|].
  rewrite Hr. exact IH.
Qed.

Lemma in_all_samples_filter (p : Leaf -> bool) (ls : list Leaf) (r : Sample.t) :
  In r (all_samples (filter p ls)) -> In r (all_samples ls).
Proof.
  unfold all_samples. rewrite !in_flat_map. intros [l [Hl Hr]].
  apply filter_In in Hl. exists l. split; [apply Hl|exact Hr].
Qed.

Lemma in_cold_samples (ls : list Leaf) (r : Sample.t) :
  In r (cold_samples ls) -> In r (all_samples ls).
Proof.
  unfold cold_samples, all_samples. rewrite !in_flat_map. intros [l [Hl Hr]].
  exists l. split; [exact Hl|]. apply in_or_app. left. exact Hr.
Qed.

Lemma in_warm_samples (ls : list Leaf) (r : Sample.t) :
  In r (warm_samples ls) -> In r (all_samples ls).
Proof.
  unfold warm_samples, all_samples. rewrite !in_flat_map. intros [l [Hl Hr]].
  exists l. split; [exact Hl|]. apply in_or_app. right. exact Hr.
Qed.

Lemma browser_summary_null (browser : string) (jsBuckets : JsBuckets)
    (m : metric2) :
  Forall (fun r => raw m r = Null)
    (all_samples (browser_leaves browser jsBuckets)) ->
  forall g, pair_field m (group_pair g (browser_summary browser jsBuckets)) = Null.
Proof.
  intros H g. rewrite Forall_forall in H.
  destruct (browser_summary_fields browser jsBuckets m)
    as [Ho [Hon [Hoff [Hc Hw]]]].
  cbv zeta in Ho, Hon, Hoff, Hc, Hw. destruct g; unfold group_pair.
  - rewrite Ho, values_of_all_null; [reflexivity|].
    apply Forall_forall. exact H.
  - rewrite Hon, values_of_all_null; [reflexivity|].
    apply Forall_forall. intros r Hr. apply H.
    apply (in_all_samples_filter _ _ _ Hr).
  - rewrite Hoff, values_of_all_null; [reflexivity|].
    apply Forall_forall. intros r Hr. apply H.
    apply (in_all_samples_filter _ _ _ Hr).
  - rewrite Hc, values_of_all_null; [reflexivity|].
    apply Forall_forall. intros r Hr. apply H, in_cold_samples, Hr.
  - rewrite Hw, values_of_all_null; [reflexivity|].
    apply Forall_forall. intros r Hr. apply H, in_warm_samples, Hr.
Qed.

Lemma cell_for_null (chrome firefox : Stats.t) (c : comparison) (m : metric2) :
  pair_field m (minuend c chrome firefox) = Null ->
  pair_field m (subtrahend c chrome firefox) = Null ->
  Cell.number (cell_for chrome firefox c m) = 0
  /\ Cell.class (cell_for chrome firefox c m) = "negative"%string.
Proof.
  intros Hb Ha. unfold cell_for. rewrite Hb, Ha. split; reflexivity.
Qed.

Lemma get_record_some (data : ResultTree) (key : string) :
  In key (keys data) ->
  exists s, get (fold_left record_browser data []) key = Some s.
Proof.
  intros Hin.
  destruct (get (fold_left record_browser data []) key) as [s|] eqn:E;
    [exists s; reflexivity|].
  apply get_record_none in E. destruct E as [_ E]. contradiction.
Qed.

(** X15.  Take a tree with both browsers whose leaves are complete, and in it
    a browser none of whose samples has a value for FCP (for load): its
    leaves hold no sample yet, or every sample has [null] there.  Then all
    five means of the metric that [calculateCumulativeStats] stores for the
    browser are [null], and [generateHtml] still returns a page, in which the
    cells of the browser's own two comparisons, JS off against JS on and warm
    against cold, show the number 0 with the class negative. *)
Theorem browser_without_values_shows_zero
    (data : ResultTree) (browser : string) (jsBuckets : JsBuckets)
    (m : metric2) :
  NoDup (keys data) ->
  In (browser, jsBuckets) data ->
  In "Chrome"%string (keys data) ->
  In "Firefox"%string (keys data) ->
  Forall complete (leaves data) ->
  Forall (fun r => raw m r = Null)
    (all_samples (browser_leaves browser jsBuckets)) ->
  exists page s,
    generateHtml data = Ok page
    /\ get (Page.cumulativeStats page) browser = Some s
    /\ (forall g, pair_field m (group_pair g s) = Null)
    /\ forall c, own_comparison browser c = true ->
         exists cell, cell_of c m page = Some cell
                      /\ Cell.number cell = 0
                      /\ Cell.class cell = "negative"%string.
Proof.
  intros Hnd Hin HC HF Hc Hnull.
  pose proof (calculateMetricsData_complete data Hc) as Hm.
  pose proof (calculateCumulativeStats_complete data Hc) as Hs.
  pose proof (get_record_browser data [] browser jsBuckets Hnd Hin) as Hg.
  destruct (get_record_some data "Chrome" HC) as [chrome Ec].
  destruct (get_record_some data "Firefox" HF) as [firefox Ef].
  pose proof (browser_summary_null browser jsBuckets m Hnull) as Hn.
  eexists. exists (browser_summary browser jsBuckets).
  split; [apply (generateHtml_run data _ _ chrome firefox Hm Hs Ec Ef)|].
  split; [exact Hg|]. split; [exact Hn|].
  intros c Hown. exists (cell_for chrome firefox c m).
  split; [apply cell_of_page_of|].
  destruct c; simpl in Hown; try discriminate;
    apply String.eqb_eq in Hown; subst browser;
    rewrite Hg in *;
    first [injection Ec as <- | injection Ef as <-];
    apply cell_for_null.
  - apply (Hn JsOff).
  - apply (Hn JsOn).
  - apply (Hn JsOff).
  - apply (Hn JsOn).
  - apply (Hn Warm).
  - apply (Hn Cold).
  - apply (Hn Warm).
  - apply (Hn Cold).
Qed.

Lemma browser_without_values_shows_zero_witness :
  exists page cell,
    generateHtml tree_chrome_seeded = Ok page
    /\ cell_of WarmCache_Chrome FCP page = Some cell
    /\ Cell.number cell = 0
    /\ Cell.class cell = "negative"%string.
Proof.
  assert (Hnd : NoDup (keys tree_chrome_seeded)).
  { repeat constructor; simpl; intuition discriminate. }
  assert (Hc : Forall complete (leaves tree_chrome_seeded)).
  { repeat constructor; simpl; discriminate. }
  destruct (browser_without_values_shows_zero tree_chrome_seeded "Chrome" _ FCP
              Hnd (or_introl eq_refl) (or_introl eq_refl)
              (or_intror (or_introl eq_refl)) Hc (Forall_nil _))
    as [page [s [Hp [_ [_ H]]]]].
  destruct (H WarmCache_Chrome eq_refl) as [cell [Hcell [H0 Hclass]]].
  exists page, cell. repeat split; assumption.
Defined.

(** ** Labels of other URLs *)

Lemma occurs_unfold (pat s : string) :
  occurs pat s
  = if String.prefix pat s then true
    else match s with
         | EmptyString => false
         | String _ s' => occurs pat s'
         end.
Proof. destruct s; reflexivity. Qed.

Lemma replace_absent (pat rep s : string) :
  occurs pat s = false -> replace pat rep s = s.
Proof.
  induction s as [|c s IH]; intros H; rewrite occurs_unfold in H;
    rewrite replace_unfold;
    destruct (String.prefix pat _); try discriminate; [reflexivity|].
  rewrite (IH H). reflexivity.
Qed.

Lemma occurs_slash (s : string) : occurs "/" s = has_char "/" s.
Proof.
  induction s as [|c s IH]; [reflexivity|].
  rewrite occurs_unfold.
  change (String.prefix "/" (String c s))
    with (if ascii_dec "/" c then String.prefix "" s else false).
  simpl has_char. destruct (ascii_dec "/" c) as [<-|Hne].
  - destruct s; reflexivity.
  - destruct (Ascii.eqb c "/") eqn:E; [|exact IH].
    apply Ascii.eqb_eq in E. contradiction Hne. symmetry. exact E.
Qed.

(** X16.  A URL in which [https://] does not occur keeps its scheme in the
    label and loses its first slash, wherever that is; a URL without any
    slash is the end of the label as it is. *)
Theorem make_label_without_https (browser jsLabel url : string) :
  occurs "https://" url = false ->
  (has_char "/" url = false ->
   make_label browser jsLabel url
   = (browser ++ " " ++ jsLabel ++ " " ++ url)%string)
  /\ (forall before rest : string,
        url = (before ++ "/" ++ rest)%string ->
        has_char "/" before = false ->
        make_label browser jsLabel url
        = (browser ++ " " ++ jsLabel ++ " " ++ before ++ rest)%string).
Proof.
  intros Habsent. unfold make_label.
  rewrite (replace_absent "https://" "" url Habsent). split.
  - intros Hno. rewrite replace_absent; [reflexivity|].
    rewrite occurs_slash. exact Hno.
  - intros before rest -> Hno. rewrite (replace_first_slash before rest Hno).
    reflexivity.
Qed.

Lemma make_label_without_https_witness :
  occurs "https://" "http://localhost:3000/" = false
  /\ make_label "Chrome" "JS_on" "http://localhost:3000/"
     = "Chrome JS_on http:/localhost:3000/"%string.
Proof.
  split; [reflexivity|].
  exact (proj2 (make_label_without_https "Chrome" "JS_on"
                  "http://localhost:3000/"%string eq_refl)
           "http:"%string "/localhost:3000/"%string eq_refl eq_refl).
Defined.

(** ** runBenchmark: a rejected await *)

Lemma for_each_resolved_inv {X A : Type} (xs : list X)
    (body : X -> A -> outcome A) (a a' : A) :
  for_each xs body a = Resolved a' ->
  forall x, In x xs -> exists a1 a2, body x a1 = Resolved a2.
Proof.
  revert a. induction xs as [|y xs IH]; intros a H x Hin; [contradiction|].
  simpl in H. destruct (body y a) as [a1|f] eqn:E; [|discriminate].
  simpl in H. destruct Hin as [->|Hin].
  - exists a, a1. exact E.
  - apply (IH a1 H x Hin).
Qed.

Lemma for_each_from_resolved_inv {A : Type} (urls : list string)
    (body : nat -> string -> A -> outcome A) (k0 : nat) (a a' : A) :
  for_each_from k0 urls body a = Resolved a' ->
  forall k, (k < length urls)%nat ->
    exists url a1 a2, body (k0 + k)%nat url a1 = Resolved a2.
Proof.
  revert k0 a. induction urls as [|u urls IH]; intros k0 a H k Hk;
    [simpl in Hk; lia|].
  simpl in H. destruct (body k0 u a) as [a1|f] eqn:E; [|discriminate].
  simpl in H. destruct k as [|k].
  - exists u, a, a1. rewrite Nat.add_0_r. exact E.
  - destruct (IH (S k0) a1 H k) as [url [b1 [b2 Hb]]]; [simpl in Hk; lia|].
    exists url, b1, b2. rewrite Nat.add_succ_r. exact Hb.
Qed.

Lemma site_runs_resolved_inv (world : World.t) (urls : list string)
    (iterations : nat) (b : string) (js : bool) (sites : Sites) (i : nat) :
  site_runs world urls iterations b js = Resolved sites ->
  (1 <= i <= iterations)%nat ->
  ~ rejected_at world urls b js i.
Proof.
  intros H Hi. unfold site_runs in H.
  destruct (for_each_resolved_inv _ _ _ _ H i) as [s1 [s2 Hit]].
  { apply in_seq. lia. }
  unfold site_iteration in Hit.
  destruct (World.launch world b js i) as [launchTime|] eqn:El;
    [|discriminate].
  destruct (World.newPage world b js i) eqn:En; [|discriminate].
  simpl in Hit.
  destruct (for_each_from 0 urls (site_visit world b js launchTime i) s1)
    as [s3|f] eqn:Ev; [|discriminate].
  simpl in Hit.
  destruct (World.close world b js i) eqn:Ec; [|discriminate].
  intros [R|[R|[R|[k [Hk R]]]]]; try congruence.
  destruct (for_each_from_resolved_inv _ _ _ _ _ Ev k Hk) as [url [t1 [t2 Hv]]].
  simpl in Hv. unfold site_visit in Hv.
  destruct (World.cold world b js i k) as [t|] eqn:Ek; [|discriminate].
  simpl in Hv.
  destruct (run (site_push_cold t1 url (cold_sample launchTime t))) as [t3|f];
    [|discriminate].
  simpl in Hv.
  destruct (World.warm world b js i k) as [t'|] eqn:Ew; [|discriminate].
  destruct R as [R|R]; congruence.
Qed.

Lemma collect_resolved_inv (world : World.t) (urls : list string)
    (iterations : nat) (results : ResultTree) (b : string) (js : bool)
    (i : nat) :
  collect world urls iterations = Resolved results ->
  b = "Chrome"%string \/ b = "Firefox"%string ->
  (1 <= i <= iterations)%nat ->
  ~ rejected_at world urls b js i.
Proof.
  rewrite collect_sites. intros H Hb Hi.
  destruct (site_runs world urls iterations "Chrome" true) as [s1|] eqn:E1;
    [|discriminate].
  destruct (site_runs world urls iterations "Chrome" false) as [s2|] eqn:E2;
    [|discriminate].
  destruct (site_runs world urls iterations "Firefox" true) as [s3|] eqn:E3;
    [|discriminate].
  destruct (site_runs world urls iterations "Firefox" false) as [s4|] eqn:E4;
    [|discriminate].
  destruct Hb as [-> | ->]; destruct js;
    eapply site_runs_resolved_inv; eassumption.
Qed.

(** X17.  When an await of the session of some browser, JS-state and
    iteration is rejected (the launch, the new page, a cold or a warm load at
    one of the URLs, or the closing), [runBenchmark] writes neither file: it
    exits, or its promise is rejected, and the samples of the sessions before
    are written nowhere. *)
Theorem runBenchmark_rejection_writes_nothing
    (world : World.t) (urls : list string) (iterations : nat)
    (b : string) (js : bool) (i : nat) :
  b = "Chrome"%string \/ b = "Firefox"%string ->
  (1 <= i <= iterations)%nat ->
  rejected_at world urls b js i ->
  fst (benchmark world urls iterations) = Files.make None None
  /\ (snd (benchmark world urls iterations) = Failed LaunchFailed
      \/ snd (benchmark world urls iterations) = Failed Rejected).
Proof.
  intros Hb Hi Hr. unfold benchmark.
  pose proof (collect_safe world urls iterations) as Hs.
  destruct (collect world urls iterations) as [results|f] eqn:E.
  - contradiction (collect_resolved_inv world urls iterations results b js i
                     E Hb Hi Hr).
  - simpl. split; [reflexivity|].
    destruct f as [| |e]; [left; reflexivity|right; reflexivity|].
    contradiction Hs.
Qed.

Lemma runBenchmark_rejection_writes_nothing_witness :
  rejected_at world_last_launch_rejected URLS "Firefox" false 5
  /\ (1 <= 5 <= ITERATIONS)%nat
  /\ fst (runBenchmark world_last_launch_rejected) = Files.make None None
  /\ snd (runBenchmark world_last_launch_rejected) = Failed LaunchFailed.
Proof.
  assert (Hr : rejected_at world_last_launch_rejected URLS "Firefox" false 5)
    by (left; reflexivity).
  assert (Hi : (1 <= 5 <= ITERATIONS)%nat) by (unfold ITERATIONS; lia).
  split; [exact Hr|]. split; [exact Hi|].
  destruct (runBenchmark_rejection_writes_nothing
              world_last_launch_rejected URLS ITERATIONS "Firefox" false 5
              (or_intror eq_refl) Hi Hr) as [Hf _].
  split; [exact Hf|]. vm_compute. reflexivity.
Defined.

(** ** The store: what a call returns *)

Lemma made_fresh (n : nat) (v : Heap.val) : made n v -> fresh n v.
Proof. intros [l [-> H]]. exact H. Qed.

Lemma frame_safe_new_made (n : nat) (c : Heap.cell) :
  (forall props, c = Heap.Object props -> Forall (fun kv => fresh n (snd kv)) props) ->
  frame_safe n (Heap.new c) (made n).
Proof.
  intros Hc h Hn HJ.
  destruct (frame_safe_new n c Hc h Hn HJ) as [H1 [H2 [H3 _]]].
  split; [exact H1|]. split; [exact H2|]. split; [exact H3|].
  intros a Ha. unfold Heap.new in Ha. simpl in Ha. injection Ha as <-.
  exists (length h). split; [reflexivity|exact Hn].
Qed.

Lemma made_calculateMetricsData (n : nat) (data : Heap.val) :
  frame_safe n (Heap.calculateMetricsData data) (made n).
Proof.
  unfold Heap.calculateMetricsData.
  repeat frame_step.
  eapply frame_safe_bind.
  - apply frame_safe_for_of. intros [browser jsBuckets].
    apply frame_safe_for_labels. intros jsLabel url b.
    apply frame_safe_metrics_of_site; assumption.
  - intros _ _. apply frame_safe_new_made. intros props [= <-].
    repeat constructor; assumption.
Qed.

Lemma made_calculateCumulativeStats (n : nat) (data : Heap.val) :
  frame_safe n (Heap.calculateCumulativeStats data) (made n).
Proof.
  unfold Heap.calculateCumulativeStats.
  eapply frame_safe_bind.
  { apply frame_safe_new_made. intros props [= <-]. constructor. }
  intros stats Hmade. pose proof (made_fresh n stats Hmade) as Hstats.
  frame_step.
  eapply frame_safe_bind.
  - apply frame_safe_for_of. intros [browser jsBuckets].
    apply frame_safe_stats_of_browser, Hstats.
  - intros _ _. apply frame_safe_ret. exact Hmade.
Qed.

Lemma made_calculateDeltas (n : nat) (stats : Heap.val) :
  frame_safe n (Heap.calculateDeltas stats) (made n).
Proof.
  unfold Heap.calculateDeltas.
  repeat frame_step.
  apply frame_safe_new_made. intros props [= <-].
  repeat constructor; assumption.
Qed.

Lemma frame_safe_result {A : Type} (c : Heap.M A) (Q : A -> Prop)
    (h : Heap.heap) :
  frame_safe (length h) c Q ->
  (forall a, fst (c h) = Ok a -> Q a)
  /\ closed_above (length h) (snd (c h)).
Proof.
  intros H. destruct (H h (le_n _) (closed_above_length h)) as [_ [_ [Hc Hq]]].
  split; assumption.
Qed.

(** X18.  Over a store of arrays and objects, what [calculateMetricsData],
    [calculateCumulativeStats] and [calculateDeltas] return, whatever the
    argument, is a reference to an object that the call has made: never the
    argument, and never an object that was in the store before.  And no
    object that the call has made holds a reference to a cell that was there
    before the call. *)
Theorem aggregation_returns_new_objects (h : Heap.heap) (v : Heap.val) :
  ((forall a, fst (Heap.calculateMetricsData v h) = Ok a ->
      exists l, a = Heap.Ref l /\ (length h <= l)%nat)
   /\ closed_above (length h) (snd (Heap.calculateMetricsData v h)))
  /\ ((forall a, fst (Heap.calculateCumulativeStats v h) = Ok a ->
         exists l, a = Heap.Ref l /\ (length h <= l)%nat)
      /\ closed_above (length h) (snd (Heap.calculateCumulativeStats v h)))
  /\ ((forall a, fst (Heap.calculateDeltas v h) = Ok a ->
         exists l, a = Heap.Ref l /\ (length h <= l)%nat)
      /\ closed_above (length h) (snd (Heap.calculateDeltas v h))).
Proof.
  split; [|split].
  - apply (frame_safe_result _ (made (length h)) h), made_calculateMetricsData.
  - apply (frame_safe_result _ (made (length h)) h),
      made_calculateCumulativeStats.
  - apply (frame_safe_result _ (made (length h)) h), made_calculateDeltas.
Qed.

Lemma aggregation_returns_new_objects_witness :
  exists a l,
    fst (Heap.calculateMetricsData (Heap.Ref 7) example_store) = Ok a
    /\ a = Heap.Ref l /\ (length example_store <= l)%nat.
Proof.
  destruct (fst (Heap.calculateMetricsData (Heap.Ref 7) example_store))
    as [a|e] eqn:E; [|vm_compute in E; discriminate].
  destruct (proj1 (proj1 (aggregation_returns_new_objects example_store
                            (Heap.Ref 7))) a E) as [l [Ha Hl]].
  exists a, l. split; [reflexivity|]. split; assumption.
Defined.

(** ** runBenchmark: the pools of a run with every value *)

Lemma length_values_of_map {X : Type} (f : Sample.t -> value)
    (g : X -> Sample.t) (xs : list X) :
  (forall x, f (g x) <> Null) -> length (values_of f (map g xs)) = length xs.
Proof.
  intros H. unfold values_of. induction xs as [|x xs IH]; simpl; [reflexivity|].
  destruct (f (g x)) as [|q] eqn:E; [contradiction (H x)|].
  simpl. rewrite IH. reflexivity.
Qed.

Lemma filter_js_on_site_leaves (b : string) (sites : Sites) :
  filter is_js_on (site_leaves b "JS_on" sites) = site_leaves b "JS_on" sites
  /\ filter (fun l => negb (is_js_on l)) (site_leaves b "JS_on" sites) = []
  /\ filter is_js_on (site_leaves b "JS_off" sites) = []
  /\ filter (fun l => negb (is_js_on l)) (site_leaves b "JS_off" sites)
     = site_leaves b "JS_off" sites.
Proof.
  induction sites as [|[url bk] sites [IH1 [IH2 [IH3 IH4]]]]; simpl;
    [repeat split; reflexivity|].
  rewrite IH1, IH2, IH3, IH4. repeat split; reflexivity.
Qed.

Section FullPools.

Variable m : metric2.
Variable n : nat.

Lemma full_pool_lengths (ls : list Leaf) :
  Forall (full_leaf m n) ls ->
  length (values_of (raw m) (cold_samples ls)) = (length ls * n)%nat
  /\ length (values_of (raw m) (warm_samples ls)) = (length ls * n)%nat
  /\ length (values_of (raw m) (all_samples ls)) = (length ls * (n + n))%nat.
Proof.
  induction 1 as [|l ls [Hc Hw] _ [IHc [IHw IHa]]]; [repeat split; reflexivity|].
  unfold cold_samples, warm_samples, all_samples in *. simpl.
  rewrite !values_of_app, !length_app, IHc, IHw, IHa, Hc, Hw.
  repeat split; lia.
Qed.

End FullPools.

Section MeasuredPools.

Variable launchTime : string -> bool -> nat -> float.
Variable cold warm : string -> bool -> nat -> nat -> Timing.t.
Variable iterations : nat.
Variable m : metric2.
Hypothesis Hcold : forall b js i k, timing_field m (cold b js i k) <> Null.
Hypothesis Hwarm : forall b js i k, timing_field m (warm b js i k) <> Null.

Lemma measured_leaf_full (b : string) (js : bool) (k : nat) (url : string) :
  let l := mkLeaf b (js_label js) url
             (measured_buckets launchTime cold warm iterations b js k) in
  length (values_of (raw m) (cold_of l)) = iterations
  /\ length (values_of (raw m) (warm_of l)) = iterations.
Proof.
  cbv zeta. unfold cold_of, warm_of. simpl. split.
  - rewrite length_values_of_map; [apply length_seq|].
    intros i. destruct m; apply Hcold.
  - rewrite length_values_of_map; [apply length_seq|].
    intros i. destruct m; apply Hwarm.
Qed.

Lemma measured_site_pools (b : string) (js : bool) (urls : list string) :
  let ls := site_leaves b (js_label js)
              (measured_sites_from launchTime cold warm iterations b js 0 urls) in
  length (values_of (raw m) (cold_samples ls)) = (length urls * iterations)%nat
  /\ length (values_of (raw m) (warm_samples ls))
     = (length urls * iterations)%nat
  /\ length (values_of (raw m) (all_samples ls))
     = (length urls * (iterations + iterations))%nat.
Proof.
  cbv zeta.
  rewrite <- (length_measured_sites launchTime cold warm iterations b js urls 0).
  apply full_pool_lengths.
  apply (measured_site_leaves launchTime cold warm iterations _ b js urls 0).
  intros k url. apply measured_leaf_full.
Qed.

Lemma measured_browser_pools (b : string) (urls : list string) :
  let ls :=
    browser_leaves b
      [("JS_on"%string,
        measured_sites_from launchTime cold warm iterations b true 0 urls);
       ("JS_off"%string,
        measured_sites_from launchTime cold warm iterations b false 0 urls)] in
  length (values_of (raw m) (cold_samples ls))
  = length (values_of (raw m) (warm_samples ls))
  /\ length (values_of (raw m) (cold_samples ls))
     = ((length urls + length urls) * iterations)%nat
  /\ length (values_of (raw m) (js_on_samples ls))
     = length (values_of (raw m) (js_off_samples ls))
  /\ length (values_of (raw m) (js_on_samples ls))
     = (length urls * (iterations + iterations))%nat.
Proof.
  cbv zeta. unfold browser_leaves. simpl flat_map. rewrite app_nil_r.
  destruct (measured_site_pools b true urls) as [Hc1 [Hw1 Ha1]].
  destruct (measured_site_pools b false urls) as [Hc2 [Hw2 Ha2]].
  cbv zeta in Hc1, Hw1, Ha1, Hc2, Hw2, Ha2. simpl js_label in *.
  set (on := site_leaves b "JS_on" _) in *.
  set (off := site_leaves b "JS_off" _) in *.
  assert (Ec : length (values_of (raw m) (cold_samples (on ++ off)))
               = ((length urls + length urls) * iterations)%nat).
  { unfold cold_samples in *. rewrite flat_map_app, values_of_app, length_app.
    rewrite Hc1, Hc2. lia. }
  assert (Ew : length (values_of (raw m) (warm_samples (on ++ off)))
               = ((length urls + length urls) * iterations)%nat).
  { unfold warm_samples in *. rewrite flat_map_app, values_of_app, length_app.
    rewrite Hw1, Hw2. lia. }
  destruct (filter_js_on_site_leaves b
              (measured_sites_from launchTime cold warm iterations b true 0 urls))
    as [F1 [F2 _]].
  destruct (filter_js_on_site_leaves b
              (measured_sites_from launchTime cold warm iterations b false 0 urls))
    as [_ [_ [F3 F4]]].
  fold on in F1, F2. fold off in F3, F4.
  assert (Eon : js_on_samples (on ++ off) = all_samples on).
  { unfold js_on_samples. rewrite filter_app, F1, F3, app_nil_r. reflexivity. }
  assert (Eoff : js_off_samples (on ++ off) = all_samples off).
  { unfold js_off_samples. rewrite filter_app, F2, F4. reflexivity. }
  rewrite Ec, Ew, Eon, Eoff, Ha1, Ha2. repeat split; reflexivity.
Qed.

End MeasuredPools.

(** X19.  In a run in which nothing is rejected, over distinct URLs, when
    every cold and every warm measurement has a value for FCP (for load),
    the pools that [calculateCumulativeStats] averages for each browser
    have equal sizes: the cold pool and the warm pool hold one value per
    JS-state, URL and iteration, and so do the jsOn pool and the jsOff pool,
    which hold one value per URL, iteration and cache state; the overall
    pool holds as many values as the cold and the warm pool together. *)
Theorem runBenchmark_pools_have_equal_sizes
    (world : World.t) (launchTime : string -> bool -> nat -> float)
    (cold warm : string -> bool -> nat -> nat -> Timing.t)
    (urls : list string) (iterations : nat) (m : metric2) (b : string) :
  answers world launchTime cold warm ->
  NoDup urls ->
  (forall b js i k, timing_field m (cold b js i k) <> Null) ->
  (forall b js i k, timing_field m (warm b js i k) <> Null) ->
  b = "Chrome"%string \/ b = "Firefox"%string ->
  exists results jsBuckets stats s,
    collect world urls iterations = Resolved results
    /\ In (b, jsBuckets) results
    /\ calculateCumulativeStats results = Ok stats
    /\ get stats b = Some s
    /\ let ls := browser_leaves b jsBuckets in
       let size := (2 * length urls * iterations)%nat in
       pair_field m (Stats.overall s) = avg (values_of (raw m) (all_samples ls))
       /\ pair_field m (Stats.cold s) = avg (values_of (raw m) (cold_samples ls))
       /\ pair_field m (Stats.warm s) = avg (values_of (raw m) (warm_samples ls))
       /\ pair_field m (Stats.jsOn s) = avg (values_of (raw m) (js_on_samples ls))
       /\ pair_field m (Stats.jsOff s)
          = avg (values_of (raw m) (js_off_samples ls))
       /\ length (values_of (raw m) (cold_samples ls)) = size
       /\ length (values_of (raw m) (warm_samples ls)) = size
       /\ length (values_of (raw m) (js_on_samples ls)) = size
       /\ length (values_of (raw m) (js_off_samples ls)) = size
       /\ length (values_of (raw m) (all_samples ls)) = (size + size)%nat.
Proof.
  intros Hw Hnd Hcold Hwarm Hb.
  set (tree := measured_tree launchTime cold warm iterations urls).
  set (jsB := [("JS_on"%string,
                measured_sites_from launchTime cold warm iterations b true 0 urls);
               ("JS_off"%string,
                measured_sites_from launchTime cold warm iterations b false 0 urls)]).
  assert (Hin : In (b, jsB) tree).
  { destruct Hb as [-> | ->]; [left|right; left]; reflexivity. }
  assert (Hkeys : NoDup (keys tree)).
  { repeat constructor; simpl; intuition discriminate. }
  destruct (calculateCumulativeStats_browser tree b jsB Hkeys Hin
              (measured_complete launchTime cold warm iterations urls))
    as [stats [Hs Hg]].
  destruct (measured_browser_pools launchTime cold warm iterations m
              Hcold Hwarm b urls) as [E1 [E2 [E3 E4]]].
  cbv zeta in E1, E2, E3, E4. fold jsB in E1, E2, E3, E4.
  exists tree, jsB, stats, (browser_summary b jsB).
  split; [apply (collect_measured world launchTime cold warm); assumption|].
  split; [exact Hin|]. split; [exact Hs|]. split; [exact Hg|].
  cbv zeta.
  destruct (browser_summary_fields b jsB m) as [Ho [Hon [Hoff [Hc Hwm]]]].
  cbv zeta in Ho, Hon, Hoff, Hc, Hwm.
  split; [exact Ho|]. split; [exact Hc|]. split; [exact Hwm|].
  split; [exact Hon|]. split; [exact Hoff|].
  assert (L : length (values_of (raw m) (all_samples (browser_leaves b jsB)))
              = (length (values_of (raw m) (cold_samples (browser_leaves b jsB)))
                 + length (values_of (raw m) (warm_samples (browser_leaves b jsB))))%nat).
  { rewrite <- length_app, <- values_of_app.
    apply Permutation_length, values_of_Permutation, all_samples_cold_warm. }
  rewrite L, <- E1, <- E3, E2, E4.
  repeat split; lia.
Qed.

Lemma runBenchmark_pools_have_equal_sizes_witness :
  exists results jsBuckets stats s,
    collect example_world URLS ITERATIONS = Resolved results
    /\ In ("Firefox"%string, jsBuckets) results
    /\ calculateCumulativeStats results = Ok stats
    /\ get stats "Firefox" = Some s
    /\ length (values_of Sample.load
                 (cold_samples (browser_leaves "Firefox" jsBuckets))) = 40%nat
    /\ length (values_of Sample.load
                 (warm_samples (browser_leaves "Firefox" jsBuckets))) = 40%nat.
Proof.
  destruct (runBenchmark_pools_have_equal_sizes
              example_world example_launchTime example_cold example_warm
              URLS ITERATIONS LOAD "Firefox"
              example_world_answers URLS_distinct)
    as (results & jsBuckets & stats & s & H1 & H2 & H3 & H4 & H5).
  - intros b js i k. discriminate.
  - intros b js i k. discriminate.
  - right. reflexivity.
  - cbv zeta in H5.
    destruct H5 as (_ & _ & _ & _ & _ & Hc & Hwm & _).
    exists results, jsBuckets, stats, s.
    split; [exact H1|]. split; [exact H2|]. split; [exact H3|].
    split; [exact H4|]. split; [exact Hc|exact Hwm].
Defined.
